(* ===== verification/_CoqProject ===== *)
-Q . S2P
Prelude.v
JsValue.v
JsonText.v
JsonParsed.v
JsonRoundTrip.v
Catalog.v
Handlers.v
Effects.v
Protocol.v
Server.v
JsonRpc.v
EventLoop.v
