(* ===== verification/Prelude.v ===== *)
(** * Verification of the AWS MCP server (mcp-server-aws.js and its
    predecessor)

    ** The program

    The repository is a Node.js program that speaks line-delimited JSON-RPC 2.0
    on standard input and output.  Three scripts exist:

    - [src/mcp-server-aws.js], the server proper: a static catalog [tools] of
      22 tool descriptors (lines 54-495), the helpers [handleRegion] and
      [parseRelativeTime] (498-527), a table [toolHandlers] of 7 asynchronous
      handlers that call the AWS SDK (530-684), the [rl.on('line')] callback
      that parses one line and dispatches on [request.method] (687-765), the
      two writers [sendResponse] and [sendErrorResponse] (768-790) and the
      unsolicited [notifications/ready] line written at start-up (793-799);
    - [src/unnamed/part_001], the earlier JSON-RPC server (lines 43-165)
      whose catalog holds [ping] alone and whose [tools/invoke] knows only
      that tool;
    - [src/unnamed/part_000], the first script (lines 110-126), which prints
      one object with a [tools] array and then idles.

    All state is process-wide: the AWS region of [AWS.config], the lines
    written to standard output and the lines appended to the log file.  The
    callback is asynchronous: it suspends at its one [await], and other
    callbacks run before it continues.

    ** The development, file by file

    - [Prelude] (this file): the [completion] type (a JavaScript computation
      returns, throws, or leaves the model; a thrown error is represented by
      its [message], the only field the program reads), its bind notation,
      the association-list operations objects are built from, the shared
      tactics, the hint databases [js] and [js_rw], and the lemmas on
      decimal numerals and lists the components share.
    - [JsValue]: the values the program computes with ([value]: undefined,
      null, booleans, numbers, strings, arrays, objects in property order),
      and the JavaScript operations the source applies to them: truthiness
      ([truthy], for [!x] and [||]), strict comparison with a string literal
      ([strict_eq_str]), the template-literal conversion [to_string]
      (ToString, with the TypeError an object with an own [toString] key
      raises), property reads ([get_prop], [get_opt] for [?.]) and property
      definition in JavaScript's own-key order ([obj_define]).
    - [JsonText]: [JSON_stringify], the serializer behind every output line,
      and [JSON_parse], a fuel-indexed recursive-descent parser of the JSON
      grammar, written as three steps ([value_step], [elements_step],
      [members_step]) over the parsers they call.  Both are functions of the
      engine that the program calls (lines 689 and 775), modelled from their
      standard.
    - [JsonParsed]: what the parser returns is JSON data ([json_data]).
    - [JsonRoundTrip]: the parser reads back what the serializer writes.
    - [Catalog]: the 22 descriptors of [tools], each a [value] written as the
      object literal of the source, the callback [tool_entry] of [tools/list]
      and the well-formedness of the catalog.
    - [Handlers]: [handleRegion], [parseRelativeTime] with [parseInt], the
      table [toolHandlers] with the lookup [toolHandlers_get] (own keys
      first, then the members every object inherits from Object.prototype),
      and each handler split at its single [await]: [handler_start] runs up
      to the SDK call, [handler_finish] consumes the SDK's reply.
    - [Effects]: the process state ([state]: the region of [AWS.config], the
      lines written, the messages logged) and the monad [M] of computations
      that change it and may throw, with [log], [console_log], [catch], the
      tactic [run] that executes a computation symbolically, and three
      properties of computations with a tactic each: [monotone] (the
      append-only order [extends]), [preserves] (invariants of the state)
      and [local] (nothing is read but the region); [similar] relates states
      that differ in the order of what was written.
    - [Protocol]: the envelopes the writers build, and the specification of
      the dispatcher: [expected] maps a parsed request to what the client is
      owed (one reply, nothing, a fault, or the invocation of a handler),
      and [answer_line] is the server as a pure function from a line, the
      clock, the region and the SDK's reply to the replies written and the
      region left.  Nothing in it has state, a log or exceptions.
    - [Server]: the writers [sendResponse] and [sendErrorResponse],
      [startup], the callback ([on_request] is the body of its [try],
      [invoke] the [tools/invoke] branch, [on_line] adds [JSON.parse] and
      the outer [catch]), [resume], which finishes a callback suspended at
      its [await], and a sequential driver ([serve_line], [serve], [main])
      that handles each line to the end before the next.  What the callback
      takes from the engine (the text of a SyntaxError, [Date.parse]) is the
      record [engine].
    - [JsonRpc]: the earlier server of [src/unnamed/part_001]: its writers,
      start-up and callback ([rpc_on_line], [rpc_on_request]), its own
      specification [rpc_expected], and the comparison with the main server.
    - [EventLoop]: the program under the event loop, with several requests
      in flight.  A [loop] is the process state and the callbacks suspended
      on an SDK call ([flight]); an [event] is a chunk of lines or the
      settlement of one call; [deliver] runs the line events of a chunk and
      then the microtasks, [loop_step] one event, [loop_run] a schedule;
      [reachable] are the states after start-up and any events.

    ** What the theorems show

    - Refinement: [Server.on_line_refines] shows that the callback does what
      [expected] prescribes on every line and in every state;
      [Server.serve_line_refines] and [Server.serve_refines] show that lines
      handled to the end write exactly what the pure transducer
      [answer_line] says, in order, and leave the region it says.
    - Concurrency: every schedule of the event loop is serializable
      ([EventLoop.loop_serializable]): once everything in flight has
      settled, the program has written what the sequential driver writes on
      the same lines, in another order at most, and left the same region, so
      no request is dropped or answered twice.  A settled call is answered
      once under its own id ([EventLoop.settled_call_answered]), everything
      in flight can be drained ([EventLoop.loop_drains]), the sequential
      driver is one of the schedules
      ([EventLoop.sequential_schedule_serves]), and replies come in
      completion order, which differs from request order even without an SDK
      call ([EventLoop.chunk_answers_out_of_order]).
      [EventLoop.reachable_invariant] is the invariant of the reachable
      states.
    - Functional behaviour of the dispatcher, branch by branch, from the
      refinement: the invalid-request, initialize, tools/list, tools/invoke,
      notifications/initialized and method-not-found branches, the
      parse-error path and the faults that reach the outer [catch]; the text
      of a response on the wire ([Protocol.encode_wire_format]).
    - The handlers: the region each applies before validating
      ([Handlers.handler_start_region], [Handlers.region_sticky]), the
      prefix an SDK error is wrapped in ([Handlers.sdk_error_wrapped]), the
      instance count of [describeInstances]
      ([Handlers.ec2_counts_instances]), the time window and the defaults of
      [getMetricStatistics] ([Handlers.cloudwatch_window]), relative times
      ([Handlers.parseRelativeTime_spec]), and the missing bucket of
      [listObjects] ([Server.missing_bucket_rejected]).
    - Output: every line written holds no line feed
      ([Server.main_writes_lines]); start-up writes the ready notification
      first ([Server.startup_announces]); a client that parses a response
      reads the envelope the server built ([Protocol.response_reads_back]).
    - The JSON functions: the parser never runs out of the fuel [JSON_parse]
      gives it ([JsonText.JSON_parse_fuel_enough]), it returns JSON data
      ([JsonParsed.JSON_parse_data]) and reads back what the serializer
      writes ([JsonRoundTrip.JSON_parse_stringify]).
    - The catalog and the table: the catalog is well formed
      ([Catalog.catalog_well_formed]); the lookup is the table of the source
      written out key by key, own names before inherited ones
      ([Handlers.toolHandlers_get_spec]); fifteen advertised tools have no
      handler ([Protocol.advertised_and_implemented]).
    - The earlier server implements its own specification
      ([JsonRpc.rpc_on_line_refines]), agrees with the main server on the
      requests the two have in common, which exclude [tools/list]
      ([JsonRpc.servers_agree]), and answers the notification the main
      server is silent on ([JsonRpc.rpc_answers_initialized_notification]).
    - Where the code departs from its specification the departure is a
      theorem about the code: names inherited from Object.prototype are
      invoked ([Server.inherited_member_invoked]), requests without [id] are
      answered ([Server.request_without_id_answered]), faults after parsing
      are reported as parse errors
      ([Server.initialize_without_params_is_parse_error]).

    ** Bounds and modelling choices

    - Numbers are integers ([Z]).  A JavaScript number is an IEEE double; the
      model is exact for integers of magnitude at most 2^53 - 1, which
      [JSON_parse] enforces by reporting [OutOfModel] on any literal with a
      fraction, an exponent or a larger magnitude.  [-0] is read as [0], which
      no operation of the program distinguishes.  Times are exact integers
      clipped by TimeClip at 8.64e15 ms, where the doubles of JavaScript are
      exact too.
    - Strings are byte strings.  The model is exact for ASCII text; bytes
      above 127 pass through parser and serializer unchanged, as the UTF-8
      encoding of the character does in the program.  A [\u] escape above
      [\u007f] is [OutOfModel].
    - The parser takes fuel.  A nested value costs two units (one for the
      list it is in, one for itself) and at least one character, so
      [JSON_parse] supplies twice the length of the line plus one;
      [JsonText.JSON_parse_fuel_enough] shows the parser never runs out.
    - A computation that meets a value outside the model ends as
      [Unmodelled]; every theorem about what is written is stated for runs
      that end normally, and the refinement theorems say which lines leave
      the model.
    - An asynchronous handler is split at its [await]; the SDK's reply is an
      input ([arrival_reply]), as are the clock (one value per call) and the
      engine's [Date.parse].  What the SDK answers to a call is fixed when
      the line arrives; when it answers is the schedule.
    - The event loop takes from Node.js that [readline] emits the line
      events of a chunk one after the other before any microtask runs, that
      a callback awaiting a settled promise or a plain value continues in a
      microtask, first come first served, and that an SDK call settles in a
      later turn.  The sequential driver [serve] is not in the source: it is
      the schedule in which every reply arrives before the next line is
      read, and the reference the schedules are compared with.
    - Text of engine-generated TypeErrors follows V8, the engine of Node.js.
    - The log is the list of messages passed to [log] (the timestamp prefix
      is left out), and [fs.appendFileSync] is assumed not to throw.

    ** Not modelled

    The AWS SDK itself and the unused module-level service clients (lines
    37-51); how [readline] cuts its input into lines; a failure to write the
    log; values that are functions, and with them the script of
    [src/unnamed/part_000], whose one effect is to serialize an object with
    a function-valued member; the README texts stored beside the two
    earlier scripts. *)

From Stdlib Require Export ZArith Ascii String List Lia.
From stdpp Require Export base tactics option list strings numbers pretty.

#[global] Open Scope string_scope.
#[global] Open Scope Z_scope.

(** stdpp blocks [simpl] on string append; the serializer and the parser are
    proved by unfolding it on literals, so it is unblocked when its first
    argument is a constructor. *)
#[global] Arguments String.append !_ _ / : simpl nomatch.

Declare Scope js_scope.
Delimit Scope js_scope with js.

(** ** Completions: a JavaScript computation returns a value or throws.
    The program reads only [error.message] of what it catches, so a thrown
    error is its message.  [Unmodelled] marks a computation that leaves the
    fragment of JavaScript the development holds (a NaN, a number that is
    not an integer); it is not an exception and no [catch] sees it. *)

Inductive completion (A : Type) : Type :=
| Normal (a : A)
| Throw (message : string)
| Unmodelled.

Arguments Normal {A} a.
Arguments Throw {A} message.
Arguments Unmodelled {A}.

#[export] Instance completion_ret : MRet completion := @Normal.

#[export] Instance completion_bind : MBind completion :=
  fun _ _ f c =>
    match c with Normal a => f a | Throw m => Throw m | Unmodelled => Unmodelled end.

#[export] Instance completion_fmap : FMap completion :=
  fun _ _ f c =>
    match c with
    | Normal a => Normal (f a) | Throw m => Throw m | Unmodelled => Unmodelled
    end.

#[export] Instance completion_eq_dec {A} `{EqDecision A} : EqDecision (completion A).
Proof. solve_decision. Defined.

(** [try_catch c h] is [try { c } catch (error) { h error.message }]. *)
Definition try_catch {A} (c : completion A) (h : string -> completion A) : completion A :=
  match c with Normal a => Normal a | Throw m => h m | Unmodelled => Unmodelled end.

Definition is_normal {A} (c : completion A) : bool :=
  match c with Normal _ => true | _ => false end.

Definition is_throw {A} (c : completion A) : bool :=
  match c with Throw _ => true | _ => false end.

(** [mapM_completion f l] runs [f] over [l] from the left and stops at the
    first throw, as a [for] loop or [Array.prototype.map] with a throwing
    callback does. *)
Fixpoint mapM_completion {A B} (f : A -> completion B) (l : list A) : completion (list B) :=
  match l with
  | [] => Normal []
  | x :: l' => y ← f x; ys ← mapM_completion f l'; Normal (y :: ys)
  end.

(** ** Association lists in insertion order: the own properties of an object. *)

Section alist.
Context {V : Type}.

Fixpoint alookup (k : string) (l : list (string * V)) : option V :=
  match l with
  | [] => None
  | (k', v) :: l' => if String.eqb k k' then Some v else alookup k l'
  end.

Definition akeys (l : list (string * V)) : list string := map fst l.

Definition ahas (k : string) (l : list (string * V)) : bool :=
  match alookup k l with Some _ => true | None => false end.

(** Replace the value of an existing key in place; the position is kept. *)
Fixpoint areplace (k : string) (v : V) (l : list (string * V)) : list (string * V) :=
  match l with
  | [] => []
  | (k', v') :: l' =>
      if String.eqb k k' then (k', v) :: l' else (k', v') :: areplace k v l'
  end.

End alist.

(** ** Strings *)

Fixpoint string_forallb (p : ascii -> bool) (s : string) : bool :=
  match s with
  | EmptyString => true
  | String c s' => p c && string_forallb p s'
  end.

Definition is_digit (c : ascii) : bool :=
  let n := nat_of_ascii c in (48 <=? n)%nat && (n <=? 57)%nat.

Definition digit_value (c : ascii) : Z := Z.of_nat (nat_of_ascii c) - 48.

(** [join sep l] is [Array.prototype.join] on strings. *)
Fixpoint join (sep : string) (l : list string) : string :=
  match l with
  | [] => ""
  | [x] => x
  | x :: l' => x +:+ sep +:+ join sep l'
  end.

(** ** Tactics *)

Create HintDb js discriminated.
Create Rewrite HintDb js_rw.

(** Case analysis on the completion the goal (or a hypothesis) matches on. *)
Ltac case_completion :=
  match goal with
  | |- context [match ?c with Normal _ => _ | Throw _ => _ | Unmodelled => _ end] =>
      let E := fresh "E" in destruct c eqn:E
  | |- context [mbind _ ?c] =>
      let E := fresh "E" in destruct c eqn:E; simpl
  | H : context [match ?c with Normal _ => _ | Throw _ => _ | Unmodelled => _ end] |- _ =>
      let E := fresh "E" in destruct c eqn:E
  end.

(** Case analysis on a string test [String.eqb a b]. *)
Ltac case_string_eqb :=
  match goal with
  | |- context [String.eqb ?a ?b] => destruct (String.eqb_spec a b)
  | H : context [String.eqb ?a ?b] |- _ => destruct (String.eqb_spec a b)
  end.

(** Rewrite with the development's equations, then simplify. *)
Ltac js_simpl := repeat (progress (autorewrite with js_rw in *; simpl in *)).

(** Close a goal about closed terms by evaluation. *)
Ltac by_compute := vm_compute; first [reflexivity | done | intuition congruence].

(** ** Laws of completions *)

Section completion_laws.
Context {A B C : Type}.

Lemma bind_normal (a : A) (f : A -> completion B) : (Normal a ≫= f) = f a.
Proof. reflexivity. Qed.

Lemma bind_throw (m : string) (f : A -> completion B) : (Throw m ≫= f) = Throw m.
Proof. reflexivity. Qed.

Lemma bind_ret_r (c : completion A) : (c ≫= Normal) = c.
Proof. by destruct c. Qed.

Lemma bind_assoc (c : completion A) (f : A -> completion B) (g : B -> completion C) :
  ((c ≫= f) ≫= g) = (c ≫= fun a => f a ≫= g).
Proof. by destruct c. Qed.

Lemma bind_normal_inv (c : completion A) (f : A -> completion B) (b : B) :
  (c ≫= f) = Normal b -> exists a, c = Normal a /\ f a = Normal b.
Proof. destruct c; simpl; [eauto | discriminate..]. Qed.

Lemma bind_throw_inv (c : completion A) (f : A -> completion B) (m : string) :
  (c ≫= f) = Throw m -> c = Throw m \/ exists a, c = Normal a /\ f a = Throw m.
Proof. destruct c; simpl; [eauto | intros [= ->]; auto | discriminate]. Qed.

Lemma try_catch_normal (a : A) (h : string -> completion A) :
  try_catch (Normal a) h = Normal a.
Proof. reflexivity. Qed.

Lemma try_catch_throw (m : string) (h : string -> completion A) :
  try_catch (Throw m) h = h m.
Proof. reflexivity. Qed.

End completion_laws.

#[export] Hint Rewrite @bind_normal @bind_throw @try_catch_normal @try_catch_throw : js_rw.

Lemma mapM_completion_length {A B} (f : A -> completion B) l l' :
  mapM_completion f l = Normal l' -> length l' = length l.
Proof.
  revert l'; induction l as [|x l IH]; intros l'; simpl.
  - by intros [= <-].
  - destruct (f x); simpl; [|discriminate..].
    destruct (mapM_completion f l); simpl; [|discriminate..].
    intros [= <-]; simpl; f_equal; auto.
Qed.

Lemma mapM_completion_total {A B} (f : A -> completion B) (g : A -> B) l :
  (forall x, In x l -> f x = Normal (g x)) ->
  mapM_completion f l = Normal (map g l).
Proof.
  induction l as [|x l IH]; intros Hf; simpl; [done|].
  rewrite Hf by (left; done). simpl.
  rewrite IH by (intros; apply Hf; right; done). done.
Qed.

(** ** Laws of association lists *)

Section alist_laws.
Context {V : Type}.
Implicit Types (l : list (string * V)) (k : string) (v : V).

Lemma alookup_cons_eq k v l : alookup k ((k, v) :: l) = Some v.
Proof. simpl. by rewrite String.eqb_refl. Qed.

Lemma alookup_cons_ne k k' v l : k <> k' -> alookup k ((k', v) :: l) = alookup k l.
Proof. intros. simpl. by destruct (String.eqb_spec k k'). Qed.

Lemma alookup_None k l : alookup k l = None <-> ~ In k (akeys l).
Proof.
  induction l as [|[k' v'] l IH]; simpl; [tauto|].
  destruct (String.eqb_spec k k'); subst; [split; [discriminate | tauto]|].
  rewrite IH. intuition congruence.
Qed.

Lemma alookup_Some_In k v l : alookup k l = Some v -> In (k, v) l.
Proof.
  induction l as [|[k' v'] l IH]; simpl; [discriminate|].
  destruct (String.eqb_spec k k'); subst; [intros [= ->]; auto | auto].
Qed.

Lemma alookup_app k l1 l2 :
  alookup k (l1 ++ l2) =
  match alookup k l1 with Some v => Some v | None => alookup k l2 end.
Proof.
  induction l1 as [|[k' v'] l1 IH]; simpl; [done|].
  by destruct (String.eqb k k').
Qed.

Lemma In_alookup k v l : NoDup (akeys l) -> In (k, v) l -> alookup k l = Some v.
Proof.
  induction l as [|[k' v'] l IH]; simpl; [tauto|].
  intros Hnd [[= -> ->]|Hin]; [by rewrite String.eqb_refl|].
  apply NoDup_cons in Hnd as [Hk' Hnd].
  destruct (String.eqb_spec k k'); subst; [|auto].
  exfalso. apply Hk', list_elem_of_In, in_map_iff. by exists (k', v).
Qed.

Lemma akeys_areplace k v l : akeys (areplace k v l) = akeys l.
Proof.
  induction l as [|[k' v'] l IH]; simpl; [done|].
  destruct (String.eqb k k'); simpl; by rewrite ?IH.
Qed.

Lemma alookup_areplace_eq k v l :
  In k (akeys l) -> alookup k (areplace k v l) = Some v.
Proof.
  induction l as [|[k' v'] l IH]; simpl; [tauto|].
  destruct (String.eqb_spec k k') as [->|Hne]; simpl.
  - by rewrite String.eqb_refl.
  - intros [?|?]; [congruence|]. destruct (String.eqb_spec k k'); [congruence|auto].
Qed.

Lemma alookup_areplace_ne k k0 v l :
  k0 <> k -> alookup k0 (areplace k v l) = alookup k0 l.
Proof.
  intros Hne. induction l as [|[k' v'] l IH]; simpl; [done|].
  destruct (String.eqb_spec k k') as [->|]; simpl;
    destruct (String.eqb_spec k0 k'); congruence.
Qed.

Lemma ahas_true k l : ahas k l = true <-> In k (akeys l).
Proof.
  unfold ahas. destruct (alookup k l) eqn:E.
  - split; [intros _|done]. apply alookup_Some_In in E.
    unfold akeys. apply in_map_iff. by exists (k, v).
  - apply alookup_None in E. split; [discriminate | tauto].
Qed.

End alist_laws.

#[export] Hint Rewrite @alookup_cons_eq @akeys_areplace : js_rw.
#[export] Hint Resolve alookup_Some_In : js.

(** ** Laws of strings *)

Lemma string_app_nil_r (s : string) : s +:+ "" = s.
Proof. induction s; simpl; congruence. Qed.

Lemma string_app_assoc (s1 s2 s3 : string) : (s1 +:+ s2) +:+ s3 = s1 +:+ (s2 +:+ s3).
Proof. induction s1; simpl; congruence. Qed.

Lemma string_app_length (s1 s2 : string) :
  String.length (s1 +:+ s2) = (String.length s1 + String.length s2)%nat.
Proof. induction s1; simpl; congruence. Qed.

Lemma string_app_inv_head (s s1 s2 : string) : s +:+ s1 = s +:+ s2 -> s1 = s2.
Proof. induction s; simpl; [done|]. intros [= ?]; auto. Qed.

Lemma string_forallb_app p (s1 s2 : string) :
  string_forallb p (s1 +:+ s2) = string_forallb p s1 && string_forallb p s2.
Proof. induction s1; simpl; [done|]. by rewrite IHs1, andb_assoc. Qed.

Lemma is_digit_range (c : ascii) :
  is_digit c = true <-> 0 <= digit_value c <= 9.
Proof.
  unfold is_digit, digit_value.
  rewrite andb_true_iff, Nat.leb_le, Nat.leb_le. lia.
Qed.

#[export] Hint Rewrite string_app_nil_r string_app_assoc string_app_length : js_rw.

(** ** Decimal numerals *)

Lemma pretty_N_char_digit d :
  (d < 10)%N -> is_digit (pretty_N_char d) = true /\ digit_value (pretty_N_char d) = Z.of_N d.
Proof.
  intros Hd.
  assert (d = 0 \/ d = 1 \/ d = 2 \/ d = 3 \/ d = 4 \/ d = 5 \/ d = 6 \/ d = 7 \/ d = 8
          \/ d = 9)%N as Hc by lia.
  by repeat destruct Hc as [->|Hc]; subst.
Qed.

Lemma pretty_N_go_app x s t : pretty_N_go x s +:+ t = pretty_N_go x (s +:+ t).
Proof.
  revert s. induction (N.lt_wf_0 x) as [x _ IH]; intros s.
  destruct (decide (x = 0)%N) as [->|Hx]; [by rewrite !pretty_N_go_0|].
  rewrite (pretty_N_go_step x s), (pretty_N_go_step x (s +:+ t)) by lia.
  by rewrite IH by (apply N.div_lt; lia).
Qed.

(** A scanner that takes one decimal digit at a time reads the numeral of
    [x] as [x]. *)
Lemma pretty_N_go_scan {R} (g : string -> Z -> R) :
  (forall c s acc, is_digit c = true -> g (String c s) acc = g s (10 * acc + digit_value c)) ->
  forall x s, g (pretty_N_go x s) 0 = g s (Z.of_N x).
Proof.
  intros Hg x. induction (N.lt_wf_0 x) as [x _ IH]; intros s.
  destruct (decide (x = 0)%N) as [->|Hx]; [by rewrite pretty_N_go_0|].
  rewrite pretty_N_go_step by lia. rewrite IH by (apply N.div_lt; lia).
  destruct (pretty_N_char_digit (x `mod` 10)) as [Hd Hv]; [by apply N.mod_lt|].
  rewrite Hg, Hv by done. f_equal. rewrite N2Z.inj_mod.
  rewrite (N.div_mod x 10) at 3 by done. rewrite N2Z.inj_add, N2Z.inj_mul, N2Z.inj_div.
  rewrite N2Z.inj_mod. lia.
Qed.

(** The numeral of a positive number starts with a digit that is not 0. *)
Lemma pretty_N_go_head x s :
  (0 < x)%N ->
  exists c t, pretty_N_go x s = String c t /\ is_digit c = true /\ c <> "0"%char.
Proof.
  revert s. induction (N.lt_wf_0 x) as [x _ IH]; intros s Hx.
  rewrite pretty_N_go_step by done.
  destruct (decide (x `div` 10 = 0)%N) as [H0|H0].
  - rewrite H0, pretty_N_go_0. eexists _, _. split; [done|].
    assert (x < 10)%N as Hlt by (by apply N.div_small_iff in H0).
    rewrite N.mod_small by done. split; [by apply pretty_N_char_digit|].
    assert (x = 1 \/ x = 2 \/ x = 3 \/ x = 4 \/ x = 5 \/ x = 6 \/ x = 7 \/ x = 8 \/ x = 9)%N
      as Hc by lia.
    by repeat destruct Hc as [->|Hc]; subst.
  - apply IH; [apply N.div_lt; lia | by apply N.neq_0_lt_0].
Qed.

Lemma pretty_Z_nonneg n :
  0 <= n -> pretty n = if decide (n = 0) then "0" else pretty_N_go (Z.to_N n) "".
Proof.
  destruct n as [|p|p]; [done| |lia]. intros _.
  by rewrite decide_False by done.
Qed.

Lemma pretty_Z_neg p : pretty (Z.neg p) = String "-" (pretty (Z.pos p)).
Proof. unfold pretty at 1 2. unfold pretty_Z. reflexivity. Qed.
Lemma pretty_Z_neg_app p rest : pretty (Z.neg p) +:+ rest = String "-" (pretty (Z.pos p) +:+ rest).
Proof. by rewrite pretty_Z_neg. Qed.

(** Every character of a numeral is a digit. *)
Lemma pretty_N_go_forall (P : ascii -> bool) x s :
  (forall d, (d < 10)%N -> is_digit (pretty_N_char d) = true -> P (pretty_N_char d) = true) ->
  string_forallb P s = true -> string_forallb P (pretty_N_go x s) = true.
Proof.
  intros HP. revert s. induction (N.lt_wf_0 x) as [x _ IH]; intros s Hs.
  destruct (decide (x = 0)%N) as [->|Hx]; [by rewrite pretty_N_go_0|].
  rewrite pretty_N_go_step by lia. apply IH; [apply N.div_lt; lia|].
  simpl. rewrite Hs, HP; [done|by apply N.mod_lt|].
  by apply pretty_N_char_digit, N.mod_lt.
Qed.

(** ** Lists *)

(** What a filter keeps passes the test. *)
Lemma Forall_filter_true {A} (test : A -> bool) (l : list A) :
  Forall (fun x => test x = true) (List.filter test l).
Proof.
  induction l as [|x l IH]; simpl; [constructor|].
  destruct (test x) eqn:Hx; [by constructor|done].
Qed.
