(* ===== verification/JsValue.v ===== *)
(** * JavaScript values and the operations the server applies to them

    The values are those [JSON.parse] can return, plus [undefined], which the
    program meets whenever it reads a missing property.  An object is the list
    of its own properties in enumeration order.  Each operation is the
    ECMAScript abstract operation behind a construct of the source: [truthy]
    is ToBoolean ([!x], [x || y], [x && y], [x ? a : b]), [to_string] is
    ToString (template literals and computed property keys), [get_prop] is a
    property read [x.k], [get_opt] is [x?.k], [strict_eq_str] is [x === 'lit'],
    [obj_define] is CreateDataProperty as [JSON.parse] uses it. *)

From S2P Require Import Prelude.

(** ** Values *)

Unset Elimination Schemes.

Inductive value : Type :=
| VUndefined
| VNull
| VBool (b : bool)
| VNum (n : Z)
| VStr (s : string)
| VArr (xs : list value)
| VObj (props : list (string * value)).

Set Elimination Schemes.

Abbreviation props := (list (string * value)).

(** Object and array literals, written as in the source. *)
Notation "k ↦ v" := (@pair string value k%string v) (at level 60) : js_scope.
Notation "'{{' '}}'" := (VObj []) : js_scope.
Notation "'{{' x ; .. ; y '}}'" := (VObj (cons x%js .. (cons y%js nil) ..))
  (format "'{{'  '[v' x ;  '/' .. ;  '/' y ']'  '}}'") : js_scope.
Notation "$ s" := (VStr s%string) (at level 9, s at level 1, format "$ s") : js_scope.
Notation "# n" := (VNum n%Z) (at level 9, n at level 1, format "# n") : js_scope.

#[global] Open Scope js_scope.

(** ** Structural recursion helpers *)

Section value_rect.
Variable P : value -> Type.
Variable Pl : list value -> Type.
Variable Pp : props -> Type.
Hypothesis Hundef : P VUndefined.
Hypothesis Hnull : P VNull.
Hypothesis Hbool : forall b, P (VBool b).
Hypothesis Hnum : forall n, P (VNum n).
Hypothesis Hstr : forall s, P (VStr s).
Hypothesis Harr : forall xs, Pl xs -> P (VArr xs).
Hypothesis Hobj : forall ps, Pp ps -> P (VObj ps).
Hypothesis Hnil : Pl [].
Hypothesis Hcons : forall x xs, P x -> Pl xs -> Pl (x :: xs).
Hypothesis Hpnil : Pp [].
Hypothesis Hpcons : forall k x ps, P x -> Pp ps -> Pp ((k, x) :: ps).

Fixpoint value_rect3 (v : value) : P v :=
  match v with
  | VUndefined => Hundef
  | VNull => Hnull
  | VBool b => Hbool b
  | VNum n => Hnum n
  | VStr s => Hstr s
  | VArr xs =>
      Harr xs ((fix go (l : list value) : Pl l :=
                  match l with
                  | [] => Hnil
                  | x :: l' => Hcons x l' (value_rect3 x) (go l')
                  end) xs)
  | VObj ps =>
      Hobj ps ((fix go (l : props) : Pp l :=
                  match l with
                  | [] => Hpnil
                  | (k, x) :: l' => Hpcons k x l' (value_rect3 x) (go l')
                  end) ps)
  end.

End value_rect.

(** The induction principle used throughout: the hypotheses for arrays and
    objects quantify over the elements. *)
Lemma value_ind (P : value -> Prop) :
  P VUndefined -> P VNull -> (forall b, P (VBool b)) -> (forall n, P (VNum n)) ->
  (forall s, P (VStr s)) ->
  (forall xs, Forall P xs -> P (VArr xs)) ->
  (forall ps, Forall (fun kv => P (snd kv)) ps -> P (VObj ps)) ->
  forall v, P v.
Proof.
  intros. apply (value_rect3 P (Forall P) (Forall (fun kv => P (snd kv))));
    auto; intros; by constructor.
Qed.

(** ** Decidable equality *)

Fixpoint value_eqb (v w : value) : bool :=
  match v, w with
  | VUndefined, VUndefined => true
  | VNull, VNull => true
  | VBool a, VBool b => Bool.eqb a b
  | VNum a, VNum b => Z.eqb a b
  | VStr a, VStr b => String.eqb a b
  | VArr xs, VArr ys =>
      (fix go (l l' : list value) : bool :=
         match l, l' with
         | [], [] => true
         | x :: l, y :: l' => value_eqb x y && go l l'
         | _, _ => false
         end) xs ys
  | VObj ps, VObj qs =>
      (fix go (l l' : props) : bool :=
         match l, l' with
         | [], [] => true
         | (k, x) :: l, (k', y) :: l' => String.eqb k k' && value_eqb x y && go l l'
         | _, _ => false
         end) ps qs
  | _, _ => false
  end.

(** ** Size, for fuel bounds *)

Fixpoint value_size (v : value) : nat :=
  match v with
  | VArr xs => S (list_sum (map value_size xs))
  | VObj ps => S (list_sum (map (fun kv => value_size (snd kv)) ps))
  | _ => 1
  end.

(** ** typeof and ToBoolean *)

Definition typeof (v : value) : string :=
  match v with
  | VUndefined => "undefined"
  | VNull => "object"
  | VBool _ => "boolean"
  | VNum _ => "number"
  | VStr _ => "string"
  | VArr _ | VObj _ => "object"
  end.

Definition truthy (v : value) : bool :=
  match v with
  | VUndefined | VNull => false
  | VBool b => b
  | VNum n => negb (n =? 0)
  | VStr s => negb (String.eqb s "")
  | VArr _ | VObj _ => true
  end.

(** [x || y]. *)
Definition js_or (x y : value) : value := if truthy x then x else y.

(** [x && y]. *)
Definition js_and (x y : value) : value := if truthy x then y else x.

(** [x === 'lit'] and [x !== 'lit']. *)
Definition strict_eq_str (v : value) (lit : string) : bool :=
  match v with VStr s => String.eqb s lit | _ => false end.

(** ** ToString

    A number prints in decimal.  An array prints its elements joined by
    commas, [null] and [undefined] elements as the empty string.  A plain
    object prints as [[object Object]] through the inherited
    [Object.prototype.toString], unless it has an own [toString] property: a
    parsed value is never callable, the inherited [valueOf] returns the object
    itself, and OrdinaryToPrimitive throws. *)

Definition number_to_string (n : Z) : string := pretty n.

Definition to_primitive_error : string := "Cannot convert object to primitive value".

Fixpoint to_string (v : value) : completion string :=
  match v with
  | VUndefined => Normal "undefined"
  | VNull => Normal "null"
  | VBool true => Normal "true"
  | VBool false => Normal "false"
  | VNum n => Normal (number_to_string n)
  | VStr s => Normal s
  | VArr xs =>
      join "," <$>
        (fix go (l : list value) : completion (list string) :=
           match l with
           | [] => Normal []
           | x :: l' =>
               s ← match x with
                   | VUndefined | VNull => Normal ""
                   | _ => to_string x
                   end;
               ss ← go l'; Normal (s :: ss)
           end) xs
  | VObj ps =>
      if ahas "toString" ps then Throw to_primitive_error
      else Normal "[object Object]"
  end.

(** ** Property reads

    [get_prop v k] is [v.k] for a data key [k].  Reading a property of
    [undefined] or [null] throws a TypeError with V8's text.  An array has its
    elements and [length]; a string has its characters and [length]; numbers
    and booleans have no own properties.  Members inherited from the
    prototypes are functions and are not values of this model: every key the
    program reads through [get_prop] is a fixed identifier that no prototype
    defines ([data_key] below). *)

Definition read_error (base key : string) : string :=
  "Cannot read properties of " +:+ base +:+ " (reading '" +:+ key +:+ "')".

(** The canonical numeric string of an array index: no sign, no leading
    zero, below 2^32 - 1. *)
Fixpoint digits_value (s : string) (acc : Z) : option Z :=
  match s with
  | EmptyString => Some acc
  | String c s' =>
      if is_digit c then digits_value s' (10 * acc + digit_value c) else None
  end.

Definition index_of_key (k : string) : option Z :=
  match k with
  | EmptyString => None
  | String "0" EmptyString => Some 0
  | String "0" _ => None
  | _ =>
      if (String.length k <=? 10)%nat then
        match digits_value k 0 with
        | Some n => if n <? 4294967295 then Some n else None
        | None => None
        end
      else None
  end.

Definition array_get (xs : list value) (k : string) : value :=
  if String.eqb k "length" then VNum (Z.of_nat (length xs))
  else match index_of_key k with
       | Some n => nth (Z.to_nat n) xs VUndefined
       | None => VUndefined
       end.

Definition string_get (s : string) (k : string) : value :=
  if String.eqb k "length" then VNum (Z.of_nat (String.length s))
  else match index_of_key k with
       | Some n =>
           match String.get (Z.to_nat n) s with
           | Some c => VStr (String c EmptyString)
           | None => VUndefined
           end
       | None => VUndefined
       end.

Definition get_prop (v : value) (k : string) : completion value :=
  match v with
  | VUndefined => Throw (read_error "undefined" k)
  | VNull => Throw (read_error "null" k)
  | VBool _ | VNum _ => Normal VUndefined
  | VStr s => Normal (string_get s k)
  | VArr xs => Normal (array_get xs k)
  | VObj ps => Normal (default VUndefined (alookup k ps))
  end.

(** [undefined] and [null], the two values with no properties to read. *)
Definition nullish (v : value) : bool :=
  match v with VUndefined | VNull => true | _ => false end.

(** [v?.k]: [undefined] when [v] is [undefined] or [null]. *)
Definition get_opt (v : value) (k : string) : value :=
  match v with
  | VUndefined | VNull => VUndefined
  | _ => match get_prop v k with Normal x => x | _ => VUndefined end
  end.

(** The names every object inherits from [Object.prototype]. *)
Definition object_prototype_keys : list string :=
  [ "constructor"; "__defineGetter__"; "__defineSetter__"; "hasOwnProperty";
    "__lookupGetter__"; "__lookupSetter__"; "isPrototypeOf";
    "propertyIsEnumerable"; "toString"; "valueOf"; "__proto__";
    "toLocaleString" ].

(** The keys the program reads with [get_prop]. *)
Definition data_keys : list string :=
  [ "jsonrpc"; "id"; "method"; "params"; "protocolVersion"; "name";
    "parameters"; "region"; "filters"; "bucket"; "prefix"; "namespace";
    "metricName"; "dimensions"; "startTime"; "endTime"; "period";
    "statistics"; "description"; "properties"; "required";
    "Reservations"; "Instances"; "Buckets"; "Contents"; "KeyCount";
    "Functions"; "TableNames"; "Datapoints"; "Label" ].

(** ** Property definition in own-key order

    [obj_define k v ps] is CreateDataProperty on an ordinary object: an
    existing key keeps its place and takes the new value; a new array-index
    key goes among the index keys, which enumerate first in ascending order;
    any other new key goes last. *)

Fixpoint insert_index (n : Z) (k : string) (v : value) (ps : props) : props :=
  match ps with
  | [] => [(k, v)]
  | (k', v') :: ps' =>
      match index_of_key k' with
      | Some m => if m <? n then (k', v') :: insert_index n k v ps'
                  else (k, v) :: ps
      | None => (k, v) :: ps
      end
  end.

Definition obj_define (k : string) (v : value) (ps : props) : props :=
  if ahas k ps then areplace k v ps
  else match index_of_key k with
       | Some n => insert_index n k v ps
       | None => ps ++ [(k, v)]
       end.

(** ** Well-formed values: no object has two properties of the same name. *)

Fixpoint wf_value (v : value) : bool :=
  match v with
  | VArr xs => forallb wf_value xs
  | VObj ps =>
      bool_decide (NoDup (akeys ps)) && forallb (fun kv => wf_value (snd kv)) ps
  | _ => true
  end.

(** * Properties *)

(** ** Equality *)

Lemma value_eqb_eq (v w : value) : value_eqb v w = true <-> v = w.
Proof.
  revert w; induction v as [| |b|n|s|xs IH|ps IH] using value_ind;
    intros [| |b'|n'|s'|ys|qs];
    simpl; try (split; [discriminate | congruence]); try tauto.
  - rewrite Bool.eqb_true_iff. split; congruence.
  - rewrite Z.eqb_eq. split; congruence.
  - rewrite String.eqb_eq. split; congruence.
  - revert ys; induction IH as [|x xs Hx _ IHxs]; intros [|y ys];
      try (split; [discriminate | congruence]); [tauto|].
    rewrite andb_true_iff, Hx. specialize (IHxs ys).
    split; [intros [-> H]; apply IHxs in H | intros [= -> ->]; split; [|apply IHxs]];
      congruence.
  - revert qs; induction IH as [|[k x] ps Hx _ IHps]; intros [|[k' y] qs];
      try (split; [discriminate | congruence]); [tauto|].
    rewrite !andb_true_iff, String.eqb_eq. simpl in Hx. rewrite Hx.
    specialize (IHps qs).
    split; [intros [[-> ->] H]; apply IHps in H | intros [= -> -> ->]; repeat split;
      apply IHps]; congruence.
Qed.

#[export] Instance value_eq_dec : EqDecision value.
Proof.
  refine (fun v w => cast_if (decide (value_eqb v w = true)));
    abstract (by rewrite <- value_eqb_eq).
Defined.

(** ** Truthiness and comparison *)

Lemma js_or_truthy x y : truthy y = true -> truthy (js_or x y) = true.
Proof. unfold js_or. by destruct (truthy x) eqn:E. Qed.

Lemma strict_eq_str_spec v lit : strict_eq_str v lit = true <-> v = VStr lit.
Proof.
  destruct v; simpl; try (split; [discriminate | congruence]).
  rewrite String.eqb_eq. split; congruence.
Qed.

Lemma strict_eq_str_truthy v lit : lit <> "" -> strict_eq_str v lit = true -> truthy v = true.
Proof.
  intros Hne ->%strict_eq_str_spec. simpl.
  by destruct (String.eqb_spec lit "").
Qed.

(** ** Property reads *)

Lemma get_prop_obj ps k : get_prop (VObj ps) k = Normal (default VUndefined (alookup k ps)).
Proof. reflexivity. Qed.

Lemma get_prop_throws v k :
  is_normal (get_prop v k) = false <-> v = VUndefined \/ v = VNull.
Proof. destruct v; simpl; intuition congruence. Qed.

Lemma get_opt_get_prop v k x : get_prop v k = Normal x -> get_opt v k = x.
Proof. destruct v; simpl; congruence. Qed.

(** A read from anything but [undefined] and [null] returns, and [?.] reads
    the same value. *)
Lemma get_prop_not_nullish v k : nullish v = false -> get_prop v k = Normal (get_opt v k).
Proof. by destruct v. Qed.

Lemma get_prop_nullish v k :
  nullish v = true ->
  exists base, get_prop v k = Throw (read_error base k) /\ to_string v = Normal base.
Proof. destruct v; try discriminate; intros _; eexists; split; reflexivity. Qed.

Lemma get_opt_nullish v k : nullish v = true -> get_opt v k = VUndefined.
Proof. by destruct v. Qed.

Lemma truthy_not_nullish v : truthy v = true -> nullish v = false.
Proof. by destruct v. Qed.

Lemma js_or_not_nullish x y : truthy y = true -> nullish (js_or x y) = false.
Proof. intros. by apply truthy_not_nullish, js_or_truthy. Qed.

(** A data key is not inherited: reading it from an object that lacks it
    gives [undefined] in JavaScript as in the model. *)
Lemma data_keys_not_inherited :
  forall k, In k data_keys -> ~ In k object_prototype_keys.
Proof.
  apply List.Forall_forall. unfold data_keys, object_prototype_keys.
  repeat constructor; by_compute.
Qed.

(** ** Property definition *)

Lemma akeys_insert_index n k v ps :
  Permutation (akeys (insert_index n k v ps)) (k :: akeys ps).
Proof.
  induction ps as [|[k' v'] ps IH]; simpl; [done|].
  destruct (index_of_key k'); [destruct (_ <? _)|]; simpl; try done.
  rewrite IH. apply perm_swap.
Qed.

Lemma alookup_insert_index_eq n k v ps :
  alookup k ps = None -> alookup k (insert_index n k v ps) = Some v.
Proof.
  induction ps as [|[k' v'] ps IH]; simpl; [by rewrite String.eqb_refl|].
  destruct (String.eqb_spec k k'); [discriminate|]. intros Hk.
  destruct (index_of_key k'); [destruct (_ <? _)|]; simpl;
    rewrite ?String.eqb_refl; try done.
  destruct (String.eqb_spec k k'); [done | auto].
Qed.

Lemma alookup_insert_index_ne n k k0 v ps :
  k0 <> k -> alookup k0 (insert_index n k v ps) = alookup k0 ps.
Proof.
  intros Hne. induction ps as [|[k' v'] ps IH]; simpl.
  - by destruct (String.eqb_spec k0 k).
  - destruct (index_of_key k'); [destruct (_ <? _)|]; simpl;
      destruct (String.eqb_spec k0 k), (String.eqb_spec k0 k'); congruence.
Qed.

(** Insert then look up: the key holds the value just defined. *)
Lemma alookup_obj_define_eq k v ps : alookup k (obj_define k v ps) = Some v.
Proof.
  unfold obj_define. destruct (ahas k ps) eqn:E.
  - apply alookup_areplace_eq, ahas_true, E.
  - assert (alookup k ps = None) as Hn
      by (unfold ahas in E; destruct (alookup k ps); congruence).
    destruct (index_of_key k); [by apply alookup_insert_index_eq|].
    rewrite alookup_app, Hn. apply alookup_cons_eq.
Qed.

(** Defining one key leaves every other key as it was. *)
Lemma alookup_obj_define_ne k k0 v ps :
  k0 <> k -> alookup k0 (obj_define k v ps) = alookup k0 ps.
Proof.
  intros Hne. unfold obj_define. destruct (ahas k ps).
  - by apply alookup_areplace_ne.
  - destruct (index_of_key k); [by apply alookup_insert_index_ne|].
    rewrite alookup_app. destruct (alookup k0 ps); [done|].
    by rewrite alookup_cons_ne.
Qed.

(** Property names stay unique. *)
Lemma obj_define_NoDup k v ps : NoDup (akeys ps) -> NoDup (akeys (obj_define k v ps)).
Proof.
  intros Hnd. unfold obj_define. destruct (ahas k ps) eqn:E.
  - by rewrite akeys_areplace.
  - assert (k ∉ akeys ps) as Hk.
    { rewrite list_elem_of_In, <- ahas_true. congruence. }
    destruct (index_of_key k).
    + rewrite akeys_insert_index. by constructor.
    + unfold akeys. rewrite map_app. simpl.
      apply NoDup_app. repeat split; [done| |apply NoDup_singleton].
      intros x Hx ->%list_elem_of_singleton. contradiction.
Qed.

#[export] Hint Rewrite alookup_obj_define_eq : js_rw.
#[export] Hint Resolve obj_define_NoDup : js.

(** Defining a property and reading it back gives the value defined,
    whatever the object held before (insert then look up). *)
Theorem obj_define_lookup k v ps :
  get_prop (VObj (obj_define k v ps)) k = Normal v.
Proof. by rewrite get_prop_obj, alookup_obj_define_eq. Qed.
