(* ===== verification/JsonText.v ===== *)
(** * JSON text: [JSON.stringify] and [JSON.parse]

    Every line the server writes is [JSON.stringify] of an object, and every
    line it reads goes through [JSON.parse] first (src/mcp-server-aws.js lines
    689, 775, 789, 795).  [JSON_stringify] follows SerializeJSONProperty of
    ECMAScript with no replacer and no indentation; [JSON_parse] is a
    recursive-descent parser of the JSON grammar of ECMA-404.

    The parser is indexed by fuel.  A value nested in an array or an object
    costs two units (one for the list of elements or members, one for the
    value) and takes at least one character, so [JSON_parse] runs the parser
    with two units of fuel per character and one to start;
    [JSON_parse_fuel_enough] shows this never runs out.  It reports
    [OutOfModel] where the text denotes a value the model does not hold: a
    number with a fraction or an exponent or beyond 2^53 - 1 in magnitude,
    or a [\u] escape above [\u007f]. *)

From S2P Require Import Prelude JsValue.

(** ** Serialization *)

Definition hex_digit (n : nat) : ascii :=
  ascii_of_nat (if (n <? 10)%nat then 48 + n else 87 + n).

(** QuoteJSONString, one character. *)
Definition quote_char (c : ascii) : string :=
  let n := nat_of_ascii c in
  if (n =? 34)%nat then String "\" (String "034" "")
  else if (n =? 92)%nat then "\\"
  else if (n =? 8)%nat then "\b"
  else if (n =? 9)%nat then "\t"
  else if (n =? 10)%nat then "\n"
  else if (n =? 12)%nat then "\f"
  else if (n =? 13)%nat then "\r"
  else if (n <? 32)%nat then
    "\u00" +:+ String (hex_digit (n / 16)) (String (hex_digit (n mod 16)) "")
  else String c "".

Fixpoint quote_chars (s : string) : string :=
  match s with
  | EmptyString => ""
  | String c s' => quote_char c +:+ quote_chars s'
  end.

Definition quote (s : string) : string :=
  String "034" (quote_chars s +:+ String "034" "").

(** SerializeJSONProperty: [None] is the [undefined] result that makes the
    caller leave a property out or print [null] in an array. *)
Fixpoint serialize (v : value) : option string :=
  match v with
  | VUndefined => None
  | VNull => Some "null"
  | VBool true => Some "true"
  | VBool false => Some "false"
  | VNum n => Some (number_to_string n)
  | VStr s => Some (quote s)
  | VArr xs =>
      Some ("[" +:+
            join "," ((fix go (l : list value) : list string :=
                         match l with
                         | [] => []
                         | x :: l' => default "null" (serialize x) :: go l'
                         end) xs)
            +:+ "]")
  | VObj ps =>
      Some ("{" +:+
            join "," ((fix go (l : props) : list string :=
                         match l with
                         | [] => []
                         | (k, x) :: l' =>
                             match serialize x with
                             | Some t => (quote k +:+ ":" +:+ t) :: go l'
                             | None => go l'
                             end
                         end) ps)
            +:+ "}")
  end.

(** [JSON.stringify(v)] as the program uses it: inside a template literal
    or as the argument of [console.log], where an [undefined] result prints
    as the word. *)
Definition JSON_stringify (v : value) : string := default "undefined" (serialize v).

(** ** Parsing *)

Inductive presult (A : Type) : Type :=
| POk (a : A) (rest : string)
| PSyntax
| PUnsupported
| PFuel.

Arguments POk {A} a rest.
Arguments PSyntax {A}.
Arguments PUnsupported {A}.
Arguments PFuel {A}.

Definition pbind {A B} (r : presult A) (f : A -> string -> presult B) : presult B :=
  match r with
  | POk a rest => f a rest
  | PSyntax => PSyntax
  | PUnsupported => PUnsupported
  | PFuel => PFuel
  end.

Notation "'let!' x r ':=' p 'in' k" := (pbind p (fun x r => k))
  (at level 10, x name, r name, p at level 100, k at level 200,
   only parsing) : js_scope.

Definition is_ws (c : ascii) : bool :=
  let n := nat_of_ascii c in
  (n =? 32)%nat || (n =? 9)%nat || (n =? 10)%nat || (n =? 13)%nat.

Fixpoint skip_ws (s : string) : string :=
  match s with
  | String c s' => if is_ws c then skip_ws s' else s
  | EmptyString => s
  end.

(** [expect lit s] consumes the literal [lit] at the head of [s]. *)
Fixpoint expect (lit s : string) : option string :=
  match lit, s with
  | EmptyString, _ => Some s
  | String a lit', String b s' => if Ascii.eqb a b then expect lit' s' else None
  | String _ _, EmptyString => None
  end.

Definition hex_value (c : ascii) : option Z :=
  let n := nat_of_ascii c in
  if is_digit c then Some (Z.of_nat n - 48)
  else if (97 <=? n)%nat && (n <=? 102)%nat then Some (Z.of_nat n - 87)
  else if (65 <=? n)%nat && (n <=? 70)%nat then Some (Z.of_nat n - 55)
  else None.

(** Four hexadecimal digits after [\u]. *)
Definition parse_hex4 (s : string) : presult Z :=
  match s with
  | String a (String b (String c (String d rest))) =>
      match hex_value a, hex_value b, hex_value c, hex_value d with
      | Some x, Some y, Some z, Some w => POk (((x * 16 + y) * 16 + z) * 16 + w) rest
      | _, _, _, _ => PSyntax
      end
  | _ => PSyntax
  end.

(** The characters of a string literal after its opening quote, up to and
    including the closing quote.  Structural in the text. *)
Fixpoint parse_chars (s : string) : presult string :=
  match s with
  | EmptyString => PSyntax
  | String c s' =>
      let n := nat_of_ascii c in
      if (n =? 34)%nat then POk "" s'
      else if (n =? 92)%nat then
        match s' with
        | String e s'' =>
            let one (c : ascii) :=
              let! t r := parse_chars s'' in POk (String c t) r in
            let m := nat_of_ascii e in
            if (m =? 34)%nat then one "034"%char
            else if (m =? 92)%nat then one "\"%char
            else if (m =? 47)%nat then one "/"%char
            else if (m =? 98)%nat then one (ascii_of_nat 8)
            else if (m =? 102)%nat then one (ascii_of_nat 12)
            else if (m =? 110)%nat then one (ascii_of_nat 10)
            else if (m =? 114)%nat then one (ascii_of_nat 13)
            else if (m =? 116)%nat then one (ascii_of_nat 9)
            else if (m =? 117)%nat then
              match s'' with
              | String a (String b (String c (String d s3))) =>
                  match hex_value a, hex_value b, hex_value c, hex_value d with
                  | Some x, Some y, Some z, Some w =>
                      let u := ((x * 16 + y) * 16 + z) * 16 + w in
                      if u <? 128 then
                        let! t r := parse_chars s3 in
                        POk (String (ascii_of_nat (Z.to_nat u)) t) r
                      else PUnsupported
                  | _, _, _, _ => PSyntax
                  end
              | _ => PSyntax
              end
            else PSyntax
        | EmptyString => PSyntax
        end
      else if (n <? 32)%nat then PSyntax
      else let! t r := parse_chars s' in POk (String c t) r
  end.

(** The digits at the head of the text, as a number, with what follows. *)
Fixpoint parse_digits (s : string) (acc : Z) : Z * string :=
  match s with
  | String c s' =>
      if is_digit c then parse_digits s' (10 * acc + digit_value c) else (acc, s)
  | EmptyString => (acc, s)
  end.

Definition max_safe_integer : Z := 9007199254740991.

(** A number literal whose first character (after an optional minus sign)
    is known to be a digit. *)
Definition parse_number (neg : bool) (s : string) : presult value :=
  match s with
  | String c s' =>
      if is_digit c then
        let '(n, rest) :=
          if Ascii.eqb c "0" then (0, s') else parse_digits s 0 in
        match rest with
        | String d _ =>
            let m := nat_of_ascii d in
            if (m =? 46)%nat || (m =? 101)%nat || (m =? 69)%nat then PUnsupported
            else if n <=? max_safe_integer
                 then POk (VNum (if neg then - n else n)) rest
                 else PUnsupported
        | EmptyString =>
            if n <=? max_safe_integer
            then POk (VNum (if neg then - n else n)) rest
            else PUnsupported
        end
      else PSyntax
  | EmptyString => PSyntax
  end.

(** Values, array elements and object members.  Each is written as a step
    over the parsers it calls; [elements] and [members] start after the
    opening bracket, once a first look-ahead has excluded the empty array or
    object. *)
Definition value_step (elements : string -> list value -> presult value)
    (members : string -> props -> presult value) (s : string) : presult value :=
  match skip_ws s with
  | EmptyString => PSyntax
  | String c s' =>
      let n := nat_of_ascii c in
      if (n =? 123)%nat then
        match skip_ws s' with
        | String "}" r => POk (VObj []) r
        | _ => members s' []
        end
      else if (n =? 91)%nat then
        match skip_ws s' with
        | String "]" r => POk (VArr []) r
        | _ => elements s' []
        end
      else if (n =? 34)%nat then
        let! t r := parse_chars s' in POk (VStr t) r
      else if (n =? 45)%nat then parse_number true s'
      else if is_digit c then parse_number false (String c s')
      else if (n =? 116)%nat then
        match expect "rue" s' with Some r => POk (VBool true) r | None => PSyntax end
      else if (n =? 102)%nat then
        match expect "alse" s' with Some r => POk (VBool false) r | None => PSyntax end
      else if (n =? 110)%nat then
        match expect "ull" s' with Some r => POk VNull r | None => PSyntax end
      else PSyntax
  end.

Definition elements_step (element : string -> presult value)
    (elements : string -> list value -> presult value)
    (s : string) (acc : list value) : presult value :=
  let! v r := element s in
  match skip_ws r with
  | String "," r' => elements r' (v :: acc)
  | String "]" r' => POk (VArr (rev (v :: acc))) r'
  | _ => PSyntax
  end.

Definition members_step (member : string -> presult value)
    (members : string -> props -> presult value)
    (s : string) (acc : props) : presult value :=
  match skip_ws s with
  | String "034" s1 =>
      let! k r1 := parse_chars s1 in
      match skip_ws r1 with
      | String ":" r2 =>
          let! v r3 := member r2 in
          match skip_ws r3 with
          | String "," r4 => members r4 (obj_define k v acc)
          | String "}" r4 => POk (VObj (obj_define k v acc)) r4
          | _ => PSyntax
          end
      | _ => PSyntax
      end
  | _ => PSyntax
  end.

Fixpoint parse_value (fuel : nat) (s : string) : presult value :=
  match fuel with
  | O => PFuel
  | S fuel' => value_step (parse_elements fuel') (parse_members fuel') s
  end
with parse_elements (fuel : nat) (s : string) (acc : list value) : presult value :=
  match fuel with
  | O => PFuel
  | S fuel' => elements_step (parse_value fuel') (parse_elements fuel') s acc
  end
with parse_members (fuel : nat) (s : string) (acc : props) : presult value :=
  match fuel with
  | O => PFuel
  | S fuel' => members_step (parse_value fuel') (parse_members fuel') s acc
  end.

(** The outcome of [JSON.parse(line)]: a value, a SyntaxError, or a text
    outside the model. *)
Inductive parse_outcome : Type :=
| Parsed (v : value)
| SyntaxError
| OutOfModel.

Definition JSON_parse (line : string) : parse_outcome :=
  match parse_value (S (2 * String.length line)) line with
  | POk v rest =>
      match skip_ws rest with
      | EmptyString => Parsed v
      | String _ _ => SyntaxError
      end
  | PSyntax => SyntaxError
  | PUnsupported | PFuel => OutOfModel
  end.


(** [sq s] is [s] with every apostrophe replaced by a double quote: JSON
    text for the examples, written without doubling quotes. *)
Fixpoint sq (s : string) : string :=
  match s with
  | EmptyString => EmptyString
  | String c s' => String (if Ascii.eqb c "'" then "034"%char else c) (sq s')
  end.

(** * Properties *)

Abbreviation len := String.length.

(** ** The serializer, unfolded *)

Lemma serialize_array xs :
  serialize (VArr xs) =
  Some ("[" +:+ join "," (map (fun x => default "null" (serialize x)) xs) +:+ "]").
Proof. reflexivity. Qed.

(** The text of a member, if its value has one. *)
Definition member_entry (kv : string * value) : option string :=
  (fun t => quote kv.1 +:+ ":" +:+ t) <$> serialize kv.2.

Lemma serialize_object ps :
  serialize (VObj ps) = Some ("{" +:+ join "," (omap member_entry ps) +:+ "}").
Proof.
  simpl. do 4 f_equal.
  induction ps as [|[k x] ps IH]; [done|]. simpl. unfold member_entry at 1. simpl.
  destruct (serialize x); simpl; [f_equal|]; apply IH.
Qed.

(** ** One line

    The protocol is one message per line, so the text of a message must hold
    no line feed. *)

Definition one_line (s : string) : bool :=
  string_forallb (fun c => negb (Ascii.eqb c "010")) s.

Lemma one_line_app s t : one_line (s +:+ t) = one_line s && one_line t.
Proof. apply string_forallb_app. Qed.

Lemma one_line_cons c s :
  one_line (String c s) = negb (Ascii.eqb c "010") && one_line s.
Proof. reflexivity. Qed.

Lemma quote_chars_one_line s : one_line (quote_chars s) = true.
Proof.
  induction s as [|c s IH]; [done|]. simpl quote_chars. rewrite one_line_app, IH.
  by destruct c as [[] [] [] [] [] [] [] []].
Qed.

Lemma quote_one_line s : one_line (quote s) = true.
Proof.
  unfold quote, one_line. cbn [string_forallb]. rewrite string_forallb_app.
  fold (one_line (quote_chars s)). by rewrite quote_chars_one_line.
Qed.

Lemma is_digit_one_line c : is_digit c = true -> negb (Ascii.eqb c "010") = true.
Proof. by destruct c as [[] [] [] [] [] [] [] []]. Qed.

Lemma number_one_line n : one_line (number_to_string n) = true.
Proof.
  assert (forall x s, one_line s = true -> one_line (pretty_N_go x s) = true) as Hgo.
  { intros x s. apply pretty_N_go_forall. intros d _. apply is_digit_one_line. }
  unfold number_to_string. destruct n as [|p|p]; [done|by apply Hgo|].
  rewrite pretty_Z_neg. by apply Hgo.
Qed.

Lemma join_one_line l :
  Forall (fun t => one_line t = true) l -> one_line (join "," l) = true.
Proof.
  induction 1 as [|t l Ht _ IH]; [done|]. destruct l as [|u l]; [done|].
  change (join "," (t :: u :: l)) with (t +:+ "," +:+ join "," (u :: l)).
  by rewrite !one_line_app, Ht, IH.
Qed.

Lemma serialize_one_line v t : serialize v = Some t -> one_line t = true.
Proof.
  revert t. induction v as [| |[]|n|s|xs IH|ps IH] using value_ind; intros t Ht;
    try (by simplify_eq/=).
  - injection Ht as <-. apply number_one_line.
  - injection Ht as <-. apply quote_one_line.
  - rewrite serialize_array in Ht. injection Ht as <-.
    rewrite one_line_cons, one_line_app, join_one_line; [done|].
    apply Forall_map. eapply Forall_impl; [exact IH|]. intros x Hx. simpl.
    destruct (serialize x) as [u|] eqn:E; [exact (Hx u E)|done].
  - rewrite serialize_object in Ht. injection Ht as <-.
    rewrite one_line_cons, one_line_app, join_one_line; [done|].
    apply Forall_forall. intros u [[k x] [Hin Hu]]%list_elem_of_omap.
    unfold member_entry in Hu. cbn [fst snd] in Hu.
    destruct (serialize x) as [w|] eqn:Hw; simplify_eq/=.
    rewrite Forall_forall in IH. specialize (IH _ Hin _ Hw). cbn [snd] in IH.
    repeat (rewrite one_line_cons || rewrite one_line_app).
    by rewrite quote_chars_one_line, IH.
Qed.

(** The text [JSON.stringify] gives holds no line feed, whatever the value:
    a line feed inside a string is written as an escape. *)
Lemma stringify_one_line v : one_line (JSON_stringify v) = true.
Proof.
  unfold JSON_stringify. destruct (serialize v) as [t|] eqn:Ht; [|done].
  by apply (serialize_one_line v).
Qed.

(** ** The parser consumes what it accepts *)

Lemma skip_ws_length s : (len (skip_ws s) <= len s)%nat.
Proof. induction s as [|c s IH]; simpl; [lia|]. destruct (is_ws c); simpl; lia. Qed.

Lemma skip_ws_shorter s t : skip_ws s = t -> (len t <= len s)%nat.
Proof. intros <-. apply skip_ws_length. Qed.

Lemma expect_length lit s r : expect lit s = Some r -> (len r <= len s)%nat.
Proof.
  revert s. induction lit as [|a lit IH]; intros [|b s] H; simpl in H; simplify_eq; try lia.
  destruct (Ascii.eqb a b); [|done]. apply IH in H. simpl. lia.
Qed.

Lemma pbind_ok {A B} (p : presult A) (f : A -> string -> presult B) b r :
  pbind p f = POk b r -> exists a r', p = POk a r' /\ f a r' = POk b r.
Proof. destruct p; simpl; intros; simplify_eq; eauto. Qed.

Lemma pbind_fuel {A B} (p : presult A) (f : A -> string -> presult B) :
  pbind p f = PFuel -> p = PFuel \/ exists a r, p = POk a r /\ f a r = PFuel.
Proof. destruct p; simpl; intros; simplify_eq; eauto. Qed.

Ltac pbind_inv :=
  match goal with
  | H : pbind _ _ = POk _ _ |- _ => apply pbind_ok in H as (? & ? & ? & H); cbv beta in H
  | H : pbind _ _ = PFuel |- _ =>
      apply pbind_fuel in H as [H|(? & ? & ? & H)]; cbv beta in H
  end.

(** Splits on every test the parser makes on the way to the result at hand. *)
Ltac parser_cases := repeat (first [case_match | pbind_inv]; simplify_eq).

#[local] Arguments Nat.eqb : simpl never.
#[local] Arguments Nat.ltb : simpl never.
#[local] Arguments nat_of_ascii : simpl never.
#[local] Arguments ascii_of_nat : simpl never.
#[local] Arguments hex_value : simpl never.
#[local] Arguments Z.ltb : simpl never.
#[local] Arguments Z.mul : simpl never.
#[local] Arguments Z.add : simpl never.

Lemma parse_chars_length_aux n s t r :
  (len s <= n)%nat -> parse_chars s = POk t r -> (len r < len s)%nat.
Proof.
  revert s t r. induction n as [|n IH]; intros [|c s] t r Hn H; simpl in *;
    try done; try lia.
  parser_cases; simpl in *; try lia;
    match goal with
    | H : parse_chars ?s' = POk _ _ |- _ => apply IH in H; simpl in *; lia
    end.
Qed.

Lemma parse_chars_length s t r : parse_chars s = POk t r -> (len r < len s)%nat.
Proof. by apply parse_chars_length_aux with (n := len s). Qed.

Lemma parse_chars_fuel_aux n s : (len s <= n)%nat -> parse_chars s <> PFuel.
Proof.
  revert s. induction n as [|n IH]; intros [|c s] Hn H; simpl in *; try done; try lia.
  parser_cases;
    match goal with
    | H : parse_chars ?s' = PFuel |- _ =>
        apply IH in H; [done|]; repeat (simpl in *; simplify_eq); lia
    end.
Qed.

Lemma parse_chars_fuel s : parse_chars s <> PFuel.
Proof. by apply parse_chars_fuel_aux with (n := len s). Qed.

Lemma parse_digits_length s acc : (len (parse_digits s acc).2 <= len s)%nat.
Proof.
  revert acc. induction s as [|c s IH]; intros acc; simpl; [lia|].
  destruct (is_digit c); simpl; [|lia]. specialize (IH (10 * acc + digit_value c)). lia.
Qed.

Lemma parse_number_length neg s v r : parse_number neg s = POk v r -> (len r < len s)%nat.
Proof.
  unfold parse_number. destruct s as [|c s]; [done|].
  destruct (is_digit c) eqn:Hc; [|done].
  destruct (if Ascii.eqb c "0" then _ else _) as [n rest] eqn:Hd.
  assert (len rest <= len s)%nat as Hl.
  { destruct (Ascii.eqb c "0"); simplify_eq; [done|].
    simpl in Hd. rewrite Hc in Hd.
    pose proof (parse_digits_length s (10 * 0 + digit_value c)). by rewrite Hd in H. }
  intros H. parser_cases; simpl in *; lia.
Qed.

Lemma parse_number_fuel neg s : parse_number neg s <> PFuel.
Proof. unfold parse_number. by repeat case_match. Qed.

#[local] Arguments parse_chars : simpl never.
#[local] Arguments parse_number : simpl never.
#[local] Arguments expect : simpl never.
#[local] Arguments skip_ws : simpl never.
#[local] Arguments obj_define : simpl never.
#[local] Arguments is_digit : simpl never.

(** A parser shrinks its input when what it leaves is shorter than what it
    was given. *)
Definition shrinks (p : string -> presult value) : Prop :=
  forall s v r, p s = POk v r -> (len r < len s)%nat.

(** Turns what is known of the scanners into facts about lengths. *)
Ltac shrink_facts :=
  repeat match goal with
  | H : skip_ws _ = _ |- _ => apply skip_ws_shorter in H
  | H : parse_chars _ = POk _ _ |- _ => apply parse_chars_length in H
  | H : parse_number _ _ = POk _ _ |- _ => apply parse_number_length in H
  | H : expect _ _ = Some _ |- _ => apply expect_length in H
  | H : parse_chars _ = PFuel |- _ => by apply parse_chars_fuel in H
  | H : parse_number _ _ = PFuel |- _ => by apply parse_number_fuel in H
  end; simpl in *.

Section steps.
Context (value_p : string -> presult value).
Context (elements : string -> list value -> presult value).
Context (members : string -> props -> presult value).

Lemma value_step_shrinks :
  (forall acc, shrinks (fun s => elements s acc)) ->
  (forall acc, shrinks (fun s => members s acc)) ->
  shrinks (value_step elements members).
Proof.
  intros He Hm s v r H. unfold value_step in H. parser_cases;
    try match goal with
    | H : elements _ _ = POk _ _ |- _ => apply He in H
    | H : members _ _ = POk _ _ |- _ => apply Hm in H
    end; shrink_facts; lia.
Qed.

Lemma elements_step_shrinks acc :
  shrinks value_p -> (forall acc, shrinks (fun s => elements s acc)) ->
  shrinks (fun s => elements_step value_p elements s acc).
Proof.
  intros Hv He s v r H. unfold elements_step in H. parser_cases;
    repeat match goal with
    | H : value_p _ = POk _ _ |- _ => apply Hv in H
    | H : elements _ _ = POk _ _ |- _ => apply He in H
    end; shrink_facts; lia.
Qed.

Lemma members_step_shrinks acc :
  shrinks value_p -> (forall acc, shrinks (fun s => members s acc)) ->
  shrinks (fun s => members_step value_p members s acc).
Proof.
  intros Hv Hm s v r H. unfold members_step in H. parser_cases;
    repeat match goal with
    | H : value_p _ = POk _ _ |- _ => apply Hv in H
    | H : members _ _ = POk _ _ |- _ => apply Hm in H
    end; shrink_facts; lia.
Qed.

(** A step runs out of fuel only if a parser it calls does, and it calls
    them on shorter text. *)
Lemma value_step_fuel s :
  (forall s' acc, (len s' < len s)%nat -> elements s' acc <> PFuel) ->
  (forall s' acc, (len s' < len s)%nat -> members s' acc <> PFuel) ->
  value_step elements members s <> PFuel.
Proof.
  intros He Hm H. unfold value_step in H. parser_cases;
    try match goal with
    | H : elements _ _ = PFuel |- _ => apply He in H; [done|]
    | H : members _ _ = PFuel |- _ => apply Hm in H; [done|]
    end; shrink_facts; lia.
Qed.

Lemma elements_step_fuel s acc :
  shrinks value_p -> value_p s <> PFuel ->
  (forall s' acc, (len s' + 2 <= len s)%nat -> elements s' acc <> PFuel) ->
  elements_step value_p elements s acc <> PFuel.
Proof.
  intros Sv Hv He H. unfold elements_step in H. parser_cases;
    repeat match goal with
    | H : value_p _ = POk _ _ |- _ => apply Sv in H
    | H : elements _ _ = PFuel |- _ => apply He in H; [done|]
    end; shrink_facts; lia.
Qed.

Lemma members_step_fuel s acc :
  shrinks value_p ->
  (forall s', (len s' + 2 <= len s)%nat -> value_p s' <> PFuel) ->
  (forall s' acc, (len s' + 2 <= len s)%nat -> members s' acc <> PFuel) ->
  members_step value_p members s acc <> PFuel.
Proof.
  intros Sv Hv Hm H. unfold members_step in H. parser_cases;
    repeat match goal with
    | H : value_p _ = POk _ _ |- _ => apply Sv in H
    | H : value_p _ = PFuel |- _ => apply Hv in H; [done|]
    | H : members _ _ = PFuel |- _ => apply Hm in H; [done|]
    end; shrink_facts; lia.
Qed.

End steps.

Lemma parse_shrinks fuel :
  shrinks (parse_value fuel) /\
  (forall acc, shrinks (fun s => parse_elements fuel s acc)) /\
  (forall acc, shrinks (fun s => parse_members fuel s acc)).
Proof.
  induction fuel as [|fuel (IHv & IHe & IHm)]; [by repeat split; intros ? **|].
  repeat split; intros; simpl;
    auto using value_step_shrinks, elements_step_shrinks, members_step_shrinks.
Qed.

(** ** The fuel is enough *)

Lemma parse_fuel_enough fuel :
  (forall s, (2 * len s < fuel)%nat -> parse_value fuel s <> PFuel) /\
  (forall s acc, (2 * len s + 1 < fuel)%nat -> parse_elements fuel s acc <> PFuel) /\
  (forall s acc, (2 * len s + 1 < fuel)%nat -> parse_members fuel s acc <> PFuel).
Proof.
  induction fuel as [|fuel (IHv & IHe & IHm)]; [repeat split; intros; lia|].
  pose proof (parse_shrinks fuel) as (Sv & _ & _).
  repeat split; intros; simpl.
  - apply value_step_fuel; intros; [apply IHe | apply IHm]; lia.
  - apply elements_step_fuel; [done| |intros]; [apply IHv | apply IHe]; lia.
  - apply members_step_fuel; [done|intros..]; [apply IHv | apply IHm]; lia.
Qed.

(** C32: [JSON_parse] never stops for lack of fuel: two units per character
    of the line and one to start are enough for every line, so what it
    reports outside the model is outside the model. *)
Theorem JSON_parse_fuel_enough line :
  parse_value (S (2 * len line)) line <> PFuel /\
  (JSON_parse line = OutOfModel <->
   parse_value (S (2 * len line)) line = PUnsupported).
Proof.
  assert (parse_value (S (2 * len line)) line <> PFuel) as Hf
    by (apply parse_fuel_enough; lia).
  split; [done|]. unfold JSON_parse.
  destruct (parse_value _ line) as [v rest| | |]; [|done..].
  by destruct (skip_ws rest).
Qed.

(** ** More fuel changes nothing *)

(** [r1] is [r2] or has run out of fuel. *)
Definition settles_to {A} (r1 r2 : presult A) : Prop := r1 = PFuel \/ r1 = r2.

Lemma settles_to_refl {A} (r : presult A) : settles_to r r.
Proof. by right. Qed.

Lemma settles_to_pbind {A B} (p p' : presult A) (f f' : A -> string -> presult B) :
  settles_to p p' -> (forall a r, settles_to (f a r) (f' a r)) ->
  settles_to (pbind p f) (pbind p' f').
Proof. intros [->| ->] Hf; [by left|]. destruct p'; simpl; auto using settles_to_refl. Qed.

Section steps_mono.
Context (value_p value_p' : string -> presult value).
Context (elements elements' : string -> list value -> presult value).
Context (members members' : string -> props -> presult value).
Hypothesis Hv : forall s, settles_to (value_p s) (value_p' s).
Hypothesis He : forall s acc, settles_to (elements s acc) (elements' s acc).
Hypothesis Hm : forall s acc, settles_to (members s acc) (members' s acc).

Lemma value_step_mono s :
  settles_to (value_step elements members s) (value_step elements' members' s).
Proof. unfold value_step. repeat case_match; auto using settles_to_refl. Qed.

Lemma elements_step_mono s acc :
  settles_to (elements_step value_p elements s acc)
    (elements_step value_p' elements' s acc).
Proof.
  unfold elements_step. apply settles_to_pbind; [done|]. intros.
  repeat case_match; auto using settles_to_refl.
Qed.

Lemma members_step_mono s acc :
  settles_to (members_step value_p members s acc)
    (members_step value_p' members' s acc).
Proof.
  unfold members_step. repeat case_match; auto using settles_to_refl.
  apply settles_to_pbind; [apply settles_to_refl|]. intros.
  repeat case_match; auto using settles_to_refl.
  apply settles_to_pbind; [done|]. intros.
  repeat case_match; auto using settles_to_refl.
Qed.

End steps_mono.

Lemma parse_fuel_mono fuel :
  (forall s, settles_to (parse_value fuel s) (parse_value (S fuel) s)) /\
  (forall s acc, settles_to (parse_elements fuel s acc) (parse_elements (S fuel) s acc)) /\
  (forall s acc, settles_to (parse_members fuel s acc) (parse_members (S fuel) s acc)).
Proof.
  induction fuel as [|fuel (IHv & IHe & IHm)]; [by repeat split; left|].
  repeat split; intros.
  - by apply value_step_mono.
  - by apply elements_step_mono.
  - by apply members_step_mono.
Qed.

Lemma parse_value_more_fuel fuel extra s :
  parse_value fuel s <> PFuel -> parse_value (extra + fuel) s = parse_value fuel s.
Proof.
  intros Hf. induction extra as [|extra IH]; [done|]. simpl plus.
  destruct (proj1 (parse_fuel_mono (extra + fuel)) s) as [H|H]; congruence.
Qed.

(** The result of the parser does not depend on the fuel it is given,
    from the amount [JSON_parse] gives it on. *)
Theorem parse_value_fuel_irrelevant fuel line :
  (2 * len line < fuel)%nat ->
  parse_value fuel line = parse_value (S (2 * len line)) line.
Proof.
  intros Hf. replace fuel with ((fuel - S (2 * len line)) + S (2 * len line))%nat by lia.
  apply parse_value_more_fuel, parse_fuel_enough. lia.
Qed.

Lemma parse_value_fuel_irrelevant_witness :
  parse_value 100 "[1,[2]]" = parse_value (S (2 * len "[1,[2]]")) "[1,[2]]".
Proof. apply (parse_value_fuel_irrelevant 100 "[1,[2]]"). simpl. lia. Defined.
