(* ===== verification/JsonParsed.v ===== *)
(** * What JSON.parse returns

    The value [JSON.parse] returns for a line (src/mcp-server-aws.js line
    689) is JSON data: it holds no [undefined], every number in it is an
    integer the model represents exactly, and no object in it has two
    properties of the same name.  The dispatcher reads members of this value
    and nothing else, so these are the values the theorems about requests
    range over.

    The proof goes through the three steps of the parser with one lemma
    each, stated for any parsers the step may call. *)

From S2P Require Import Prelude JsValue JsonText.

(** JSON data. *)
Fixpoint json_data (v : value) : bool :=
  match v with
  | VUndefined => false
  | VNull | VBool _ | VStr _ => true
  | VNum n => Z.abs n <=? max_safe_integer
  | VArr xs => forallb json_data xs
  | VObj ps =>
      bool_decide (NoDup (akeys ps)) && forallb (fun kv => json_data (snd kv)) ps
  end.

(** * Properties *)

#[local] Arguments parse_chars : simpl never.
#[local] Arguments parse_number : simpl never.
#[local] Arguments expect : simpl never.
#[local] Arguments skip_ws : simpl never.
#[local] Arguments obj_define : simpl never.
#[local] Arguments is_digit : simpl never.
#[local] Arguments Nat.eqb : simpl never.
#[local] Arguments nat_of_ascii : simpl never.
#[local] Arguments Z.abs : simpl never.
#[local] Arguments Z.leb : simpl never.

(** ** Numbers *)

Lemma digit_value_nonneg c : is_digit c = true -> 0 <= digit_value c.
Proof.
  unfold is_digit, digit_value. intros [H _]%andb_prop. apply Nat.leb_le in H. lia.
Qed.

Lemma parse_digits_nonneg s acc : 0 <= acc -> 0 <= (parse_digits s acc).1.
Proof.
  revert acc. induction s as [|c s IH]; intros acc Ha; simpl; [done|].
  destruct (is_digit c) eqn:Hc; [|done].
  apply IH. pose proof (digit_value_nonneg c Hc). lia.
Qed.

(** A number literal is read as a number within the range of safe
    integers, or not at all. *)
Lemma parse_number_data neg s v r :
  parse_number neg s = POk v r -> exists n, v = VNum n /\ Z.abs n <= max_safe_integer.
Proof.
  unfold parse_number. destruct s as [|c s]; [done|].
  destruct (is_digit c) eqn:Hc; [|done].
  destruct (if Ascii.eqb c "0" then _ else _) as [n rest] eqn:Hd.
  assert (0 <= n) as Hn.
  { destruct (Ascii.eqb c "0"); simplify_eq; [done|].
    change n with (n, rest).1. rewrite <- Hd. by apply parse_digits_nonneg. }
  intros H. parser_cases; eexists; (split; [done|]);
    match goal with H : (_ <=? _) = true |- _ => apply Z.leb_le in H end; lia.
Qed.

(** ** Objects *)

Definition data_props (ps : props) : Prop :=
  NoDup (akeys ps) /\ Forall (fun kv => json_data (snd kv) = true) ps.

Lemma json_data_obj ps : json_data (VObj ps) = true <-> data_props ps.
Proof.
  unfold data_props. simpl.
  by rewrite andb_true_iff, bool_decide_eq_true, forallb_forall, List.Forall_forall.
Qed.

Lemma json_data_arr xs :
  json_data (VArr xs) = true <-> Forall (fun v => json_data v = true) xs.
Proof.
  simpl. by rewrite forallb_forall, List.Forall_forall.
Qed.

Lemma Forall_areplace (P : string * value -> Prop) k v ps :
  (forall k', P (k', v)) -> Forall P ps -> Forall P (areplace k v ps).
Proof.
  intros Hv. induction 1 as [|[k' v'] ps Hx Hps IH]; simpl; [constructor|].
  destruct (String.eqb k k'); by constructor.
Qed.

Lemma Forall_insert_index (P : string * value -> Prop) n k v ps :
  P (k, v) -> Forall P ps -> Forall P (insert_index n k v ps).
Proof.
  intros Hv. induction 1 as [|[k' v'] ps Hx Hps IH]; simpl; [by repeat constructor|].
  repeat case_match; by repeat constructor.
Qed.

(** Defining a member with a value that is JSON data keeps an object JSON
    data. *)
Lemma data_props_define k v ps :
  json_data v = true -> data_props ps -> data_props (obj_define k v ps).
Proof.
  intros Hv [Hk Hps]. split; [by apply obj_define_NoDup|].
  unfold obj_define. repeat case_match.
  - by apply Forall_areplace.
  - by apply Forall_insert_index.
  - apply Forall_app. by repeat constructor.
Qed.

(** ** The parser *)

(** A parser yields JSON data when every value it returns is. *)
Definition yields_data (p : string -> presult value) : Prop :=
  forall s v r, p s = POk v r -> json_data v = true.

Section steps.
Context (value_p : string -> presult value).
Context (elements : string -> list value -> presult value).
Context (members : string -> props -> presult value).

Lemma value_step_data :
  yields_data (fun s => elements s []) ->
  yields_data (fun s => members s []) ->
  yields_data (value_step elements members).
Proof.
  intros He Hm s v r H. unfold value_step in H. parser_cases;
    try match goal with
    | H : elements _ _ = POk _ _ |- _ => by apply He in H
    | H : members _ _ = POk _ _ |- _ => by apply Hm in H
    | H : parse_number _ _ = POk _ _ |- _ =>
        apply parse_number_data in H as (n & -> & Hn); by apply Z.leb_le
    end; done.
Qed.

Lemma elements_step_data acc :
  yields_data value_p ->
  (forall acc, Forall (fun v => json_data v = true) acc ->
               yields_data (fun s => elements s acc)) ->
  Forall (fun v => json_data v = true) acc ->
  yields_data (fun s => elements_step value_p elements s acc).
Proof.
  intros Hv He Hacc s v r H. unfold elements_step in H. parser_cases;
    match goal with H : value_p _ = POk _ _ |- _ => apply Hv in H end.
  - apply json_data_arr, Forall_app. split; [by apply Forall_rev|by repeat constructor].
  - eapply He; [|eassumption]. by constructor.
Qed.

Lemma members_step_data acc :
  yields_data value_p ->
  (forall acc, data_props acc -> yields_data (fun s => members s acc)) ->
  data_props acc ->
  yields_data (fun s => members_step value_p members s acc).
Proof.
  intros Hv Hm Hacc s v r H. unfold members_step in H. parser_cases;
    match goal with H : value_p _ = POk _ _ |- _ => apply Hv in H end.
  - by apply json_data_obj, data_props_define.
  - eapply Hm; [|eassumption]. by apply data_props_define.
Qed.

End steps.

Lemma parse_data fuel :
  yields_data (parse_value fuel) /\
  (forall acc, Forall (fun v => json_data v = true) acc ->
               yields_data (fun s => parse_elements fuel s acc)) /\
  (forall acc, data_props acc -> yields_data (fun s => parse_members fuel s acc)).
Proof.
  induction fuel as [|fuel (IHv & IHe & IHm)]; [by split_and!|].
  split_and!; simpl.
  - apply value_step_data; [apply IHe; constructor | apply IHm; by split; constructor].
  - intros acc Hacc. by apply elements_step_data.
  - intros acc Hacc. by apply members_step_data.
Qed.

(** C18: what [JSON.parse] returns is JSON data: it holds no [undefined],
    every number in it is a safe integer, and no object in it has two
    properties of the same name. *)
Theorem JSON_parse_data line v : JSON_parse line = Parsed v -> json_data v = true.
Proof.
  unfold JSON_parse. intros H.
  destruct (parse_value _ line) as [v' rest| | |] eqn:Hp; [|done..].
  destruct (skip_ws rest); simplify_eq.
  destruct (parse_data (S (2 * String.length line))) as (Hv & _ & _). by eapply Hv.
Qed.

Lemma JSON_parse_data_witness :
  json_data {{ "id" ↦ #7; "params" ↦ {{ "name" ↦ $"ping" }} }} = true.
Proof.
  by apply (JSON_parse_data (sq "{'id':7,'params':{'name':'ping'}}")).
Defined.
