(* ===== verification/JsonRoundTrip.v ===== *)
(** * JSON text: the round trip

    [JSON_parse (JSON_stringify v) = Parsed v] for every value JSON text
    denotes in the model ([json_value]): what the server writes is read by a
    client as the value the server serialized, and what a client writes this
    way is read by the server as the value the client meant.

    The proof follows the grammar: numerals ([parse_number_pretty], by the
    scan lemma of [Prelude]), string literals ([parse_chars_quote]), then
    values by induction, with the elements of an array and the members of an
    object read one after the other ([elements_roundtrip],
    [members_roundtrip]).  Each lemma gives some fuel that is enough;
    [JsonText.parse_fuel_enough] and [JsonText.parse_fuel_mono] carry the
    result to the fuel [JSON_parse] uses. *)

From S2P Require Import Prelude JsValue JsonText.

(** What may follow a value in JSON text without changing how it reads. *)
Definition delimited (rest : string) : bool :=
  match rest with
  | EmptyString => true
  | String c _ => Ascii.eqb c "," || Ascii.eqb c "]" || Ascii.eqb c "}"
  end.

Lemma delimited_skip_ws rest : delimited rest = true -> skip_ws rest = rest.
Proof.
  destruct rest as [|c rest]; [done|]. simpl. intros H.
  repeat (apply orb_prop in H as [H|H]); apply Ascii.eqb_eq in H; by subst.
Qed.

Lemma parse_digits_stop rest acc :
  match rest with String c _ => is_digit c = false | EmptyString => True end ->
  parse_digits rest acc = (acc, rest).
Proof. destruct rest; simpl; [done|]. by intros ->. Qed.

Lemma delimited_not_digit rest :
  delimited rest = true ->
  match rest with String c _ => is_digit c = false | EmptyString => True end.
Proof.
  destruct rest as [|c rest]; [done|]. simpl. intros H.
  repeat (apply orb_prop in H as [H|H]); apply Ascii.eqb_eq in H; by subst.
Qed.

(** A numeral in the safe range reads back as its number. *)
Lemma parse_number_pretty neg n rest :
  0 <= n <= max_safe_integer -> delimited rest = true ->
  parse_number neg (pretty n +:+ rest) = POk (VNum (if neg then - n else n)) rest.
Proof.
  intros [H0 Hmax] Hd. rewrite pretty_Z_nonneg by done.
  destruct (decide (n = 0)) as [->|Hn].
  { destruct rest as [|c rest]; [by destruct neg|]. simpl in *.
    repeat (apply orb_prop in Hd as [Hd|Hd]); apply Ascii.eqb_eq in Hd; subst;
      by destruct neg. }
  rewrite pretty_N_go_app. simpl.
  destruct (pretty_N_go_head (Z.to_N n) rest) as (c & t & Heq & Hc & Hz); [lia|].
  assert (parse_digits (pretty_N_go (Z.to_N n) rest) 0 = (n, rest)) as Hp.
  { rewrite (pretty_N_go_scan parse_digits).
    - rewrite Z2N.id by done. by apply parse_digits_stop, delimited_not_digit.
    - intros c' s acc Hc'. simpl. by rewrite Hc'. }
  unfold parse_number. rewrite Heq in *. rewrite Hc.
  destruct (Ascii.eqb_spec c "0") as [->|_]; [done|]. rewrite Hp.
  apply Z.leb_le in Hmax. rewrite Hmax.
  destruct rest as [|d rest]; [done|]. simpl in Hd.
  repeat (apply orb_prop in Hd as [Hd|Hd]); apply Ascii.eqb_eq in Hd; by subst.
Qed.

(** One character of a quoted string reads back as itself. *)
Lemma parse_chars_quote_char c t :
  parse_chars (quote_char c +:+ t) =
  let! u r := parse_chars t in POk (String c u) r.
Proof. destruct c as [[] [] [] [] [] [] [] []]; reflexivity. Qed.

Lemma parse_chars_quote s rest :
  parse_chars (quote_chars s +:+ String "034" rest) = POk s rest.
Proof.
  induction s as [|c s IH]; [done|]. simpl quote_chars.
  by rewrite string_app_assoc, parse_chars_quote_char, IH.
Qed.

Lemma quote_app s rest :
  quote s +:+ rest = String "034" (quote_chars s +:+ String "034" rest).
Proof. unfold quote. simpl. by rewrite string_app_assoc. Qed.

(** The values JSON text denotes in the model: no [undefined], integers in
    the safe range, and objects whose properties are in the order in which
    defining them one by one leaves them. *)
Definition define_all (ps acc : props) : props :=
  fold_left (fun a kv => obj_define kv.1 kv.2 a) ps acc.

Fixpoint json_value (v : value) : bool :=
  match v with
  | VUndefined => false
  | VNull | VBool _ | VStr _ => true
  | VNum n => Z.abs n <=? max_safe_integer
  | VArr xs => forallb json_value xs
  | VObj ps =>
      forallb (fun kv => json_value kv.2) ps && bool_decide (define_all ps [] = ps)
  end.

Definition reads_back (v : value) : Prop :=
  forall rest, delimited rest = true ->
  exists fuel, parse_value fuel (JSON_stringify v +:+ rest) = POk v rest.

Lemma parse_fuel_le f f' :
  (f <= f')%nat ->
  (forall s v r, parse_value f s = POk v r -> parse_value f' s = POk v r) /\
  (forall s acc v r, parse_elements f s acc = POk v r -> parse_elements f' s acc = POk v r) /\
  (forall s acc v r, parse_members f s acc = POk v r -> parse_members f' s acc = POk v r).
Proof.
  induction 1 as [|f' _ (IHv & IHe & IHm)]; [done|].
  destruct (parse_fuel_mono f') as (Mv & Me & Mm).
  repeat split; intros.
  - apply IHv in H. destruct (Mv s) as [E|E]; congruence.
  - apply IHe in H. destruct (Me s acc) as [E|E]; congruence.
  - apply IHm in H. destruct (Mm s acc) as [E|E]; congruence.
Qed.

Lemma json_value_serialize v :
  json_value v = true -> serialize v = Some (JSON_stringify v).
Proof. unfold JSON_stringify. by destruct v as [| |[]| | | |]. Qed.

(** The first character of the text of a value is no white space and no
    closing bracket. *)
Definition opens_value (c : ascii) : bool := negb (is_ws c) && negb (Ascii.eqb c "]").

Lemma is_digit_opens_value c : is_digit c = true -> opens_value c = true.
Proof. destruct c as [[] [] [] [] [] [] [] []]; by vm_compute. Qed.

Lemma stringify_head v :
  json_value v = true ->
  exists c t, JSON_stringify v = String c t /\ opens_value c = true.
Proof.
  destruct v as [| |[]|n|s| |]; intros Hv; try done;
    try (by eexists _, _; split; [reflexivity|]).
  unfold JSON_stringify. simpl. unfold number_to_string.
  destruct n as [|p|p]; try (by eexists _, _; split; [reflexivity|]).
  rewrite pretty_Z_nonneg, decide_False by done.
  destruct (pretty_N_go_head (Z.to_N (Z.pos p)) "") as (c & t & -> & Hc & _); [done|].
  eauto using is_digit_opens_value.
Qed.

Lemma skip_ws_opens c t : opens_value c = true -> skip_ws (String c t) = String c t.
Proof. unfold opens_value. simpl. by destruct (is_ws c). Qed.

#[local] Arguments pretty : simpl never.
#[local] Arguments pretty_N_go : simpl never.
#[local] Arguments parse_number : simpl never.

Section value_step.
Context (elements : string -> list value -> presult value).
Context (members : string -> props -> presult value).

Lemma value_step_array c t :
  opens_value c = true ->
  value_step elements members (String "[" (String c t)) = elements (String c t) [].
Proof.
  intros Hc. unfold value_step. simpl skip_ws at 1. cbn -[skip_ws].
  rewrite (skip_ws_opens _ _ Hc). revert Hc.
  destruct c as [[] [] [] [] [] [] [] []]; try done.
Qed.

Lemma value_step_minus s :
  value_step elements members (String "-" s) = parse_number true s.
Proof. reflexivity. Qed.

Lemma value_step_digit c t :
  is_digit c = true ->
  value_step elements members (String c t) = parse_number false (String c t).
Proof.
  intros Hc. unfold value_step.
  rewrite (skip_ws_opens _ _ (is_digit_opens_value _ Hc)). cbv zeta. rewrite Hc.
  unfold is_digit in Hc. apply andb_prop in Hc as [Hl%Nat.leb_le Hu%Nat.leb_le].
  by repeat match goal with
            | |- context [(nat_of_ascii c =? ?k)%nat] =>
                destruct (Nat.eqb_spec (nat_of_ascii c) k); [lia|]
            end.
Qed.

Lemma value_step_quote t :
  value_step elements members (String "034" t) =
  let! u r := parse_chars t in POk (VStr u) r.
Proof. reflexivity. Qed.

Lemma value_step_object t :
  value_step elements members (String "{" (String "034" t)) = members (String "034" t) [].
Proof. reflexivity. Qed.

Lemma value_step_number n rest :
  Z.abs n <= max_safe_integer -> delimited rest = true ->
  value_step elements members (pretty n +:+ rest) = POk (VNum n) rest.
Proof.
  intros Hn Hd. destruct (Z.neg_nonneg_cases n) as [Hneg|Hpos].
  - destruct n as [|p|p]; [lia|lia|].
    rewrite pretty_Z_neg_app, value_step_minus.
    rewrite (parse_number_pretty true (Z.pos p) rest); [done| |done]. split; [done|lia].
  - assert (exists c t, pretty n +:+ rest = String c t /\ is_digit c = true)
      as (c & t & Heq & Hc).
    { rewrite pretty_Z_nonneg by done. destruct (decide (n = 0)); [by eexists _, _|].
      rewrite pretty_N_go_app.
      destruct (pretty_N_go_head (Z.to_N n) ("" +:+ rest)) as (c & t & -> & ? & _);
        [lia|eauto]. }
    rewrite Heq, (value_step_digit _ _ Hc), <- Heq.
    apply (parse_number_pretty false); [split; [done|lia]|done].
Qed.

End value_step.

#[local] Arguments skip_ws : simpl never.

Lemma skip_ws_delimiter c rest :
  delimited (String c rest) = true -> skip_ws (String c rest) = String c rest.
Proof. apply delimited_skip_ws. Qed.

(** The elements of an array, from the first one on. *)
Lemma elements_roundtrip xs :
  Forall reads_back xs -> xs <> [] ->
  forall acc rest, exists fuel,
    parse_elements fuel (join "," (map JSON_stringify xs) +:+ String "]" rest) acc
    = POk (VArr (rev acc ++ xs)) rest.
Proof.
  induction 1 as [|x xs Hx _ IH]; [done|]. intros _ acc rest.
  destruct xs as [|y ys].
  - destruct (Hx (String "]" rest)) as [f Hf]; [done|]. exists (S f).
    simpl. unfold elements_step. by rewrite Hf.
  - destruct (IH ltac:(done) (x :: acc) rest) as [f2 H2].
    change (join "," (map JSON_stringify (x :: y :: ys)))
      with (JSON_stringify x +:+ "," +:+ join "," (map JSON_stringify (y :: ys))).
    revert H2. generalize (join "," (map JSON_stringify (y :: ys))). intros tail H2.
    rewrite !string_app_assoc. change ("," +:+ ?s) with (String "," s).
    destruct (Hx (String "," (tail +:+ String "]" rest))) as [f1 H1]; [done|].
    exists (S (f1 `max` f2)).
    destruct (parse_fuel_le f1 (f1 `max` f2)) as (Lv & _ & _); [lia|].
    destruct (parse_fuel_le f2 (f1 `max` f2)) as (_ & Le & _); [lia|].
    apply Lv in H1. apply Le in H2.
    cbn [parse_elements]. unfold elements_step. rewrite H1. cbn [pbind].
    rewrite skip_ws_delimiter by done. rewrite H2.
    cbn [rev]. by rewrite <- app_assoc.
Qed.

(** The text of one member of an object. *)
Definition member_text (kv : string * value) : string :=
  quote kv.1 +:+ ":" +:+ JSON_stringify kv.2.

Lemma member_text_app k x rest :
  member_text (k, x) +:+ rest =
  String "034" (quote_chars k +:+ String "034" (String ":" (JSON_stringify x +:+ rest))).
Proof.
  unfold member_text, quote. cbn [fst snd]. cbn [String.append].
  by rewrite !string_app_assoc.
Qed.

Lemma skip_ws_not_ws c t : is_ws c = false -> skip_ws (String c t) = String c t.
Proof. unfold skip_ws. by intros ->. Qed.

Lemma members_step_member (value_p : string -> presult value)
    (members : string -> props -> presult value) k x rest acc :
  members_step value_p members (member_text (k, x) +:+ rest) acc =
  let! v r3 := value_p (JSON_stringify x +:+ rest) in
  match skip_ws r3 with
  | String "," r4 => members r4 (obj_define k v acc)
  | String "}" r4 => POk (VObj (obj_define k v acc)) r4
  | _ => PSyntax
  end.
Proof.
  rewrite member_text_app. unfold members_step.
  rewrite skip_ws_not_ws by done. cbv iota beta.
  rewrite parse_chars_quote. cbn [pbind]. by rewrite skip_ws_not_ws by done.
Qed.

Lemma members_roundtrip ps :
  Forall (fun kv => reads_back kv.2) ps -> ps <> [] ->
  forall acc rest, exists fuel,
    parse_members fuel (join "," (map member_text ps) +:+ String "}" rest) acc
    = POk (VObj (define_all ps acc)) rest.
Proof.
  induction 1 as [|[k x] ps Hx _ IH]; [done|]. intros _ acc rest. cbn [snd] in Hx.
  destruct ps as [|kv ps].
  - destruct (Hx (String "}" rest)) as [f Hf]; [done|]. exists (S f).
    cbn [parse_members map join]. rewrite members_step_member, Hf. cbn [pbind].
    by rewrite skip_ws_delimiter.
  - destruct (IH ltac:(done) (obj_define k x acc) rest) as [f2 H2].
    change (join "," (map member_text ((k, x) :: kv :: ps)))
      with (member_text (k, x) +:+ "," +:+ join "," (map member_text (kv :: ps))).
    revert H2. generalize (join "," (map member_text (kv :: ps))). intros tail H2.
    rewrite !string_app_assoc. change ("," +:+ ?s) with (String "," s).
    destruct (Hx (String "," (tail +:+ String "}" rest))) as [f1 H1]; [done|].
    exists (S (f1 `max` f2)).
    destruct (parse_fuel_le f1 (f1 `max` f2)) as (Lv & _ & _); [lia|].
    destruct (parse_fuel_le f2 (f1 `max` f2)) as (_ & _ & Lm); [lia|].
    apply Lv in H1. apply Lm in H2.
    cbn [parse_members]. rewrite members_step_member, H1. cbn [pbind].
    by rewrite skip_ws_delimiter.
Qed.

Lemma stringify_array xs :
  forallb json_value xs = true ->
  JSON_stringify (VArr xs) = "[" +:+ join "," (map JSON_stringify xs) +:+ "]".
Proof.
  intros Hj. unfold JSON_stringify at 1. rewrite serialize_array.
  assert (map (fun x => default "null" (serialize x)) xs = map JSON_stringify xs) as ->;
    [|done].
  induction xs as [|x xs IH]; [done|].
  apply andb_prop in Hj as [Hx Hxs]. cbn [map].
  by rewrite IH, (json_value_serialize _ Hx).
Qed.

Lemma stringify_object ps :
  forallb (fun kv => json_value kv.2) ps = true ->
  JSON_stringify (VObj ps) = "{" +:+ join "," (map member_text ps) +:+ "}".
Proof.
  intros Hj. unfold JSON_stringify at 1. rewrite serialize_object.
  assert (omap member_entry ps = map member_text ps) as ->; [|done].
  induction ps as [|[k x] ps IH]; [done|].
  apply andb_prop in Hj as [Hx Hxs]. cbn [snd] in Hx.
  change (omap member_entry ((k, x) :: ps))
    with (match member_entry (k, x) with
          | Some y => y :: omap member_entry ps
          | None => omap member_entry ps
          end).
  unfold member_entry at 1. cbn [fst snd]. rewrite (json_value_serialize _ Hx).
  simpl. f_equal. by apply IH.
Qed.

Lemma join_head sep x xs c t rest :
  x = String c t -> exists t', join sep (x :: xs) +:+ rest = String c t'.
Proof. intros ->. destruct xs; by eexists. Qed.

Lemma Forall_reads_back (xs : list value) :
  Forall (fun x => json_value x = true -> reads_back x) xs ->
  forallb json_value xs = true -> Forall reads_back xs.
Proof.
  induction 1 as [|x xs Hx _ IH]; [done|]. intros [??]%andb_prop. constructor; auto.
Qed.

Lemma Forall_reads_back_members (ps : props) :
  Forall (fun kv => json_value kv.2 = true -> reads_back kv.2) ps ->
  forallb (fun kv => json_value kv.2) ps = true ->
  Forall (fun kv => reads_back kv.2) ps.
Proof.
  induction 1 as [|x xs Hx _ IH]; [done|]. intros [??]%andb_prop. constructor; auto.
Qed.

Lemma json_value_reads_back v : json_value v = true -> reads_back v.
Proof.
  induction v as [| |b|n|s|xs IH|ps IH] using value_ind; intros Hj rest Hd; try done.
  - by exists 1%nat.
  - exists 1%nat. by destruct b.
  - exists 1%nat. apply value_step_number; [|done]. by apply Z.leb_le.
  - exists 1%nat. change (JSON_stringify (VStr s)) with (quote s).
    rewrite quote_app. cbn [parse_value].
    by rewrite value_step_quote, parse_chars_quote.
  - destruct xs as [|x xs]; [by exists 1%nat|]. cbn [json_value] in Hj.
    destruct (elements_roundtrip (x :: xs) (Forall_reads_back _ IH Hj) ltac:(done) [] rest)
      as [f Hf].
    exists (S f). rewrite stringify_array, !string_app_assoc by done.
    apply andb_prop in Hj as [Hx _].
    destruct (stringify_head x Hx) as (c & t & Hc & Ho).
    destruct (join_head "," _ (map JSON_stringify xs) c t ("]" +:+ rest) Hc) as [t' Ht].
    cbn [map] in Hf. change (String "]" rest) with ("]" +:+ rest) in Hf.
    cbn [map]. rewrite Ht in *. cbn [String.append parse_value].
    by rewrite value_step_array.
  - destruct ps as [|[k x] ps]; [by exists 1%nat|]. cbn [json_value] in Hj.
    apply andb_prop in Hj as [Hj Hc%bool_decide_eq_true].
    destruct (members_roundtrip ((k, x) :: ps) (Forall_reads_back_members _ IH Hj)
                ltac:(done) [] rest) as [f Hf].
    exists (S f). rewrite stringify_object, !string_app_assoc by done.
    rewrite Hc in Hf. cbn [map] in *.
    destruct (join_head "," (member_text (k, x)) (map member_text ps) "034"%char
                (quote_chars k +:+ String "034" (":" +:+ JSON_stringify x))
                ("}" +:+ rest)) as [t' Ht].
    { unfold member_text, quote. cbn [fst snd String.append]. by rewrite string_app_assoc. }
    change (String "}" rest) with ("}" +:+ rest) in Hf.
    rewrite Ht in *. cbn [String.append parse_value]. exact Hf.
Qed.

(** A value is read back with the fuel [JSON_parse] gives, also when a
    delimiter follows it. *)
Lemma parse_stringify v rest :
  json_value v = true -> delimited rest = true ->
  parse_value (S (2 * String.length (JSON_stringify v +:+ rest))) (JSON_stringify v +:+ rest)
  = POk v rest.
Proof.
  intros Hj Hd. destruct (json_value_reads_back v Hj rest Hd) as [f Hf].
  set (F := S (2 * String.length (JSON_stringify v +:+ rest))).
  destruct (Nat.le_ge_cases f F) as [Hle|Hge].
  - by apply (parse_fuel_le f F).
  - rewrite <- Hf. replace f with ((f - F) + F)%nat by lia. symmetry.
    apply parse_value_more_fuel, parse_fuel_enough. lia.
Qed.

(** C17: a value JSON text denotes is read back from its serialization:
    [JSON.parse(JSON.stringify(v))] is [v]. *)
Theorem JSON_parse_stringify v :
  json_value v = true -> JSON_parse (JSON_stringify v) = Parsed v.
Proof.
  intros Hj. pose proof (parse_stringify v "" Hj eq_refl) as Hp.
  rewrite string_app_nil_r in Hp. unfold JSON_parse. by rewrite Hp.
Qed.

Lemma JSON_parse_stringify_witness :
  JSON_parse (sq "{'jsonrpc':'2.0','id':2,'result':{'result':'pong'}}") =
  Parsed {{ "jsonrpc" ↦ $"2.0"; "id" ↦ #2; "result" ↦ {{ "result" ↦ $"pong" }} }}.
Proof.
  by apply (JSON_parse_stringify
              {{ "jsonrpc" ↦ $"2.0"; "id" ↦ #2; "result" ↦ {{ "result" ↦ $"pong" }} }}).
Defined.
