(* ===== verification/Catalog.v ===== *)
(** * The tool catalog

    [tools] is the array literal of src/mcp-server-aws.js lines 54-495: 22
    descriptors, each an object with [name], [description] and [parameters],
    the last a JSON-Schema object with [properties] and [required].  Each
    descriptor is written here as the literal stands in the source, key for
    key and in the same order.  [tool_entry] is the callback [tools/list]
    maps over the array (lines 716-725), and [tools_jsonrpc] is the one-entry
    catalog of the earlier server (src/unnamed/part_001 lines 64-74). *)

From S2P Require Import Prelude JsValue.

Definition desc_aws_ec2_describeInstances : value :=
  {{ "name" ↦ $"aws.ec2.describeInstances";
     "description" ↦ $"List EC2 instances and their details";
     "parameters" ↦ {{ "type" ↦ $"object";
        "properties" ↦ {{ "region" ↦ {{ "type" ↦ $"string";
              "description" ↦ $"AWS region (e.g., us-west-2)" }};
           "filters" ↦ {{ "type" ↦ $"array";
              "description" ↦ $"Optional filters to apply";
              "items" ↦ {{ "type" ↦ $"object";
                 "properties" ↦ {{ "Name" ↦ {{ "type" ↦ $"string" }};
                    "Values" ↦ {{ "type" ↦ $"array";
                       "items" ↦ {{ "type" ↦ $"string" }} }} }} }} }} }};
        "required" ↦ VArr [] }} }}.

Definition desc_aws_ec2_describeVpcs : value :=
  {{ "name" ↦ $"aws.ec2.describeVpcs";
     "description" ↦ $"List VPCs and their details";
     "parameters" ↦ {{ "type" ↦ $"object";
        "properties" ↦ {{ "region" ↦ {{ "type" ↦ $"string";
              "description" ↦ $"AWS region (e.g., us-west-2)" }};
           "vpcIds" ↦ {{ "type" ↦ $"array";
              "description" ↦ $"Optional VPC IDs to filter";
              "items" ↦ {{ "type" ↦ $"string" }} }} }};
        "required" ↦ VArr [] }} }}.

Definition desc_aws_ec2_describeSecurityGroups : value :=
  {{ "name" ↦ $"aws.ec2.describeSecurityGroups";
     "description" ↦ $"List security groups and their details";
     "parameters" ↦ {{ "type" ↦ $"object";
        "properties" ↦ {{ "region" ↦ {{ "type" ↦ $"string";
              "description" ↦ $"AWS region (e.g., us-west-2)" }};
           "groupIds" ↦ {{ "type" ↦ $"array";
              "description" ↦ $"Optional security group IDs to filter";
              "items" ↦ {{ "type" ↦ $"string" }} }} }};
        "required" ↦ VArr [] }} }}.

Definition desc_aws_s3_listBuckets : value :=
  {{ "name" ↦ $"aws.s3.listBuckets";
     "description" ↦ $"List all S3 buckets";
     "parameters" ↦ {{ "type" ↦ $"object";
        "properties" ↦ {{ "region" ↦ {{ "type" ↦ $"string";
              "description" ↦ $"AWS region (e.g., us-west-2)" }} }};
        "required" ↦ VArr [] }} }}.

Definition desc_aws_s3_listObjects : value :=
  {{ "name" ↦ $"aws.s3.listObjects";
     "description" ↦ $"List objects in an S3 bucket";
     "parameters" ↦ {{ "type" ↦ $"object";
        "properties" ↦ {{ "region" ↦ {{ "type" ↦ $"string";
              "description" ↦ $"AWS region (e.g., us-west-2)" }};
           "bucket" ↦ {{ "type" ↦ $"string"; "description" ↦ $"S3 bucket name" }};
           "prefix" ↦ {{ "type" ↦ $"string";
              "description" ↦ $"Optional prefix to filter objects" }} }};
        "required" ↦ VArr [$"bucket"] }} }}.

Definition desc_aws_lambda_listFunctions : value :=
  {{ "name" ↦ $"aws.lambda.listFunctions";
     "description" ↦ $"List Lambda functions";
     "parameters" ↦ {{ "type" ↦ $"object";
        "properties" ↦ {{ "region" ↦ {{ "type" ↦ $"string";
              "description" ↦ $"AWS region (e.g., us-west-2)" }} }};
        "required" ↦ VArr [] }} }}.

Definition desc_aws_lambda_getFunctionConfiguration : value :=
  {{ "name" ↦ $"aws.lambda.getFunctionConfiguration";
     "description" ↦ $"Get detailed configuration for a Lambda function";
     "parameters" ↦ {{ "type" ↦ $"object";
        "properties" ↦ {{ "region" ↦ {{ "type" ↦ $"string";
              "description" ↦ $"AWS region (e.g., us-west-2)" }};
           "functionName" ↦ {{ "type" ↦ $"string";
              "description" ↦ $"Name or ARN of the Lambda function" }} }};
        "required" ↦ VArr [$"functionName"] }} }}.

Definition desc_aws_dynamodb_listTables : value :=
  {{ "name" ↦ $"aws.dynamodb.listTables";
     "description" ↦ $"List DynamoDB tables";
     "parameters" ↦ {{ "type" ↦ $"object";
        "properties" ↦ {{ "region" ↦ {{ "type" ↦ $"string";
              "description" ↦ $"AWS region (e.g., us-west-2)" }} }};
        "required" ↦ VArr [] }} }}.

Definition desc_aws_dynamodb_describeTable : value :=
  {{ "name" ↦ $"aws.dynamodb.describeTable";
     "description" ↦ $"Get detailed information about a DynamoDB table";
     "parameters" ↦ {{ "type" ↦ $"object";
        "properties" ↦ {{ "region" ↦ {{ "type" ↦ $"string";
              "description" ↦ $"AWS region (e.g., us-west-2)" }};
           "tableName" ↦ {{ "type" ↦ $"string";
              "description" ↦ $"Name of the DynamoDB table" }} }};
        "required" ↦ VArr [$"tableName"] }} }}.

Definition desc_aws_cloudwatch_getMetricStatistics : value :=
  {{ "name" ↦ $"aws.cloudwatch.getMetricStatistics";
     "description" ↦ $"Get CloudWatch metrics for a resource";
     "parameters" ↦ {{ "type" ↦ $"object";
        "properties" ↦ {{ "region" ↦ {{ "type" ↦ $"string";
              "description" ↦ $"AWS region (e.g., us-west-2)" }};
           "namespace" ↦ {{ "type" ↦ $"string";
              "description" ↦ $"Metric namespace (e.g., AWS/EC2)" }};
           "metricName" ↦ {{ "type" ↦ $"string"; "description" ↦ $"Name of the metric" }};
           "dimensions" ↦ {{ "type" ↦ $"array";
              "description" ↦ $"Dimensions for the metric";
              "items" ↦ {{ "type" ↦ $"object";
                 "properties" ↦ {{ "Name" ↦ {{ "type" ↦ $"string" }};
                    "Value" ↦ {{ "type" ↦ $"string" }} }} }} }};
           "startTime" ↦ {{ "type" ↦ $"string";
              "description" ↦ $"Start time for metrics (ISO format or relative time like -3h)" }};
           "endTime" ↦ {{ "type" ↦ $"string";
              "description" ↦ $"End time for metrics (ISO format or current time by default)" }};
           "period" ↦ {{ "type" ↦ $"number";
              "description" ↦ $"Period in seconds (60, 300, 3600, etc.)" }};
           "statistics" ↦ {{ "type" ↦ $"array";
              "description" ↦ $"Statistics to retrieve (Average, Maximum, Minimum, SampleCount, Sum)";
              "items" ↦ {{ "type" ↦ $"string" }} }} }};
        "required" ↦ VArr [$"namespace"; $"metricName"] }} }}.

Definition desc_aws_cloudwatch_describeAlarms : value :=
  {{ "name" ↦ $"aws.cloudwatch.describeAlarms";
     "description" ↦ $"List CloudWatch alarms";
     "parameters" ↦ {{ "type" ↦ $"object";
        "properties" ↦ {{ "region" ↦ {{ "type" ↦ $"string";
              "description" ↦ $"AWS region (e.g., us-west-2)" }};
           "alarmNames" ↦ {{ "type" ↦ $"array";
              "description" ↦ $"Optional alarm names to filter";
              "items" ↦ {{ "type" ↦ $"string" }} }};
           "alarmTypes" ↦ {{ "type" ↦ $"array";
              "description" ↦ $"Optional alarm types to filter";
              "items" ↦ {{ "type" ↦ $"string";
                 "enum" ↦ VArr [$"MetricAlarm"; $"CompositeAlarm"] }} }};
           "stateValue" ↦ {{ "type" ↦ $"string";
              "description" ↦ $"Optional state to filter by (OK, ALARM, INSUFFICIENT_DATA)";
              "enum" ↦ VArr [$"OK"; $"ALARM"; $"INSUFFICIENT_DATA"] }} }};
        "required" ↦ VArr [] }} }}.

Definition desc_aws_iam_listUsers : value :=
  {{ "name" ↦ $"aws.iam.listUsers";
     "description" ↦ $"List IAM users";
     "parameters" ↦ {{ "type" ↦ $"object";
        "properties" ↦ {{ "pathPrefix" ↦ {{ "type" ↦ $"string";
              "description" ↦ $"Optional path prefix to filter users" }};
           "maxItems" ↦ {{ "type" ↦ $"number";
              "description" ↦ $"Maximum number of items to return" }} }};
        "required" ↦ VArr [] }} }}.

Definition desc_aws_iam_listRoles : value :=
  {{ "name" ↦ $"aws.iam.listRoles";
     "description" ↦ $"List IAM roles";
     "parameters" ↦ {{ "type" ↦ $"object";
        "properties" ↦ {{ "pathPrefix" ↦ {{ "type" ↦ $"string";
              "description" ↦ $"Optional path prefix to filter roles" }};
           "maxItems" ↦ {{ "type" ↦ $"number";
              "description" ↦ $"Maximum number of items to return" }} }};
        "required" ↦ VArr [] }} }}.

Definition desc_aws_rds_describeDBInstances : value :=
  {{ "name" ↦ $"aws.rds.describeDBInstances";
     "description" ↦ $"List RDS database instances";
     "parameters" ↦ {{ "type" ↦ $"object";
        "properties" ↦ {{ "region" ↦ {{ "type" ↦ $"string";
              "description" ↦ $"AWS region (e.g., us-west-2)" }};
           "dbInstanceIdentifier" ↦ {{ "type" ↦ $"string";
              "description" ↦ $"Optional database instance identifier" }} }};
        "required" ↦ VArr [] }} }}.

Definition desc_aws_sns_listTopics : value :=
  {{ "name" ↦ $"aws.sns.listTopics";
     "description" ↦ $"List SNS topics";
     "parameters" ↦ {{ "type" ↦ $"object";
        "properties" ↦ {{ "region" ↦ {{ "type" ↦ $"string";
              "description" ↦ $"AWS region (e.g., us-west-2)" }} }};
        "required" ↦ VArr [] }} }}.

Definition desc_aws_sqs_listQueues : value :=
  {{ "name" ↦ $"aws.sqs.listQueues";
     "description" ↦ $"List SQS queues";
     "parameters" ↦ {{ "type" ↦ $"object";
        "properties" ↦ {{ "region" ↦ {{ "type" ↦ $"string";
              "description" ↦ $"AWS region (e.g., us-west-2)" }};
           "queueNamePrefix" ↦ {{ "type" ↦ $"string";
              "description" ↦ $"Optional prefix to filter queue names" }} }};
        "required" ↦ VArr [] }} }}.

Definition desc_aws_cloudformation_listStacks : value :=
  {{ "name" ↦ $"aws.cloudformation.listStacks";
     "description" ↦ $"List CloudFormation stacks";
     "parameters" ↦ {{ "type" ↦ $"object";
        "properties" ↦ {{ "region" ↦ {{ "type" ↦ $"string";
              "description" ↦ $"AWS region (e.g., us-west-2)" }};
           "stackStatusFilter" ↦ {{ "type" ↦ $"array";
              "description" ↦ $"Optional status filters";
              "items" ↦ {{ "type" ↦ $"string" }} }} }};
        "required" ↦ VArr [] }} }}.

Definition desc_aws_route53_listHostedZones : value :=
  {{ "name" ↦ $"aws.route53.listHostedZones";
     "description" ↦ $"List Route53 hosted zones";
     "parameters" ↦ {{ "type" ↦ $"object";
        "properties" ↦ {{ "maxItems" ↦ {{ "type" ↦ $"number";
              "description" ↦ $"Maximum number of items to return" }} }};
        "required" ↦ VArr [] }} }}.

Definition desc_aws_cloudfront_listDistributions : value :=
  {{ "name" ↦ $"aws.cloudfront.listDistributions";
     "description" ↦ $"List CloudFront distributions";
     "parameters" ↦ {{ "type" ↦ $"object";
        "properties" ↦ {{ "maxItems" ↦ {{ "type" ↦ $"number";
              "description" ↦ $"Maximum number of items to return" }} }};
        "required" ↦ VArr [] }} }}.

Definition desc_aws_ecs_listClusters : value :=
  {{ "name" ↦ $"aws.ecs.listClusters";
     "description" ↦ $"List ECS clusters";
     "parameters" ↦ {{ "type" ↦ $"object";
        "properties" ↦ {{ "region" ↦ {{ "type" ↦ $"string";
              "description" ↦ $"AWS region (e.g., us-west-2)" }} }};
        "required" ↦ VArr [] }} }}.

Definition desc_aws_eks_listClusters : value :=
  {{ "name" ↦ $"aws.eks.listClusters";
     "description" ↦ $"List EKS clusters";
     "parameters" ↦ {{ "type" ↦ $"object";
        "properties" ↦ {{ "region" ↦ {{ "type" ↦ $"string";
              "description" ↦ $"AWS region (e.g., us-west-2)" }} }};
        "required" ↦ VArr [] }} }}.

Definition desc_ping : value :=
  {{ "name" ↦ $"ping";
     "description" ↦ $"Responds with pong";
     "parameters" ↦ {{ "type" ↦ $"object"; "properties" ↦ {{ }}; "required" ↦ VArr [] }} }}.

(** [const tools = [...]], in the order of the source. *)
Definition tools : list value :=
  [ desc_aws_ec2_describeInstances;
    desc_aws_ec2_describeVpcs;
    desc_aws_ec2_describeSecurityGroups;
    desc_aws_s3_listBuckets;
    desc_aws_s3_listObjects;
    desc_aws_lambda_listFunctions;
    desc_aws_lambda_getFunctionConfiguration;
    desc_aws_dynamodb_listTables;
    desc_aws_dynamodb_describeTable;
    desc_aws_cloudwatch_getMetricStatistics;
    desc_aws_cloudwatch_describeAlarms;
    desc_aws_iam_listUsers;
    desc_aws_iam_listRoles;
    desc_aws_rds_describeDBInstances;
    desc_aws_sns_listTopics;
    desc_aws_sqs_listQueues;
    desc_aws_cloudformation_listStacks;
    desc_aws_route53_listHostedZones;
    desc_aws_cloudfront_listDistributions;
    desc_aws_ecs_listClusters;
    desc_aws_eks_listClusters;
    desc_ping ].

(** The catalog of the earlier JSON-RPC server: [ping] alone. *)
Definition tools_jsonrpc : list value :=
  [ {{ "name" ↦ $"ping";
       "description" ↦ $"Responds with pong";
       "parameters" ↦ {{ "type" ↦ $"object";
          "properties" ↦ {{ }};
          "required" ↦ VArr [] }} }} ].

(** The callback of [tools.map] in the [tools/list] branch:
    [{ name: tool.name, description: tool.description, inputSchema: { type:
    "object", properties: tool.parameters.properties || {}, required:
    tool.parameters.required || [], additionalProperties: false } }]. *)
Definition tool_entry (tool : value) : completion value :=
  name ← get_prop tool "name";
  description ← get_prop tool "description";
  parameters ← get_prop tool "parameters";
  properties ← get_prop parameters "properties";
  parameters' ← get_prop tool "parameters";
  required ← get_prop parameters' "required";
  Normal {{ "name" ↦ name;
            "description" ↦ description;
            "inputSchema" ↦ {{ "type" ↦ $"object";
               "properties" ↦ js_or properties {{ }};
               "required" ↦ js_or required (VArr []);
               "additionalProperties" ↦ VBool false }} }}.

(** The [name] field of each descriptor, as a string. *)
Definition tool_name (tool : value) : option string :=
  match get_opt tool "name" with VStr s => Some s | _ => None end.

Definition tool_names (l : list value) : list string := omap tool_name l.

(** The keys of [parameters.properties] and the strings of
    [parameters.required]. *)
Definition declared_parameters (tool : value) : list string :=
  match get_opt (get_opt tool "parameters") "properties" with
  | VObj ps => akeys ps
  | _ => []
  end.

Definition required_parameters (tool : value) : list string :=
  match get_opt (get_opt tool "parameters") "required" with
  | VArr xs => omap (fun x => match x with VStr s => Some s | _ => None end) xs
  | _ => []
  end.

(** A descriptor is well formed when it has a non-empty string name, a
    string description, an object of properties and an array of required
    names, every one of them a declared property. *)
Definition wf_descriptor (tool : value) : bool :=
  match get_opt tool "name", get_opt tool "description",
        get_opt (get_opt tool "parameters") "properties",
        get_opt (get_opt tool "parameters") "required" with
  | VStr n, VStr _, VObj ps, VArr req =>
      negb (String.eqb n "") && wf_value tool &&
      forallb (fun r => match r with
                        | VStr s => ahas s ps
                        | _ => false
                        end) req
  | _, _, _, _ => false
  end.

Definition wf_catalog (l : list value) : bool :=
  forallb wf_descriptor l && bool_decide (NoDup (tool_names l)).

(** * Properties *)

Lemma get_opt_not_nullish v k : get_opt v k <> VUndefined -> nullish v = false.
Proof. by destruct v. Qed.

(** On a well-formed descriptor the callback of [tools/list] throws
    nothing and its two defaults never apply: the entry carries the
    descriptor's own properties and required names. *)
Theorem tool_entry_wf tool :
  wf_descriptor tool = true ->
  tool_entry tool =
  Normal {{ "name" ↦ get_opt tool "name";
            "description" ↦ get_opt tool "description";
            "inputSchema" ↦ {{ "type" ↦ $"object";
               "properties" ↦ get_opt (get_opt tool "parameters") "properties";
               "required" ↦ get_opt (get_opt tool "parameters") "required";
               "additionalProperties" ↦ VBool false }} }}.
Proof.
  unfold wf_descriptor, tool_entry. intros Hwf.
  destruct (get_opt tool "name") as [| | | |n| |] eqn:Hn; try done.
  destruct (get_opt tool "description") as [| | | |d| |] eqn:Hd; try done.
  destruct (get_opt (get_opt tool "parameters") "properties")
    as [| | | | | |ps] eqn:Hps; try done.
  destruct (get_opt (get_opt tool "parameters") "required")
    as [| | | | |req|] eqn:Hreq; try done.
  assert (nullish tool = false) as Ht by (apply (get_opt_not_nullish _ "name"); congruence).
  assert (nullish (get_opt tool "parameters") = false) as Hp
    by (apply (get_opt_not_nullish _ "required"); congruence).
  rewrite !(get_prop_not_nullish _ _ Ht). simpl.
  rewrite !(get_prop_not_nullish _ _ Hp). simpl. by rewrite Hn, Hd, Hps, Hreq.
Qed.

Lemma tool_entry_wf_witness :
  tool_entry desc_ping =
  Normal {{ "name" ↦ $"ping";
            "description" ↦ $"Responds with pong";
            "inputSchema" ↦ {{ "type" ↦ $"object";
               "properties" ↦ {{ }};
               "required" ↦ VArr [];
               "additionalProperties" ↦ VBool false }} }}.
Proof. apply (tool_entry_wf desc_ping). by vm_compute. Defined.

(** The required names of a well-formed descriptor are declared. *)
Lemma wf_descriptor_required tool :
  wf_descriptor tool = true -> required_parameters tool ⊆ declared_parameters tool.
Proof.
  unfold wf_descriptor, required_parameters, declared_parameters.
  repeat case_match; try done. intros Hwf r Hr.
  apply andb_prop in Hwf as [_ Hreq]. rewrite forallb_forall in Hreq.
  apply list_elem_of_omap in Hr as (x & Hx & Hs).
  apply list_elem_of_In, Hreq in Hx. destruct x; simplify_eq.
  apply ahas_true in Hx. by apply list_elem_of_In.
Qed.

(** C33: the catalog has 22 descriptors, each well formed (a non-empty
    name, a description, an object of properties, and required names that
    are all declared), and no two have the same name. *)
Theorem catalog_well_formed :
  length tools = 22%nat /\ NoDup (tool_names tools) /\
  Forall (fun tool => wf_descriptor tool = true /\
                      required_parameters tool ⊆ declared_parameters tool) tools.
Proof.
  assert (wf_catalog tools = true) as Hwf by by vm_compute.
  apply andb_prop in Hwf as [Hall Hnd]. split; [done|].
  split; [by apply bool_decide_eq_true in Hnd|].
  apply List.Forall_forall. intros tool Ht.
  rewrite forallb_forall in Hall. auto using wf_descriptor_required.
Qed.
