(* ===== verification/Handlers.v ===== *)
(** * Tool handlers

    [toolHandlers] (src/mcp-server-aws.js lines 530-684) is an object literal
    with seven asynchronous functions.  Six of them set the region with
    [handleRegion] (lines 498-504), build a client, await one SDK call inside
    [try] and wrap what they catch; [ping] awaits nothing.  Each handler is
    split at its [await]: [handler_start] runs up to the SDK call and says
    whether the promise is already settled or which call is pending, and
    [handler_finish] takes the SDK's reply to the end of the function.

    The table is read with a computed key, [toolHandlers[toolName]], so the
    lookup [toolHandlers_get] finds the seven own keys first and then the
    twelve members every object literal inherits from [Object.prototype];
    [call_inherited] is what calling such a member with the table as [this]
    and the tool parameters as argument does.

    [parseRelativeTime] (lines 507-527) and [parseInt] are modelled on ASCII
    text; a date is its time value in milliseconds or the invalid date. *)

From S2P Require Import Prelude JsValue.

(** ** Dates *)

Inductive date : Type :=
| Date (ms : Z)
| InvalidDate.

#[export] Instance date_eq_dec : EqDecision date.
Proof. solve_decision. Defined.

(** TimeClip: a time value beyond 8.64e15 ms is the invalid date. *)
Definition max_time : Z := 8640000000000000.

Definition time_clip (t : Z) : date :=
  if Z.abs t <=? max_time then Date t else InvalidDate.

(** ** The SDK boundary *)

(** An argument of an SDK request: a value of the model or a date. *)
Inductive arg : Type :=
| AVal (v : value)
| ADate (d : date).

Record aws_call : Type := AwsCall {
  call_service : string;
  call_operation : string;
  call_region : value;
  call_request : list (string * arg)
}.

(** How a call of an asynchronous handler begins: its promise has settled
    already, or it is pending on an SDK call. *)
Inductive started : Type :=
| Settled (c : completion value)
| Called (call : aws_call).

(** ** handleRegion

    [if (params && params.region) { AWS.config.update({ region:
    params.region }); return params.region; } return AWS.config.region ||
    'us-west-2';].  The result is the region returned and the region of
    [AWS.config] afterwards. *)
Definition handleRegion (params : value) (config_region : value) : value * value :=
  let r := if truthy params then get_opt params "region" else params in
  if truthy r then (r, r)
  else (js_or config_region $"us-west-2", config_region).

(** ** parseInt and parseRelativeTime *)

Definition is_js_space (c : ascii) : bool :=
  let n := nat_of_ascii c in
  (n =? 32)%nat || ((9 <=? n)%nat && (n <=? 13)%nat).

Fixpoint trim_start (s : string) : string :=
  match s with
  | String c s' => if is_js_space c then trim_start s' else s
  | EmptyString => s
  end.

Definition hex_digit_value (c : ascii) : option Z :=
  let n := nat_of_ascii c in
  if is_digit c then Some (Z.of_nat n - 48)
  else if (97 <=? n)%nat && (n <=? 102)%nat then Some (Z.of_nat n - 87)
  else if (65 <=? n)%nat && (n <=? 70)%nat then Some (Z.of_nat n - 55)
  else None.

(** The longest prefix of digits of the radix, as a number; [None] when the
    prefix is empty. *)
Fixpoint radix_prefix (radix : Z) (s : string) (acc : option Z) : option Z :=
  match s with
  | String c s' =>
      match hex_digit_value c with
      | Some d =>
          if d <? radix
          then radix_prefix radix s' (Some (radix * default 0 acc + d))
          else acc
      | None => acc
      end
  | EmptyString => acc
  end.

(** [parseInt(s)] with no radix; [None] is [NaN]. *)
Definition parseInt (s : string) : option Z :=
  let s1 := trim_start s in
  let '(neg, s2) :=
    match s1 with
    | String "-" r => (true, r)
    | String "+" r => (false, r)
    | _ => (false, s1)
    end in
  let '(radix, s3) :=
    match s2 with
    | String "0" (String "x" r) | String "0" (String "X" r) => (16, r)
    | _ => (10, s2)
    end in
  (fun n => if neg then - n else n) <$> radix_prefix radix s3 None.

(** [s.slice(1, -1)] and [s.slice(-1)] on a string. *)
Definition slice_1_m1 (s : string) : string :=
  String.substring 1 (String.length s - 2) s.

Definition slice_m1 (s : string) : string :=
  String.substring (String.length s - 1) 1 s.

Definition starts_with_dash (s : string) : bool :=
  match s with String "-" _ => true | _ => false end.

(** [new Date(now.getTime() - (value * factor))]: arithmetic on [NaN] gives
    the invalid date. *)
Definition date_minus (now : Z) (value : option Z) (factor : Z) : date :=
  match value with
  | Some v => time_clip (now - v * factor)
  | None => InvalidDate
  end.

(** [parseRelativeTime(timeStr)] for a string argument; [None] is the
    [null] result. *)
Definition parseRelativeTime (timeStr : string) (now : Z) : option date :=
  if String.eqb timeStr "" || negb (starts_with_dash timeStr) then None
  else
    let unit := slice_m1 timeStr in
    let value := parseInt (slice_1_m1 timeStr) in
    if String.eqb unit "h" then Some (date_minus now value (60 * 60 * 1000))
    else if String.eqb unit "d" then Some (date_minus now value (24 * 60 * 60 * 1000))
    else if String.eqb unit "m" then Some (date_minus now value (60 * 1000))
    else None.

(** ** The table and its lookup *)

Inductive tool : Type :=
| T_ping
| T_ec2_describeInstances
| T_s3_listBuckets
| T_s3_listObjects
| T_lambda_listFunctions
| T_dynamodb_listTables
| T_cloudwatch_getMetricStatistics.

#[export] Instance tool_eq_dec : EqDecision tool.
Proof. solve_decision. Defined.

(** The own keys of [toolHandlers], in the order of the literal. *)
Definition all_tools : list tool :=
  [ T_ping; T_ec2_describeInstances; T_s3_listBuckets; T_s3_listObjects;
    T_lambda_listFunctions; T_dynamodb_listTables;
    T_cloudwatch_getMetricStatistics ].

Definition tool_key (t : tool) : string :=
  match t with
  | T_ping => "ping"
  | T_ec2_describeInstances => "aws.ec2.describeInstances"
  | T_s3_listBuckets => "aws.s3.listBuckets"
  | T_s3_listObjects => "aws.s3.listObjects"
  | T_lambda_listFunctions => "aws.lambda.listFunctions"
  | T_dynamodb_listTables => "aws.dynamodb.listTables"
  | T_cloudwatch_getMetricStatistics => "aws.cloudwatch.getMetricStatistics"
  end.

Definition handler_keys : list string := map tool_key all_tools.

(** The members of [Object.prototype]. *)
Inductive proto_member : Type :=
| P_constructor
| P_defineGetter
| P_defineSetter
| P_hasOwnProperty
| P_lookupGetter
| P_lookupSetter
| P_isPrototypeOf
| P_propertyIsEnumerable
| P_toString
| P_valueOf
| P_proto
| P_toLocaleString.

#[export] Instance proto_member_eq_dec : EqDecision proto_member.
Proof. solve_decision. Defined.

Definition all_proto_members : list proto_member :=
  [ P_constructor; P_defineGetter; P_defineSetter; P_hasOwnProperty;
    P_lookupGetter; P_lookupSetter; P_isPrototypeOf; P_propertyIsEnumerable;
    P_toString; P_valueOf; P_proto; P_toLocaleString ].

Definition proto_member_key (m : proto_member) : string :=
  match m with
  | P_constructor => "constructor"
  | P_defineGetter => "__defineGetter__"
  | P_defineSetter => "__defineSetter__"
  | P_hasOwnProperty => "hasOwnProperty"
  | P_lookupGetter => "__lookupGetter__"
  | P_lookupSetter => "__lookupSetter__"
  | P_isPrototypeOf => "isPrototypeOf"
  | P_propertyIsEnumerable => "propertyIsEnumerable"
  | P_toString => "toString"
  | P_valueOf => "valueOf"
  | P_proto => "__proto__"
  | P_toLocaleString => "toLocaleString"
  end.

(** What a key of the table evaluates to: an own handler, or a member
    inherited from [Object.prototype]. *)
Inductive handler_ref : Type :=
| Own (t : tool)
| Inherited (m : proto_member).

(** [toolHandlers[key]]; [None] is [undefined].  Every other result is
    truthy: the own properties are functions, the inherited ones are
    functions or, for [__proto__], the prototype object. *)
Definition toolHandlers_get (key : string) : option handler_ref :=
  match find (fun t => String.eqb (tool_key t) key) all_tools with
  | Some t => Some (Own t)
  | None =>
      Inherited <$>
        find (fun m => String.eqb (proto_member_key m) key) all_proto_members
  end.

Definition not_a_function (callee : string) : string := callee +:+ " is not a function".

(** [toolHandlers[key](toolParams)] for an inherited member, by the
    definition of each function in ECMAScript (sections 20.1.3 and B.2.2)
    with the table as [this].  [constructor] is [Object], which returns its
    argument (a primitive comes back boxed, and [JSON.stringify] unboxes it).
    [valueOf] returns the table itself, whose properties are all functions,
    which [JSON.stringify] leaves out: it serializes as the empty object, and
    serializing it is all the caller does.  [__lookupGetter__] and
    [__lookupSetter__] return [undefined] or, for the key [__proto__], a
    function, which serializes as [undefined] does.  [__proto__] is the
    prototype object, not a function. *)
Definition call_inherited (m : proto_member) (toolParams : value) : completion value :=
  match m with
  | P_constructor => Normal toolParams
  | P_toString | P_toLocaleString => Normal $"[object Object]"
  | P_valueOf => Normal {{ }}
  | P_hasOwnProperty | P_propertyIsEnumerable =>
      key ← to_string toolParams;
      Normal (VBool (existsb (String.eqb key) handler_keys))
  | P_isPrototypeOf => Normal (VBool false)
  | P_lookupGetter | P_lookupSetter => _ ← to_string toolParams; Normal VUndefined
  | P_defineGetter => Throw "Object.prototype.__defineGetter__: Expecting function"
  | P_defineSetter => Throw "Object.prototype.__defineSetter__: Expecting function"
  | P_proto => Throw (not_a_function "toolHandlers[toolName]")
  end.

(** ** The handlers *)

(** [result.Reservations.reduce((count, reservation) => count +
    reservation.Instances.length, 0)].  The sum stays in the model as long as
    every length read is a number. *)
Fixpoint count_instances (reservations : list value) (count : Z) : completion Z :=
  match reservations with
  | [] => Normal count
  | reservation :: rest =>
      instances ← get_prop reservation "Instances";
      len ← get_prop instances "length";
      match len with
      | VNum n => count_instances rest (count + n)
      | _ => Unmodelled
      end
  end.

Definition reduce_instances (reservations : value) : completion value :=
  match reservations with
  | VUndefined => Throw (read_error "undefined" "reduce")
  | VNull => Throw (read_error "null" "reduce")
  | VArr xs => VNum <$> count_instances xs 0
  | _ => Throw (not_a_function "result.Reservations.reduce")
  end.

(** [new Date(v)]; [date_parse] is the engine's [Date.parse].  An array or
    an object is converted to a string first. *)
Definition new_Date (date_parse : string -> date) (v : value) : completion date :=
  match v with
  | VNum n => Normal (time_clip n)
  | VBool b => Normal (Date (if b then 1 else 0))
  | VNull => Normal (Date 0)
  | VUndefined => Normal InvalidDate
  | VStr s => Normal (date_parse s)
  | VArr _ | VObj _ => date_parse <$> to_string v
  end.

Definition arg_of_date (d : option date) : arg :=
  match d with Some d => ADate d | None => AVal VNull end.

(** The [startTime] expression of the CloudWatch handler:
    [params.startTime ? (params.startTime.startsWith('-') ?
    parseRelativeTime(params.startTime) : new Date(params.startTime)) : new
    Date(Date.now() - (3600 * 1000))].  Only a string has [startsWith]. *)
Definition start_time (date_parse : string -> date) (now : Z) (startTime : value)
  : completion (option date) :=
  if truthy startTime then
    match startTime with
    | VStr s =>
        if starts_with_dash s then Normal (parseRelativeTime s now)
        else Some <$> new_Date date_parse startTime
    | _ => Throw (not_a_function "params.startTime.startsWith")
    end
  else Normal (Some (time_clip (now - 3600 * 1000))).

(** The [endTime] expression: [params.endTime ? new Date(params.endTime) :
    new Date()]. *)
Definition end_time (date_parse : string -> date) (now : Z) (endTime : value)
  : completion date :=
  if truthy endTime then new_Date date_parse endTime else Normal (Date now).

(** [try { c } catch (error) { throw new Error(`prefix${error.message}`) }]. *)
Definition wrap_error {A} (prefix : string) (c : completion A) : completion A :=
  try_catch c (fun m => Throw (prefix +:+ m)).

(** An asynchronous function that reaches its SDK call is pending on it; one
    that throws first has settled. *)
Definition begin (c : completion aws_call) : started :=
  match c with
  | Normal call => Called call
  | Throw m => Settled (Throw m)
  | Unmodelled => Settled Unmodelled
  end.

Record start_result : Type := StartResult {
  config_region_after : value;
  handler_region : value;
  handler_started : started
}.

Definition in_region (params config_region : value)
    (body : value -> completion aws_call) : start_result :=
  let '(region, config_region') := handleRegion params config_region in
  StartResult config_region' region (begin (body region)).

Definition pong : value := {{ "result" ↦ $"pong" }}.

(** The part of a handler before its [await]: the region of [AWS.config]
    afterwards, the region the handler goes on with, and how the call
    begins.  [date_parse] is the engine's [Date.parse] and [now] the clock. *)
Definition handler_start (date_parse : string -> date) (t : tool)
    (params : value) (now : Z) (config_region : value) : start_result :=
  match t with
  | T_ping => StartResult config_region VUndefined (Settled (Normal pong))
  | T_ec2_describeInstances =>
      in_region params config_region (fun region =>
        wrap_error "EC2 Error: "
          (filters ← get_prop params "filters";
           Normal (AwsCall "EC2" "describeInstances" region
                     [("Filters", AVal (js_or filters (VArr [])))])))
  | T_s3_listBuckets =>
      in_region params config_region (fun region =>
        Normal (AwsCall "S3" "listBuckets" region []))
  | T_s3_listObjects =>
      in_region params config_region (fun region =>
        bucket ← get_prop params "bucket";
        if negb (truthy bucket) then Throw "Bucket name is required"
        else
          wrap_error "S3 Error: "
            (bucket' ← get_prop params "bucket";
             prefix ← get_prop params "prefix";
             prefix' ← get_prop params "prefix";
             Normal (AwsCall "S3" "listObjectsV2" region
                       (("Bucket", AVal bucket') ::
                        if truthy prefix then [("Prefix", AVal prefix')] else []))))
  | T_lambda_listFunctions =>
      in_region params config_region (fun region =>
        Normal (AwsCall "Lambda" "listFunctions" region []))
  | T_dynamodb_listTables =>
      in_region params config_region (fun region =>
        Normal (AwsCall "DynamoDB" "listTables" region []))
  | T_cloudwatch_getMetricStatistics =>
      in_region params config_region (fun region =>
        namespace ← get_prop params "namespace";
        if negb (truthy namespace) then Throw "Namespace is required"
        else
          metricName ← get_prop params "metricName";
          if negb (truthy metricName) then Throw "Metric name is required"
          else
            wrap_error "CloudWatch Error: "
              (startTime ← get_prop params "startTime" ≫= start_time date_parse now;
               endTime ← get_prop params "endTime" ≫= end_time date_parse now;
               namespace' ← get_prop params "namespace";
               metricName' ← get_prop params "metricName";
               dimensions ← get_prop params "dimensions";
               period ← get_prop params "period";
               statistics ← get_prop params "statistics";
               Normal (AwsCall "CloudWatch" "getMetricStatistics" region
                         [ ("Namespace", AVal namespace');
                           ("MetricName", AVal metricName');
                           ("Dimensions", AVal (js_or dimensions (VArr [])));
                           ("StartTime", arg_of_date startTime);
                           ("EndTime", ADate endTime);
                           ("Period", AVal (js_or period #300));
                           ("Statistics",
                            AVal (js_or statistics (VArr [$"Average"]))) ])))
  end.

(** The part of a handler after its [await], given the region it computed,
    its parameters and the SDK's reply (a result, or the message of the error
    the promise rejected with). *)
Definition handler_finish (t : tool) (region params : value) (reply : completion value)
  : completion value :=
  match t with
  | T_ping => Normal pong
  | T_ec2_describeInstances =>
      wrap_error "EC2 Error: "
        (result ← reply;
         reservations ← get_prop result "Reservations";
         reservations' ← get_prop result "Reservations";
         instanceCount ← reduce_instances reservations';
         Normal {{ "result" ↦ {{ "region" ↦ region;
                      "reservations" ↦ reservations;
                      "instanceCount" ↦ instanceCount }} }})
  | T_s3_listBuckets =>
      wrap_error "S3 Error: "
        (result ← reply;
         buckets ← get_prop result "Buckets";
         Normal {{ "result" ↦ {{ "region" ↦ region; "buckets" ↦ buckets }} }})
  | T_s3_listObjects =>
      wrap_error "S3 Error: "
        (result ← reply;
         bucket ← get_prop params "bucket";
         prefix ← get_prop params "prefix";
         objects ← get_prop result "Contents";
         count ← get_prop result "KeyCount";
         Normal {{ "result" ↦ {{ "region" ↦ region;
                      "bucket" ↦ bucket;
                      "prefix" ↦ js_or prefix $"";
                      "objects" ↦ objects;
                      "count" ↦ count }} }})
  | T_lambda_listFunctions =>
      wrap_error "Lambda Error: "
        (result ← reply;
         functions ← get_prop result "Functions";
         Normal {{ "result" ↦ {{ "region" ↦ region; "functions" ↦ functions }} }})
  | T_dynamodb_listTables =>
      wrap_error "DynamoDB Error: "
        (result ← reply;
         tables ← get_prop result "TableNames";
         Normal {{ "result" ↦ {{ "region" ↦ region; "tables" ↦ tables }} }})
  | T_cloudwatch_getMetricStatistics =>
      wrap_error "CloudWatch Error: "
        (result ← reply;
         namespace ← get_prop params "namespace";
         metricName ← get_prop params "metricName";
         datapoints ← get_prop result "Datapoints";
         label ← get_prop result "Label";
         Normal {{ "result" ↦ {{ "region" ↦ region;
                      "namespace" ↦ namespace;
                      "metricName" ↦ metricName;
                      "datapoints" ↦ datapoints;
                      "label" ↦ label }} }})
  end.

(** * Properties *)

(** ** The region *)

Lemma js_or_of_truthy x y : truthy x = true -> js_or x y = x.
Proof. unfold js_or. by intros ->. Qed.

Lemma handleRegion_given params config_region :
  truthy params = true -> truthy (get_opt params "region") = true ->
  handleRegion params config_region = (get_opt params "region", get_opt params "region").
Proof. unfold handleRegion. by intros -> ->. Qed.

Lemma handleRegion_absent params config_region :
  truthy (get_opt params "region") = false ->
  handleRegion params config_region = (js_or config_region $"us-west-2", config_region).
Proof.
  unfold handleRegion. intros Hr. destruct (truthy params) eqn:Hp; [by rewrite Hr|].
  by rewrite Hp.
Qed.

(** The region a handler goes on with is never empty, and what
    [handleRegion] leaves in [AWS.config] is the region of the request when
    it names one and what was there before when it does not. *)
Theorem handleRegion_truthy params config_region :
  truthy (handleRegion params config_region).1 = true /\
  (handleRegion params config_region).2 =
    (if truthy params && truthy (get_opt params "region")
     then get_opt params "region" else config_region).
Proof.
  unfold handleRegion. destruct (truthy params) eqn:Hp; simpl.
  - destruct (truthy (get_opt params "region")) eqn:Hr; simpl; [done|].
    split; [|done]. by apply js_or_truthy.
  - rewrite Hp. simpl. split; [|done]. by apply js_or_truthy.
Qed.

(** C36: the region is sticky: once a request has named a region, a later
    request that names none is served in that region. *)
Theorem region_sticky first later config_region :
  truthy first = true ->
  truthy (get_opt first "region") = true ->
  truthy (get_opt later "region") = false ->
  (handleRegion later (handleRegion first config_region).2).1 = get_opt first "region".
Proof.
  intros Hp Hr Hl. rewrite (handleRegion_given _ _ Hp Hr), (handleRegion_absent _ _ Hl).
  by apply js_or_of_truthy.
Qed.

Lemma region_sticky_witness :
  (handleRegion {{ }} (handleRegion {{ "region" ↦ $"eu-west-1" }} $"us-west-2").2).1
  = $"eu-west-1".
Proof. by apply (region_sticky {{ "region" ↦ $"eu-west-1" }} {{ }} $"us-west-2"). Defined.

(** C35: every handler but [ping] starts with [handleRegion]: the region it
    leaves in [AWS.config] and the region it goes on with are those of
    [handleRegion], whether or not the parameters pass the handler's own
    checks afterwards. *)
Theorem handler_start_region date_parse t params now config_region :
  t <> T_ping ->
  let r := handler_start date_parse t params now config_region in
  (handler_region r, config_region_after r) = handleRegion params config_region.
Proof.
  intros Ht. destruct t; try done; simpl; unfold in_region;
    by destruct (handleRegion params config_region).
Qed.

Lemma handler_start_region_witness :
  let r := handler_start (fun _ => InvalidDate) T_s3_listObjects
             {{ "region" ↦ $"eu-west-1" }} 0 $"us-west-2" in
  (handler_region r, config_region_after r) = ($"eu-west-1", $"eu-west-1") /\
  handler_started r = Settled (Throw "Bucket name is required").
Proof.
  split; [|done].
  by apply (handler_start_region (fun _ => InvalidDate) T_s3_listObjects
              {{ "region" ↦ $"eu-west-1" }} 0 $"us-west-2").
Defined.

(** ** Errors of the SDK *)

(** The prefix each handler puts before the message of what it catches. *)
Definition error_prefix (t : tool) : string :=
  match t with
  | T_ping => ""
  | T_ec2_describeInstances => "EC2 Error: "
  | T_s3_listBuckets | T_s3_listObjects => "S3 Error: "
  | T_lambda_listFunctions => "Lambda Error: "
  | T_dynamodb_listTables => "DynamoDB Error: "
  | T_cloudwatch_getMetricStatistics => "CloudWatch Error: "
  end.

(** C37: when the SDK call of a handler is rejected, the handler rejects
    with the service's prefix before the SDK's message, and nothing else of
    the error. *)
Theorem sdk_error_wrapped t region params message :
  t <> T_ping ->
  handler_finish t region params (Throw message) = Throw (error_prefix t +:+ message).
Proof. intros Ht. by destruct t. Qed.

Lemma sdk_error_wrapped_witness :
  handler_finish T_s3_listBuckets $"us-west-2" {{ }} (Throw "Access Denied")
  = Throw "S3 Error: Access Denied".
Proof. by apply (sdk_error_wrapped T_s3_listBuckets). Defined.

(** ** The table *)

Lemma toolHandlers_get_tool_key t : toolHandlers_get (tool_key t) = Some (Own t).
Proof. by destruct t. Qed.

Lemma toolHandlers_get_proto_key m : toolHandlers_get (proto_member_key m) = Some (Inherited m).
Proof. by destruct m. Qed.

(** The table as the source has it, key by key: the seven properties of
    the literal (lines 531, 535, 555, 572, 604, 621 and 638), then what an
    object literal inherits from [Object.prototype]. *)
Definition handler_table : list (string * handler_ref) :=
  [ ("ping", Own T_ping);
    ("aws.ec2.describeInstances", Own T_ec2_describeInstances);
    ("aws.s3.listBuckets", Own T_s3_listBuckets);
    ("aws.s3.listObjects", Own T_s3_listObjects);
    ("aws.lambda.listFunctions", Own T_lambda_listFunctions);
    ("aws.dynamodb.listTables", Own T_dynamodb_listTables);
    ("aws.cloudwatch.getMetricStatistics", Own T_cloudwatch_getMetricStatistics);
    ("constructor", Inherited P_constructor);
    ("__defineGetter__", Inherited P_defineGetter);
    ("__defineSetter__", Inherited P_defineSetter);
    ("hasOwnProperty", Inherited P_hasOwnProperty);
    ("__lookupGetter__", Inherited P_lookupGetter);
    ("__lookupSetter__", Inherited P_lookupSetter);
    ("isPrototypeOf", Inherited P_isPrototypeOf);
    ("propertyIsEnumerable", Inherited P_propertyIsEnumerable);
    ("toString", Inherited P_toString);
    ("valueOf", Inherited P_valueOf);
    ("__proto__", Inherited P_proto);
    ("toLocaleString", Inherited P_toLocaleString) ].

(** C38: [toolHandlers[key]] is the entry of the table written out above:
    a handler of its own for each of the seven names of the literal, by
    exactly that name, an inherited member for each of the twelve names of
    [Object.prototype], and [undefined] for every other key. *)
Theorem toolHandlers_get_spec key : toolHandlers_get key = alookup key handler_table.
Proof.
  unfold toolHandlers_get, handler_table. cbn -[String.eqb].
  repeat (case_string_eqb; [by subst|]). done.
Qed.

(** ** Relative times *)

Lemma substring_0_app s r : substring 0 (String.length s) (s +:+ r) = s.
Proof. induction s as [|c s IH]; simpl; [by destruct r|by rewrite IH]. Qed.

Lemma substring_last s u :
  substring (String.length s) 1 (s +:+ String u "") = String u "".
Proof. induction s as [|c s IH]; [done|]. exact IH. Qed.

Lemma slices_of_relative d u :
  slice_m1 (String "-" (d +:+ String u "")) = String u "" /\
  slice_1_m1 (String "-" (d +:+ String u "")) = d.
Proof.
  unfold slice_m1, slice_1_m1. cbn [String.length]. rewrite string_app_length.
  cbn [String.length]. replace (S (String.length d + 1) - 1)%nat with (S (String.length d)) by lia.
  replace (S (String.length d + 1) - 2)%nat with (String.length d) by lia.
  split; [apply substring_last | apply substring_0_app].
Qed.

Lemma radix_digit c s acc :
  is_digit c = true ->
  radix_prefix 10 (String c s) acc =
  radix_prefix 10 s (Some (10 * default 0 acc + digit_value c)).
Proof.
  intros Hc. cbn [radix_prefix]. unfold hex_digit_value. rewrite Hc.
  apply is_digit_range in Hc. unfold digit_value in *.
  by destruct (Z.ltb_spec (Z.of_nat (nat_of_ascii c) - 48) 10); [|lia].
Qed.

Lemma radix_prefix_pretty x :
  (0 < x)%N -> radix_prefix 10 (pretty_N_go x "") None = Some (Z.of_N x).
Proof.
  intros Hx. destruct (pretty_N_go_head x "" Hx) as (c & t & Heq & Hc & _).
  transitivity (radix_prefix 10 (pretty_N_go x "") (Some 0)).
  { rewrite Heq. by rewrite !radix_digit. }
  rewrite (pretty_N_go_scan (fun s acc => radix_prefix 10 s (Some acc))); [done|].
  intros c' s acc Hc'. by rewrite radix_digit.
Qed.

Lemma parseInt_digit c t r :
  is_digit c = true -> c <> "0"%char ->
  radix_prefix 10 (String c t) None = Some r -> parseInt (String c t) = Some r.
Proof.
  intros Hc H0 Hr.
  destruct c as [[] [] [] [] [] [] [] []]; vm_compute in Hc; try done;
    match goal with
    | |- parseInt (String ?c t) = _ =>
        change (parseInt (String c t))
          with ((fun n : Z => n) <$> radix_prefix 10 (String c t) None)
    end; by rewrite Hr.
Qed.

(** [parseInt] reads the decimal numeral of a natural number as the number. *)
Lemma parseInt_pretty n : 0 <= n -> parseInt (pretty n) = Some n.
Proof.
  intros Hn. rewrite pretty_Z_nonneg by done. destruct (decide (n = 0)) as [->|H0]; [done|].
  destruct (pretty_N_go_head (Z.to_N n) "") as (c & t & Heq & Hc & Hz); [lia|].
  pose proof (radix_prefix_pretty (Z.to_N n) ltac:(lia)) as Hr.
  rewrite Heq in *. rewrite Z2N.id in Hr by done. by apply parseInt_digit.
Qed.

(** The milliseconds in a unit of relative time. *)
Definition unit_factor (u : ascii) : option Z :=
  if Ascii.eqb u "h" then Some (60 * 60 * 1000)
  else if Ascii.eqb u "d" then Some (24 * 60 * 60 * 1000)
  else if Ascii.eqb u "m" then Some (60 * 1000)
  else None.

(** C24: [parseRelativeTime] on a dash, a decimal number [n] and a unit is
    the clock minus [n] hours, days or minutes for the units h, d and m, and
    null for any other unit. *)
Theorem parseRelativeTime_spec n u now :
  0 <= n ->
  parseRelativeTime (String "-" (pretty n +:+ String u "")) now =
  (fun factor => time_clip (now - n * factor)) <$> unit_factor u.
Proof.
  intros Hn. unfold parseRelativeTime, unit_factor.
  destruct (slices_of_relative (pretty n) u) as [-> ->]. rewrite parseInt_pretty by done.
  cbn [String.eqb starts_with_dash orb negb].
  repeat (destruct (Ascii.eqb u _); [done|]). done.
Qed.

Lemma parseRelativeTime_spec_witness :
  parseRelativeTime "-3h" 10800000 = Some (Date 0) /\
  parseRelativeTime "-2w" 10800000 = None.
Proof.
  split.
  - apply (parseRelativeTime_spec 3 "h" 10800000). lia.
  - apply (parseRelativeTime_spec 2 "w" 10800000). lia.
Defined.

(** Without a number the result is an invalid date, not null. *)
Lemma parseRelativeTime_no_number now : parseRelativeTime "-h" now = Some InvalidDate.
Proof. reflexivity. Qed.

(** ** What the handlers compute *)

(** The reducer of [describeInstances] adds the numbers of instances of the
    reservations to the count it is given. *)
Lemma count_instances_total reservations instances count :
  Forall2 (fun r ins => get_prop r "Instances" = Normal (VArr ins)) reservations instances ->
  count_instances reservations count =
  Normal (count + Z.of_nat (length (concat instances))).
Proof.
  intros H. revert count. induction H as [|r ins rs inss Hr _ IH]; intros count; simpl.
  { f_equal. lia. }
  rewrite Hr. simpl. rewrite IH, length_app. f_equal. lia.
Qed.

(** C30: the [instanceCount] that [aws.ec2.describeInstances] reports is the
    total number of instances over all reservations of the SDK's reply, and
    the reservations are passed on as they came, under the region the
    handler computed. *)
Theorem ec2_counts_instances region params result reservations instances :
  get_prop result "Reservations" = Normal (VArr reservations) ->
  Forall2 (fun r ins => get_prop r "Instances" = Normal (VArr ins)) reservations instances ->
  handler_finish T_ec2_describeInstances region params (Normal result) =
  Normal {{ "result" ↦
            {{ "region" ↦ region;
               "reservations" ↦ VArr reservations;
               "instanceCount" ↦ #(Z.of_nat (length (concat instances))) }} }}.
Proof.
  intros Hr Hi. cbn [handler_finish]. unfold wrap_error. cbn [mbind completion_bind].
  rewrite Hr. cbn. by rewrite (count_instances_total _ _ _ Hi).
Qed.

Lemma ec2_counts_instances_witness :
  handler_finish T_ec2_describeInstances $"us-west-2" {{ }}
    (Normal {{ "Reservations" ↦ VArr
                 [ {{ "Instances" ↦ VArr [ $"i-1"; $"i-2" ] }};
                   {{ "Instances" ↦ VArr [ $"i-3" ] }} ] }}) =
  Normal {{ "result" ↦
            {{ "region" ↦ $"us-west-2";
               "reservations" ↦ VArr
                 [ {{ "Instances" ↦ VArr [ $"i-1"; $"i-2" ] }};
                   {{ "Instances" ↦ VArr [ $"i-3" ] }} ];
               "instanceCount" ↦ #3 }} }}.
Proof.
  apply (ec2_counts_instances _ _ _ _ [[ $"i-1"; $"i-2" ]; [ $"i-3" ]]); [done|].
  by repeat constructor.
Defined.

(** A time value is a date. *)
Lemma time_clip_valid t : Z.abs t <= max_time -> time_clip t = Date t.
Proof. unfold time_clip. intros Ht. by rewrite (proj2 (Z.leb_le _ _) Ht). Qed.

(** A relative start time within the range of time values. *)
Lemma start_time_relative date_parse now n u factor :
  0 <= n -> unit_factor u = Some factor -> Z.abs (now - n * factor) <= max_time ->
  start_time date_parse now (VStr (String "-" (pretty n +:+ String u ""))) =
  Normal (Some (Date (now - n * factor))).
Proof.
  intros Hn Hu Ht. unfold start_time, parseRelativeTime, unit_factor in *.
  destruct (slices_of_relative (pretty n) u) as [-> ->]. rewrite parseInt_pretty by done.
  cbn [truthy String.eqb starts_with_dash orb negb].
  repeat (destruct (Ascii.eqb u _);
          [simplify_eq; cbn [date_minus]; by rewrite time_clip_valid|]).
  done.
Qed.

(** C25: the window of [aws.cloudwatch.getMetricStatistics].  With a
    namespace, a metric name, a relative start time [-<n><unit>] and no end
    time, the handler asks CloudWatch for the statistics from [n] units
    before the clock up to the clock, a window that is never empty or
    inverted, with the defaults of the source for what the request leaves
    out: no dimensions, a period of 300 seconds, the average. *)
Theorem cloudwatch_window date_parse params now config_region n u factor :
  nullish params = false ->
  truthy (get_opt params "namespace") = true ->
  truthy (get_opt params "metricName") = true ->
  get_opt params "startTime" = VStr (String "-" (pretty n +:+ String u "")) ->
  truthy (get_opt params "endTime") = false ->
  0 <= n -> unit_factor u = Some factor ->
  Z.abs (now - n * factor) <= max_time ->
  handler_started
    (handler_start date_parse T_cloudwatch_getMetricStatistics params now config_region) =
  Called (AwsCall "CloudWatch" "getMetricStatistics" (handleRegion params config_region).1
            [ ("Namespace", AVal (get_opt params "namespace"));
              ("MetricName", AVal (get_opt params "metricName"));
              ("Dimensions", AVal (js_or (get_opt params "dimensions") (VArr [])));
              ("StartTime", ADate (Date (now - n * factor)));
              ("EndTime", ADate (Date now));
              ("Period", AVal (js_or (get_opt params "period") #300));
              ("Statistics", AVal (js_or (get_opt params "statistics") (VArr [$"Average"]))) ])
  /\ now - n * factor <= now.
Proof.
  intros Hp Hns Hm Hs He Hn Hu Ht.
  assert (0 < factor) as Hf.
  { unfold unit_factor in Hu. repeat case_match; by simplify_eq. }
  split; [|nia].
  cbn [handler_start]. unfold in_region. destruct (handleRegion _ _) as [region cfg].
  cbn [handler_started fst]. rewrite !(get_prop_not_nullish _ _ Hp), Hs.
  cbn [mbind completion_bind]. rewrite Hns, Hm. cbn [negb].
  rewrite (start_time_relative _ _ _ _ _ Hn Hu Ht). unfold end_time. by rewrite He.
Qed.

Lemma cloudwatch_window_witness :
  handler_started
    (handler_start (fun _ => InvalidDate) T_cloudwatch_getMetricStatistics
       {{ "namespace" ↦ $"AWS/EC2"; "metricName" ↦ $"CPUUtilization";
          "startTime" ↦ $"-3h" }} 10800000 $"us-west-2") =
  Called (AwsCall "CloudWatch" "getMetricStatistics" $"us-west-2"
            [ ("Namespace", AVal $"AWS/EC2");
              ("MetricName", AVal $"CPUUtilization");
              ("Dimensions", AVal (VArr []));
              ("StartTime", ADate (Date 0));
              ("EndTime", ADate (Date 10800000));
              ("Period", AVal #300);
              ("Statistics", AVal (VArr [$"Average"])) ]).
Proof.
  by apply (cloudwatch_window (fun _ => InvalidDate)
              {{ "namespace" ↦ $"AWS/EC2"; "metricName" ↦ $"CPUUtilization";
                 "startTime" ↦ $"-3h" }} 10800000 $"us-west-2" 3 "h" 3600000).
Defined.
