(* ===== verification/Effects.v ===== *)
(** * Effects of the server: state, exceptions and their laws

    The program keeps three pieces of process-wide state: the region of
    [AWS.config] (set at line 31 and by [handleRegion]), the lines written to
    standard output by [console.log], and the messages appended to the log
    file by [log] (src/mcp-server-aws.js lines 18-22).  Its statements also
    throw.  [M] is the state-and-exception monad that carries both, with
    the equations of its operations, which the tactic [run] uses to execute
    a computation symbolically.  Three properties of computations are
    closed under the operations and proved by a tactic of their own:
    [monotone] (output and log only grow), [preserves] (an invariant of the
    state is kept) and [local] (the computation reads nothing but the
    region); [similar] relates states that differ in the order of what was
    written. *)

From S2P Require Import Prelude JsValue JsonText.

(** ** State and effects *)

Record state : Type := State {
  config_region : value;
  output : list string;
  logged : list string
}.

(** A computation of the callback: it changes the state and returns or
    throws. *)
Definition M (A : Type) : Type := state -> state * completion A.

#[export] Instance M_ret : MRet M := fun _ a st => (st, Normal a).

#[export] Instance M_bind : MBind M := fun _ _ f m st =>
  match m st with
  | (st', Normal a) => f a st'
  | (st', Throw e) => (st', Throw e)
  | (st', Unmodelled) => (st', Unmodelled)
  end.

#[export] Instance M_fmap : FMap M := fun _ _ f m st =>
  match m st with
  | (st', c) => (st', f <$> c)
  end.

(** A pure computation that may throw. *)
Definition lift {A} (c : completion A) : M A := fun st => (st, c).

(** [try { m } catch (error) { h error.message }]. *)
Definition catch {A} (m : M A) (h : string -> M A) : M A := fun st =>
  match m st with
  | (st', Throw e) => h e st'
  | r => r
  end.

(** [log(message)]: the message is appended to the log file behind a
    timestamp, which is left out here. *)
Definition log (message : string) : M unit := fun st =>
  (State (config_region st) (output st) (logged st ++ [message]), Normal tt).

(** [console.log(line)]. *)
Definition console_log (line : string) : M unit := fun st =>
  (State (config_region st) (output st ++ [line]) (logged st), Normal tt).

Definition get_region : M value := fun st => (st, Normal (config_region st)).

Definition with_region (r : value) (st : state) : state :=
  State r (output st) (logged st).

Definition set_region (r : value) : M unit := fun st => (with_region r st, Normal tt).

#[global] Arguments log : simpl never.
#[global] Arguments console_log : simpl never.

(** Symbolic execution: unfold the glue of the monad and compute, leaving
    the operations folded. *)
Ltac run := cbv [mbind M_bind mret M_ret lift catch fmap M_fmap]; cbn.

(** [emit logs lines st] is [st] with the messages [logs] logged and the
    lines [lines] written, in this order. *)
Definition emit (logs lines : list string) (st : state) : state :=
  State (config_region st) (output st ++ lines) (logged st ++ logs).

(** ** Equations of the operations *)

Section laws.
Context {A B : Type}.
Implicit Types (st : state) (m : M A) (f : A -> M B).

Lemma run_ret (a : A) st : mret (M := M) a st = (st, Normal a).
Proof. reflexivity. Qed.

Lemma run_bind m f st :
  (m ≫= f) st =
  match m st with
  | (st', Normal a) => f a st'
  | (st', Throw e) => (st', Throw e)
  | (st', Unmodelled) => (st', Unmodelled)
  end.
Proof. reflexivity. Qed.

Lemma run_bind_normal m f st st' a : m st = (st', Normal a) -> (m ≫= f) st = f a st'.
Proof. intros H. by rewrite run_bind, H. Qed.

Lemma run_bind_throw m f st st' e : m st = (st', Throw e) -> (m ≫= f) st = (st', Throw e).
Proof. intros H. by rewrite run_bind, H. Qed.

Lemma run_bind_unmodelled m f st :
  (m st).2 = Unmodelled -> ((m ≫= f) st).2 = Unmodelled.
Proof. unfold mbind, M_bind. by destruct (m st) as [? [?|?|]]. Qed.

Lemma run_lift (c : completion A) st : lift c st = (st, c).
Proof. reflexivity. Qed.

Lemma run_bind_lift_normal (a : A) f st : (lift (Normal a) ≫= f) st = f a st.
Proof. reflexivity. Qed.

Lemma run_bind_lift (c : completion A) f st :
  (lift c ≫= f) st =
  match c with
  | Normal a => f a st
  | Throw e => (st, Throw e)
  | Unmodelled => (st, Unmodelled)
  end.
Proof. rewrite run_bind, run_lift. by destruct c. Qed.

Lemma run_catch_normal m (h : string -> M A) st st' a :
  m st = (st', Normal a) -> catch m h st = (st', Normal a).
Proof. unfold catch. by intros ->. Qed.

Lemma run_catch_throw m (h : string -> M A) st st' e :
  m st = (st', Throw e) -> catch m h st = h e st'.
Proof. unfold catch. by intros ->. Qed.

Lemma run_catch_unmodelled m (h : string -> M A) st st' :
  m st = (st', Unmodelled) -> catch m h st = (st', Unmodelled).
Proof. unfold catch. by intros ->. Qed.

End laws.

Lemma run_log message st : log message st = (emit [message] [] st, Normal tt).
Proof. unfold log, emit. by rewrite app_nil_r. Qed.

Lemma run_console_log line st : console_log line st = (emit [] [line] st, Normal tt).
Proof. unfold console_log, emit. by rewrite app_nil_r. Qed.

Lemma emit_emit logs1 lines1 logs2 lines2 st :
  emit logs2 lines2 (emit logs1 lines1 st) = emit (logs1 ++ logs2) (lines1 ++ lines2) st.
Proof. unfold emit. simpl. by rewrite <- !app_assoc. Qed.

Lemma with_region_emit r logs lines st :
  with_region r (emit logs lines st) = emit logs lines (with_region r st).
Proof. reflexivity. Qed.

Lemma with_region_same st : with_region (config_region st) st = st.
Proof. by destruct st. Qed.

Lemma emit_nil st : emit [] [] st = st.
Proof. destruct st. unfold emit. simpl. by rewrite !app_nil_r. Qed.

Lemma config_region_emit logs lines st : config_region (emit logs lines st) = config_region st.
Proof. reflexivity. Qed.

Lemma output_emit logs lines st : output (emit logs lines st) = (output st ++ lines)%list.
Proof. reflexivity. Qed.

Lemma logged_emit logs lines st : logged (emit logs lines st) = (logged st ++ logs)%list.
Proof. reflexivity. Qed.

(** The monad laws, pointwise. *)
Lemma M_bind_ret_l {A B} (a : A) (f : A -> M B) st : (mret a ≫= f) st = f a st.
Proof. reflexivity. Qed.

Lemma M_bind_ret_r {A} (m : M A) st : (m ≫= mret) st = m st.
Proof. rewrite run_bind. by destruct (m st) as [st' []]. Qed.

Lemma M_bind_assoc {A B C} (m : M A) (f : A -> M B) (g : B -> M C) st :
  ((m ≫= f) ≫= g) st = (m ≫= fun a => f a ≫= g) st.
Proof. rewrite !run_bind. by destruct (m st) as [st' []]. Qed.

(** ** What a computation leaves behind *)

(** [writes m st l] : run from [st], [m] appends exactly the lines [l] to
    the output. *)
Definition writes {A} (m : M A) (st : state) (l : list string) : Prop :=
  output (m st).1 = (output st ++ l)%list.

(** The output and the log only grow. *)
Definition extends (st st' : state) : Prop :=
  output st `prefix_of` output st' /\ logged st `prefix_of` logged st'.

#[export] Instance extends_preorder : PreOrder extends.
Proof.
  split.
  - intros st. by split.
  - intros st1 st2 st3 [H1 H1'] [H2 H2']. split; by etrans.
Qed.

Definition monotone {A} (m : M A) : Prop := forall st, extends st (m st).1.

Section monotone.
Context {A B : Type}.

Lemma monotone_ret (a : A) : monotone (mret a).
Proof. intros st. reflexivity. Qed.

Lemma monotone_lift (c : completion A) : monotone (lift c).
Proof. intros st. reflexivity. Qed.

Lemma monotone_bind (m : M A) (f : A -> M B) :
  monotone m -> (forall a, monotone (f a)) -> monotone (m ≫= f).
Proof.
  intros Hm Hf st. rewrite run_bind. specialize (Hm st).
  destruct (m st) as [st' [a|e|]]; simpl in *; [|done..].
  etrans; [exact Hm | apply Hf].
Qed.

Lemma monotone_catch (m : M A) (h : string -> M A) :
  monotone m -> (forall e, monotone (h e)) -> monotone (catch m h).
Proof.
  intros Hm Hh st. unfold catch. specialize (Hm st).
  destruct (m st) as [st' [a|e|]]; simpl in *; [done| |done].
  etrans; [exact Hm | apply Hh].
Qed.

Lemma monotone_fmap (g : A -> B) (m : M A) : monotone m -> monotone (g <$> m).
Proof.
  intros Hm st. specialize (Hm st). unfold fmap, M_fmap.
  by destruct (m st) as [st' [a|e|]].
Qed.

End monotone.

Lemma monotone_log message : monotone (log message).
Proof. intros st. split; simpl; [done | by apply prefix_app_r]. Qed.

Lemma monotone_console_log line : monotone (console_log line).
Proof. intros st. split; simpl; [by apply prefix_app_r | done]. Qed.

Lemma monotone_get_region : monotone get_region.
Proof. intros st. reflexivity. Qed.

Lemma monotone_set_region r : monotone (set_region r).
Proof. intros st. by split. Qed.

(** Proves [monotone m] for a computation built from the operations of
    this file, splitting on the conditions it tests. *)
Ltac monotone_step :=
  lazymatch goal with
  | |- forall _, _ => intros ?
  | |- monotone (mret _) => apply monotone_ret
  | |- monotone (lift _) => apply monotone_lift
  | |- monotone (log _) => apply monotone_log
  | |- monotone (console_log _) => apply monotone_console_log
  | |- monotone get_region => apply monotone_get_region
  | |- monotone (set_region _) => apply monotone_set_region
  | |- monotone (mbind _ _) => apply monotone_bind
  | |- monotone (catch _ _) => apply monotone_catch
  | |- monotone (fmap _ _) => apply monotone_fmap
  | |- monotone (match ?x with _ => _ end) => destruct x
  end.

Ltac monotone := repeat first [assumption | monotone_step].

(** ** Invariants of the state

    [preserves I m]: from a state where [I] holds, [m] ends in a state where
    [I] holds, however it ends. *)

Definition preserves (I : state -> Prop) {A} (m : M A) : Prop :=
  forall st, I st -> I (m st).1.

Section preserves.
Context (I : state -> Prop) {A B : Type}.

Lemma preserves_ret (a : A) : preserves I (mret a).
Proof. by intros st. Qed.

Lemma preserves_lift (c : completion A) : preserves I (lift c).
Proof. by intros st. Qed.

Lemma preserves_get_region : preserves I get_region.
Proof. by intros st. Qed.

Lemma preserves_bind (m : M A) (f : A -> M B) :
  preserves I m -> (forall a, preserves I (f a)) -> preserves I (m ≫= f).
Proof.
  intros Hm Hf st Hst. rewrite run_bind. specialize (Hm st Hst).
  destruct (m st) as [st' [a|e|]]; simpl in *; [by apply Hf|done..].
Qed.

Lemma preserves_catch (m : M A) (h : string -> M A) :
  preserves I m -> (forall e, preserves I (h e)) -> preserves I (catch m h).
Proof.
  intros Hm Hh st Hst. unfold catch. specialize (Hm st Hst).
  destruct (m st) as [st' [a|e|]]; simpl in *; [done|by apply Hh|done].
Qed.

Lemma preserves_fmap (g : A -> B) (m : M A) : preserves I m -> preserves I (g <$> m).
Proof.
  intros Hm st Hst. specialize (Hm st Hst). unfold fmap, M_fmap.
  by destruct (m st) as [st' [a|e|]].
Qed.

End preserves.

(** Reduces [preserves I m] to the writers of [m]; what is left is for the
    lemmas of the invariant at hand. *)
Ltac preserves_step :=
  lazymatch goal with
  | |- forall _, _ => intros ?
  | |- preserves _ (mret _) => apply preserves_ret
  | |- preserves _ (lift _) => apply preserves_lift
  | |- preserves _ get_region => apply preserves_get_region
  | |- preserves _ (mbind _ _) => apply preserves_bind
  | |- preserves _ (catch _ _) => apply preserves_catch
  | |- preserves _ (fmap _ _) => apply preserves_fmap
  | |- preserves _ (match ?x with _ => _ end) => destruct x
  end.

Ltac preserves := repeat first [assumption | preserves_step].

(** The lines written hold no line feed. *)
Definition tidy (st : state) : Prop := Forall (fun l => one_line l = true) (output st).

Lemma tidy_log message : preserves tidy (log message).
Proof. by intros st. Qed.

Lemma tidy_console_log line : one_line line = true -> preserves tidy (console_log line).
Proof. intros Hl st Hst. apply Forall_app. split; [done|]. by constructor. Qed.

Lemma tidy_set_region r : preserves tidy (set_region r).
Proof. by intros st. Qed.

(** ** Computations that do not read what was written

    A computation of the callback reads the region and nothing else of the
    state: run after other output it does what it does from a [blank] state,
    [graft]ed behind that output. *)

Definition blank (st : state) : state := State (config_region st) [] [].

(** [st] followed by what [st'] holds. *)
Definition graft (st st' : state) : state :=
  State (config_region st') (output st ++ output st') (logged st ++ logged st').

Definition local {A} (m : M A) : Prop :=
  forall st, m st = (graft st (m (blank st)).1, (m (blank st)).2).

Lemma graft_blank st : graft st (blank st) = st.
Proof. destruct st. unfold graft, blank. simpl. by rewrite !app_nil_r. Qed.

Lemma graft_assoc st1 st2 st3 : graft st1 (graft st2 st3) = graft (graft st1 st2) st3.
Proof. unfold graft. simpl. by rewrite !app_assoc. Qed.

Lemma blank_graft st st' : blank (graft st st') = blank st'.
Proof. reflexivity. Qed.

Lemma graft_blank_l st st' : graft (blank st) st' = st'.
Proof. by destruct st'. Qed.

Section local.
Context {A B : Type}.

Lemma local_ret (a : A) : local (mret a).
Proof. intros st. cbn. by rewrite graft_blank. Qed.

Lemma local_lift (c : completion A) : local (lift c).
Proof. intros st. cbn. by rewrite graft_blank. Qed.

Lemma local_bind (m : M A) (f : A -> M B) :
  local m -> (forall a, local (f a)) -> local (m ≫= f).
Proof.
  intros Hm Hf st. rewrite !run_bind, (Hm st).
  destruct (m (blank st)) as [st1 [a|e|]]; simpl; [|done..].
  rewrite (Hf a (graft st st1)), (Hf a st1), blank_graft. simpl.
  by rewrite graft_assoc.
Qed.

Lemma local_catch (m : M A) (h : string -> M A) :
  local m -> (forall e, local (h e)) -> local (catch m h).
Proof.
  intros Hm Hh st. unfold catch. rewrite (Hm st).
  destruct (m (blank st)) as [st1 [a|e|]]; simpl; [done| |done].
  rewrite (Hh e (graft st st1)), (Hh e st1), blank_graft. simpl.
  by rewrite graft_assoc.
Qed.

Lemma local_fmap (g : A -> B) (m : M A) : local m -> local (g <$> m).
Proof.
  intros Hm st. unfold fmap, M_fmap. rewrite (Hm st).
  by destruct (m (blank st)) as [st1 c].
Qed.

End local.

Lemma local_log message : local (log message).
Proof. intros st. by rewrite !run_log. Qed.

Lemma local_console_log line : local (console_log line).
Proof. intros st. by rewrite !run_console_log. Qed.

Lemma local_get_region : local get_region.
Proof. intros st. unfold get_region. simpl. by rewrite graft_blank. Qed.

Lemma local_set_region r : local (set_region r).
Proof. intros st. unfold set_region, with_region, graft. simpl. by rewrite !app_nil_r. Qed.

(** Proves [local m] for a computation built from the operations of this
    file, splitting on the conditions it tests. *)
Ltac local_step :=
  lazymatch goal with
  | |- forall _, _ => intros ?
  | |- local (mret _) => apply local_ret
  | |- local (lift _) => apply local_lift
  | |- local (log _) => apply local_log
  | |- local (console_log _) => apply local_console_log
  | |- local get_region => apply local_get_region
  | |- local (set_region _) => apply local_set_region
  | |- local (mbind _ _) => apply local_bind
  | |- local (catch _ _) => apply local_catch
  | |- local (fmap _ _) => apply local_fmap
  | |- local (match ?x with _ => _ end) => destruct x
  end.

Ltac local := repeat first [assumption | local_step].

(** ** States that differ in the order of what was written *)

Definition similar (st st' : state) : Prop :=
  config_region st = config_region st' /\
  output st ≡ₚ output st' /\
  logged st ≡ₚ logged st'.

#[export] Instance similar_equivalence : Equivalence similar.
Proof.
  split.
  - by intros st.
  - intros st st' (? & ? & ?). by split_and!.
  - intros st1 st2 st3 (? & ? & ?) (? & ? & ?). split_and!; etrans; eauto.
Qed.

#[export] Instance emit_similar :
  Proper ((≡ₚ) ==> (≡ₚ) ==> similar ==> similar) emit.
Proof.
  intros l l' Hl o o' Ho st st' (Hr & Hout & Hlog). unfold emit.
  split_and!; simpl; [done|by rewrite Hout, Ho|by rewrite Hlog, Hl].
Qed.

Lemma blank_similar st st' : similar st st' -> blank st = blank st'.
Proof. intros (Hr & _). unfold blank. by rewrite Hr. Qed.

(** A local computation run behind other output does what it does without
    it, up to the order of what is written. *)
Lemma local_after {A} (m : M A) logs lines st st_s :
  local m -> similar st_s (emit logs lines st) ->
  similar (m st_s).1 (emit logs lines (m st).1) /\ (m st_s).2 = (m st).2.
Proof.
  intros Hm Hs. rewrite (Hm st_s), (Hm st), (blank_similar _ _ Hs).
  change (blank (emit logs lines st)) with (blank st).
  destruct Hs as (_ & Hout & Hlog). split; [|done]. split_and!; simpl; [done|..].
  - rewrite Hout. simpl. by rewrite <- !app_assoc, (comm _ lines).
  - rewrite Hlog. simpl. by rewrite <- !app_assoc, (comm _ logs).
Qed.

#[export] Hint Resolve monotone_ret monotone_lift monotone_bind monotone_catch
  monotone_log monotone_console_log monotone_get_region monotone_set_region : js.

#[export] Hint Rewrite @run_ret @run_lift @run_bind_lift run_log run_console_log
  emit_emit config_region_emit output_emit logged_emit : js_rw.
