(* ===== verification/Protocol.v ===== *)
(** * The protocol: envelopes and the expected answer to a request

    The first part holds the envelopes the server writes: the object
    literals of [sendResponse] and [sendErrorResponse] (src/mcp-server-aws.js
    lines 769-773 and 780-787), of the [initialize] result (701-708) and of
    the start-up notification (795-799).

    The second part is the specification of the dispatcher: [expected] says,
    as a function of the parsed request alone, what the callback owes the
    client: one reply, nothing, a fault that the outer [catch] turns into a
    parse-error reply, or the invocation of a handler.  It has no state, no
    log and no exceptions; [Server] proves that the callback implements it. *)

From S2P Require Import Prelude JsValue JsonText JsonRoundTrip Catalog Handlers.

(** ** Envelopes *)

Definition success_response (id result : value) : value :=
  {{ "jsonrpc" ↦ $"2.0"; "id" ↦ id; "result" ↦ result }}.

Definition error_response (id : value) (code : Z) (message : string) : value :=
  {{ "jsonrpc" ↦ $"2.0"; "id" ↦ id;
     "error" ↦ {{ "code" ↦ #code; "message" ↦ $message }} }}.

Definition ready_notification : value :=
  {{ "jsonrpc" ↦ $"2.0"; "method" ↦ $"notifications/ready"; "params" ↦ {{ }} }}.

Definition initialize_result (protocolVersion : value) : value :=
  {{ "protocolVersion" ↦ protocolVersion;
     "capabilities" ↦ {{ "tools" ↦ {{ }} }};
     "serverInfo" ↦ {{ "name" ↦ $"aws-mcp-server"; "version" ↦ $"1.0.0" }} }}.

(** A response is a success or a failure, never both. *)
Inductive reply : Type :=
| Success (id result : value)
| Failure (id : value) (code : Z) (message : string).

Definition envelope (r : reply) : value :=
  match r with
  | Success id result => success_response id result
  | Failure id code message => error_response id code message
  end.

Definition reply_id (r : reply) : value :=
  match r with Success id _ | Failure id _ _ => id end.

(** The error codes the program uses. *)
Definition parse_error : Z := -32700.
Definition invalid_request : Z := -32600.
Definition method_not_found : Z := -32601.
Definition tool_execution_error : Z := -32000.

(** ** The specification of the dispatcher *)

(** The branches of the callback, by exact match on [request.method], in
    the order the source tests them. *)
Inductive method_class : Type :=
| M_initialize
| M_tools_list
| M_tools_invoke
| M_notifications_initialized
| M_unknown.

Definition method_names : list (string * method_class) :=
  [ ("initialize", M_initialize);
    ("tools/list", M_tools_list);
    ("tools/invoke", M_tools_invoke);
    ("notifications/initialized", M_notifications_initialized) ].

Definition classify_method (method : value) : method_class :=
  match method with
  | VStr name => default M_unknown (alookup name method_names)
  | _ => M_unknown
  end.

Inductive expectation : Type :=
| Reply (r : reply)
| Nothing
| Fault (message : string)
| Invocation (id : value) (ref : handler_ref) (toolParams : value)
| Beyond.

(** What [tools/list] returns: each descriptor re-shaped. *)
Definition listed_tool (tool : value) : value :=
  {{ "name" ↦ get_opt tool "name";
     "description" ↦ get_opt tool "description";
     "inputSchema" ↦ {{ "type" ↦ $"object";
        "properties" ↦ js_or (get_opt (get_opt tool "parameters") "properties") {{ }};
        "required" ↦ js_or (get_opt (get_opt tool "parameters") "required") (VArr []);
        "additionalProperties" ↦ VBool false }} }}.

Definition not_found_message (name : string) : string := "Tool '" +:+ name +:+ "' not found".

(** The answer to a [tools/invoke] request. *)
Definition expected_invoke (id params : value) : expectation :=
  let toolName := get_opt params "name" in
  let toolParams := js_or (get_opt params "parameters") {{ }} in
  match to_string toolName with
  | Normal key =>
      if truthy toolName then
        match toolHandlers_get key with
        | Some ref => Invocation id ref toolParams
        | None => Reply (Failure id method_not_found (not_found_message key))
        end
      else Reply (Failure id method_not_found (not_found_message key))
  | Throw e => Fault e
  | Unmodelled => Beyond
  end.

(** The answer to a request of the right version, by the class of its
    method. *)
Definition expected_call (request : value) (c : method_class) : expectation :=
  let id := get_opt request "id" in
  match c with
  | M_initialize =>
      let params := get_opt request "params" in
      if nullish params then
        Fault (read_error (if params is VNull then "null" else "undefined")
                 "protocolVersion")
      else Reply (Success id (initialize_result (get_opt params "protocolVersion")))
  | M_tools_list => Reply (Success id {{ "tools" ↦ VArr (map listed_tool tools) }})
  | M_tools_invoke => expected_invoke id (get_opt request "params")
  | M_notifications_initialized => Nothing
  | M_unknown => Reply (Failure id method_not_found "Method not found")
  end.

Definition expected (request : value) : expectation :=
  if nullish request then
    Fault (read_error (if request is VNull then "null" else "undefined") "jsonrpc")
  else if negb (bool_decide (get_opt request "jsonrpc" = $"2.0")) then
    Reply (Failure (get_opt request "id") invalid_request
             "Invalid Request: Not JSON-RPC 2.0")
  else expected_call request (classify_method (get_opt request "method")).

(** [request] is a JSON-RPC 2.0 request for [method]. *)
Definition calls (request : value) (method : string) : Prop :=
  get_opt request "jsonrpc" = $"2.0" /\ get_opt request "method" = $method.

#[export] Instance calls_dec request method : Decision (calls request method).
Proof. unfold calls. apply _. Defined.

(** What a call of [toolHandlers[key]] comes to once everything it awaits
    has settled: the region of [AWS.config] afterwards and the outcome.
    [sdk] is the SDK's reply, used if the handler makes a call. *)
Definition tool_outcome (date_parse : string -> date) (ref : handler_ref)
    (toolParams : value) (now : Z) (region : value) (sdk : completion value)
  : value * completion value :=
  match ref with
  | Own t =>
      let r := handler_start date_parse t toolParams now region in
      (config_region_after r,
       match handler_started r with
       | Settled c => c
       | Called _ => handler_finish t (handler_region r) toolParams sdk
       end)
  | Inherited m => (region, call_inherited m toolParams)
  end.

(** The answer the invocation adapter owes once the handler has settled:
    the handler's result as a success, its failure as a tool execution error
    that carries the failure's message. *)
Definition adapter_reply (id : value) (outcome : completion value) : option reply :=
  match outcome with
  | Normal result => Some (Success id result)
  | Throw e => Some (Failure id tool_execution_error ("Tool execution error: " +:+ e))
  | Unmodelled => None
  end.

(** ** The server as a transducer

    What a client observes of one line handled to the end: the replies
    written, in order, and the region of [AWS.config] afterwards.  [None]
    stands for a line outside the model. *)

Definition parse_error_reply : reply := Failure VNull parse_error "Parse error".

Definition answer_expected (date_parse : string -> date) (e : expectation) (now : Z)
    (region : value) (sdk : completion value) : option (list reply * value) :=
  match e with
  | Reply r => Some ([r], region)
  | Nothing => Some ([], region)
  | Fault _ => Some ([parse_error_reply], region)
  | Invocation id ref toolParams =>
      let '(region', outcome) := tool_outcome date_parse ref toolParams now region sdk in
      r ← adapter_reply id outcome; Some ([r], region')
  | Beyond => None
  end.

Definition answer (date_parse : string -> date) (request : value) (now : Z)
    (region : value) (sdk : completion value) : option (list reply * value) :=
  answer_expected date_parse (expected request) now region sdk.

Definition answer_line (date_parse : string -> date) (line : string) (now : Z)
    (region : value) (sdk : completion value) : option (list reply * value) :=
  match JSON_parse line with
  | Parsed request => answer date_parse request now region sdk
  | SyntaxError => Some ([parse_error_reply], region)
  | OutOfModel => None
  end.

(** The text of a reply as written. *)
Definition encode (r : reply) : string := JSON_stringify (envelope r).

(** ** Properties of the specification *)

Lemma calls_not_nullish request method : calls request method -> nullish request = false.
Proof. by intros [Hj _]; destruct request. Qed.

Lemma expected_calls request method :
  calls request method ->
  expected request =
  expected_call request (default M_unknown (alookup method method_names)).
Proof.
  intros Hc. pose proof (calls_not_nullish _ _ Hc) as Hn. destruct Hc as [Hj Hm].
  unfold expected, classify_method. by rewrite Hn, Hj, Hm.
Qed.

Lemma expected_invalid_version request :
  nullish request = false ->
  get_opt request "jsonrpc" <> $"2.0" ->
  expected request =
  Reply (Failure (get_opt request "id") invalid_request "Invalid Request: Not JSON-RPC 2.0").
Proof. intros Hn Hj. unfold expected. by rewrite Hn, bool_decide_eq_false_2. Qed.

(** The advertised names for which the table has nothing. *)
Definition unimplemented_tools : list string :=
  List.filter (fun name => if toolHandlers_get name is Some _ then false else true)
    (tool_names tools).

(** C34: every handler of the table is advertised by the catalog, but
    fifteen of the 22 advertised tools have no handler: invoking one is
    answered as an unknown tool. *)
Theorem advertised_and_implemented :
  (forall t, tool_key t ∈ tool_names tools) /\
  unimplemented_tools =
  [ "aws.ec2.describeVpcs"; "aws.ec2.describeSecurityGroups";
    "aws.lambda.getFunctionConfiguration"; "aws.dynamodb.describeTable";
    "aws.cloudwatch.describeAlarms"; "aws.iam.listUsers"; "aws.iam.listRoles";
    "aws.rds.describeDBInstances"; "aws.sns.listTopics"; "aws.sqs.listQueues";
    "aws.cloudformation.listStacks"; "aws.route53.listHostedZones";
    "aws.cloudfront.listDistributions"; "aws.ecs.listClusters";
    "aws.eks.listClusters" ] /\
  forall name, name ∈ unimplemented_tools ->
    expected_invoke #1 {{ "name" ↦ $name }} =
    Reply (Failure #1 method_not_found (not_found_message name)).
Proof.
  split; [|split].
  - intros t. apply list_elem_of_In. destruct t; vm_compute; tauto.
  - by vm_compute.
  - intros name Hin. apply list_elem_of_In, filter_In in Hin as [_ Hn].
    unfold expected_invoke. simpl. 
    destruct (toolHandlers_get name); [done|]. by destruct name.
Qed.

(** ** The text on the wire *)

(** C11: the text of a response: the members [jsonrpc], [id] and [result]
    or [error] in this order, [error] with [code] and [message], no white
    space, and the [id] member present exactly when the id serializes. *)
Theorem encode_wire_format id :
  (forall result tr, serialize result = Some tr ->
     encode (Success id result) =
     sq "{'jsonrpc':'2.0'," +:+
     (if serialize id is Some ti then sq "'id':" +:+ ti +:+ "," else "") +:+
     sq "'result':" +:+ tr +:+ "}") /\
  (forall code message,
     encode (Failure id code message) =
     sq "{'jsonrpc':'2.0'," +:+
     (if serialize id is Some ti then sq "'id':" +:+ ti +:+ "," else "") +:+
     sq "'error':{'code':" +:+ pretty code +:+ sq ",'message':" +:+ quote message +:+ "}}").
Proof.
  unfold encode, JSON_stringify, number_to_string. split; intros; simpl; rewrite ?H;
    destruct (serialize id); simpl;
    repeat (progress (rewrite ?string_app_assoc; simpl)); done.
Qed.

Lemma encode_wire_format_witness :
  encode (Success #2 {{ "result" ↦ $"pong" }}) =
  sq "{'jsonrpc':'2.0','id':2,'result':{'result':'pong'}}".
Proof.
  exact (proj1 (encode_wire_format #2) {{ "result" ↦ $"pong" }}
           (sq "{'result':'pong'}") eq_refl).
Defined.

(** A reply whose id and payload JSON text can denote. *)
Definition json_reply (r : reply) : bool :=
  match r with
  | Success id result => json_value id && json_value result
  | Failure id code _ => json_value id && (Z.abs code <=? max_safe_integer)
  end.

Lemma json_value_envelope r : json_reply r = true -> json_value (envelope r) = true.
Proof.
  destruct r as [id result|id code message]; intros [Hid Hp]%andb_prop;
    cbn [envelope success_response error_response json_value forallb snd];
    rewrite Hid, Hp; cbn [andb]; by rewrite !bool_decide_eq_true_2.
Qed.

(** C19: a client that parses a response reads the envelope the server
    built: its [jsonrpc], the [id] of the request, and the result or the
    error with its code and message. *)
Theorem response_reads_back r :
  json_reply r = true -> JSON_parse (encode r) = Parsed (envelope r).
Proof.
  intros Hr. pose proof (parse_stringify _ "" (json_value_envelope r Hr) eq_refl) as Hp.
  rewrite string_app_nil_r in Hp. unfold JSON_parse, encode. by rewrite Hp.
Qed.

Lemma response_reads_back_witness :
  JSON_parse (sq "{'jsonrpc':'2.0','id':3,'error':{'code':-32601,'message':'Method not found'}}")
  = Parsed {{ "jsonrpc" ↦ $"2.0"; "id" ↦ #3;
              "error" ↦ {{ "code" ↦ #(-32601); "message" ↦ $"Method not found" }} }}.
Proof. by apply (response_reads_back (Failure #3 method_not_found "Method not found")). Defined.
