(* ===== verification/Server.v ===== *)
(** * The server: the [line] callback, the writers and start-up

    This file models src/mcp-server-aws.js from line 687 to the end, in the
    monad [M] of [Effects].  The body of the callback is [on_request];
    [on_line] adds [JSON.parse] and the outer [catch].  A line whose handler
    awaits leaves a [pending] continuation, which [resume] completes when the
    awaited promise settles.  [serve_line] and [serve] run lines one at a
    time, each to completion before the next, which is how the program
    behaves when every reply arrives before the next line does. *)

From S2P Require Import Prelude JsValue JsonText Catalog Handlers Effects Protocol.

(** ** The writers (lines 768-790) *)

Definition sendResponse (id result : value) : M unit :=
  let response := success_response id result in
  log ("[aws] [info] Sending response: " +:+ JSON_stringify response);;
  console_log (JSON_stringify response).

Definition sendErrorResponse (id : value) (code : Z) (message : string) : M unit :=
  let response := error_response id code message in
  log ("[aws] [error] Sending error: " +:+ JSON_stringify response);;
  console_log (JSON_stringify response).

(** A reply, written by the writer of its kind. *)
Definition send (r : reply) : M unit :=
  match r with
  | Success id result => sendResponse id result
  | Failure id code message => sendErrorResponse id code message
  end.

(** ** Start-up (lines 24-34 and 793-799) *)

(** [credentials] is [None] when the credential set-up of lines 27-34 runs
    through, which also sets the region to us-west-2, and the message of the
    error it throws otherwise. *)
Definition startup (credentials : option string) : M unit :=
  log "[aws] [info] Initializing server...";;
  match credentials with
  | None => set_region $"us-west-2"
  | Some message =>
      log ("[aws] [error] Error initializing AWS credentials: " +:+ message)
  end;;
  log "[aws] [info] Server started and connected successfully";;
  console_log (JSON_stringify ready_notification).

(** The state before the first statement runs: nothing written, and the
    region the SDK starts with. *)
Definition boot_state (sdk_region : value) : state := State sdk_region [] [].

(** ** The callback (lines 687-765) *)

(** What the callback is waiting for when it suspends at [await]: a promise
    that has already settled (or a plain value), or an SDK call made by a
    handler. *)
Inductive awaited : Type :=
| AlreadySettled (c : completion value)
| SdkCall (t : tool) (region params : value) (call : aws_call).

Record pending : Type := Pending {
  pending_id : value;
  pending_on : awaited
}.

Inductive status : Type :=
| Finished
| Suspended (p : pending).

(** The [catch] of the tool invocation (lines 745-748). *)
Definition tool_failed (id : value) (message : string) : M unit :=
  log ("[aws] [error] Tool execution error: " +:+ message);;
  sendErrorResponse id (-32000) ("Tool execution error: " +:+ message).

(** What the callback takes from the JavaScript engine and the program does
    not define: [Date.parse], and the message of the SyntaxError [JSON.parse]
    throws for a text. *)
Record engine : Type := Engine {
  engine_date_parse : string -> date;
  engine_syntax_error : string -> string
}.

Section callback.
Variable eng : engine.

(** [toolHandlers[toolName](toolParams)] up to the [await]: an own handler
    is an asynchronous function, so whatever it throws arrives through its
    promise; an inherited member is an ordinary function, which throws at
    the call or returns a plain value for [await] to take.  A key with no
    property is [undefined], and calling it is a TypeError. *)
Definition call_handler (ref : option handler_ref) (toolParams : value) (now : Z)
  : M awaited :=
  match ref with
  | Some (Own t) =>
      region ← get_region;
      let r := handler_start (engine_date_parse eng) t toolParams now region in
      set_region (config_region_after r);;
      mret (match handler_started r with
            | Settled c => AlreadySettled c
            | Called call => SdkCall t (handler_region r) toolParams call
            end)
  | Some (Inherited m) => AlreadySettled ∘ Normal <$> lift (call_inherited m toolParams)
  | None => lift (Throw (not_a_function "toolHandlers[toolName]"))
  end.

(** [toolHandlers[toolName]]: the key is converted to a string first. *)
Definition lookup_handler (toolName : value) : M (option handler_ref) :=
  key ← lift (to_string toolName); mret (toolHandlers_get key).

(** The [tools/invoke] branch (lines 731-751). *)
Definition invoke (request : value) (now : Z) : M status :=
  params ← lift (get_prop request "params");
  let toolName := get_opt params "name" in
  params' ← lift (get_prop request "params");
  let toolParams := js_or (get_opt params' "parameters") {{ }} in
  missing ←
    (if negb (truthy toolName) then mret true
     else handler ← lookup_handler toolName;
          mret (match handler with Some _ => false | None => true end));
  if missing : bool then
    id ← lift (get_prop request "id");
    name ← lift (to_string toolName);
    sendErrorResponse id (-32601) ("Tool '" +:+ name +:+ "' not found");;
    mret Finished
  else
    catch
      (handler ← lookup_handler toolName;
       w ← call_handler handler toolParams now;
       id ← lift (get_prop request "id");
       mret (Suspended (Pending id w)))
      (fun message =>
         id ← lift (get_prop request "id");
         tool_failed id message;;
         mret Finished).

(** The body of [try] in the callback, after [JSON.parse]. *)
Definition on_request (request : value) (now : Z) : M status :=
  log ("[aws] [info] Received request: " +:+ JSON_stringify request);;
  jsonrpc ← lift (get_prop request "jsonrpc");
  if negb (strict_eq_str jsonrpc "2.0") then
    id ← lift (get_prop request "id");
    sendErrorResponse id (-32600) "Invalid Request: Not JSON-RPC 2.0";;
    mret Finished
  else
    method ← lift (get_prop request "method");
    if strict_eq_str method "initialize" then
      id ← lift (get_prop request "id");
      params ← lift (get_prop request "params");
      protocolVersion ← lift (get_prop params "protocolVersion");
      sendResponse id (initialize_result protocolVersion);;
      mret Finished
    else if strict_eq_str method "tools/list" then
      id ← lift (get_prop request "id");
      entries ← lift (mapM_completion tool_entry tools);
      sendResponse id {{ "tools" ↦ VArr entries }};;
      mret Finished
    else if strict_eq_str method "tools/invoke" then invoke request now
    else if strict_eq_str method "notifications/initialized" then mret Finished
    else
      id ← lift (get_prop request "id");
      sendErrorResponse id (-32601) "Method not found";;
      mret Finished.

(** The outer [catch] (lines 761-764). *)
Definition on_error (message : string) : M status :=
  log ("[aws] [error] Error processing request: " +:+ message);;
  sendErrorResponse VNull (-32700) "Parse error";;
  mret Finished.

(** The callback on one line, up to its first suspension. *)
Definition on_line (line : string) (now : Z) : M status :=
  catch
    (match JSON_parse line with
     | Parsed request => on_request request now
     | SyntaxError => lift (Throw (engine_syntax_error eng line))
     | OutOfModel => lift Unmodelled
     end)
    on_error.

(** The rest of the callback once the awaited promise has settled; [reply]
    is the SDK's answer to a pending call. *)
Definition resume (p : pending) (reply : completion value) : M unit :=
  let outcome :=
    match pending_on p with
    | AlreadySettled c => c
    | SdkCall t region params _ => handler_finish t region params reply
    end in
  match outcome with
  | Normal result => sendResponse (pending_id p) result
  | Throw e => tool_failed (pending_id p) e
  | Unmodelled => lift Unmodelled
  end.

(** ** Sequential service *)

(** One line as it arrives: its text, the clock, and what the SDK answers
    if the line makes a call. *)
Record arrival : Type := Arrival {
  arrival_line : string;
  arrival_now : Z;
  arrival_reply : completion value
}.

(** A line handled to the end before the next one. *)
Definition serve_line (a : arrival) : M unit :=
  s ← on_line (arrival_line a) (arrival_now a);
  match s with
  | Finished => mret tt
  | Suspended p => resume p (arrival_reply a)
  end.

Fixpoint serve (arrivals : list arrival) : M unit :=
  match arrivals with
  | [] => mret tt
  | a :: rest => serve_line a;; serve rest
  end.

(** The whole run: start-up, then the lines. *)
Definition main (credentials : option string) (arrivals : list arrival) : M unit :=
  startup credentials;; serve arrivals.

End callback.

(** * Properties *)

#[local] Arguments String.append : simpl never.
#[local] Arguments sendResponse : simpl never.
#[local] Arguments sendErrorResponse : simpl never.
#[local] Arguments tool_failed : simpl never.
#[local] Arguments call_handler : simpl never.
#[local] Arguments JSON_stringify : simpl never.
#[local] Arguments to_string : simpl never.
#[local] Arguments get_opt : simpl never.
#[local] Arguments toolHandlers_get : simpl never.
#[local] Arguments mapM_completion : simpl never.
#[local] Arguments handler_start : simpl never.
#[local] Arguments handler_finish : simpl never.
#[local] Arguments call_inherited : simpl never.
#[local] Arguments resume : simpl never.

(** ** Equations of the writers *)

Definition request_log (request : value) : string :=
  "[aws] [info] Received request: " +:+ JSON_stringify request.

Definition sent_log (r : reply) : string :=
  match r with
  | Success _ _ => "[aws] [info] Sending response: " +:+ encode r
  | Failure _ _ _ => "[aws] [error] Sending error: " +:+ encode r
  end.

Definition fault_log (message : string) : string :=
  "[aws] [error] Error processing request: " +:+ message.

Definition tool_failed_log (message : string) : string :=
  "[aws] [error] Tool execution error: " +:+ message.

Lemma run_send r st : send r st = (emit [sent_log r] [encode r] st, Normal tt).
Proof.
  destruct r; unfold send, sendResponse, sendErrorResponse; run;
    by rewrite !run_log, run_console_log, emit_emit.
Qed.

Lemma run_sendResponse id result st : sendResponse id result st = send (Success id result) st.
Proof. reflexivity. Qed.

Lemma run_sendErrorResponse id code message st :
  sendErrorResponse id code message st = send (Failure id code message) st.
Proof. reflexivity. Qed.

Lemma run_tool_failed id message st :
  tool_failed id message st =
  (let r := Failure id tool_execution_error ("Tool execution error: " +:+ message) in
   emit [tool_failed_log message; sent_log r] [encode r] st, Normal tt).
Proof.
  unfold tool_failed. run.
  by rewrite run_log, run_sendErrorResponse, run_send, emit_emit.
Qed.

Lemma run_on_error message st :
  on_error message st =
  (emit [fault_log message; sent_log parse_error_reply] [encode parse_error_reply] st,
   Normal Finished).
Proof.
  unfold on_error. run.
  by rewrite run_log, run_sendErrorResponse, run_send, emit_emit.
Qed.

#[export] Hint Rewrite run_sendResponse run_sendErrorResponse run_send run_tool_failed
  run_on_error : js_rw.

(** ** The callback implements the specification *)

Section refinement.
Variable eng : engine.

(** How the callback carries out what the specification expects. *)
Definition perform (e : expectation) (now : Z) : M status :=
  match e with
  | Reply r => send r;; mret Finished
  | Nothing => mret Finished
  | Fault message => lift (Throw message)
  | Invocation id ref toolParams =>
      catch (w ← call_handler eng (Some ref) toolParams now;
             mret (Suspended (Pending id w)))
            (fun message => tool_failed id message;; mret Finished)
  | Beyond => lift Unmodelled
  end.

Lemma tools_listed : mapM_completion tool_entry tools = Normal (map listed_tool tools).
Proof. by_compute. Qed.

Lemma to_string_falsy v : truthy v = false -> is_normal (to_string v) = true.
Proof. by destruct v as [| |[]| | | |]. Qed.

Lemma strict_eq_str_decide v lit : strict_eq_str v lit = bool_decide (v = VStr lit).
Proof.
  destruct (strict_eq_str v lit) eqn:E; symmetry.
  - apply bool_decide_eq_true, strict_eq_str_spec, E.
  - apply bool_decide_eq_false. by rewrite <- strict_eq_str_spec, E.
Qed.

Lemma invoke_refines request now st :
  nullish request = false ->
  invoke eng request now st =
  perform (expected_invoke (get_opt request "id") (get_opt request "params")) now st.
Proof.
  intros Hn. unfold invoke, expected_invoke, lookup_handler, perform, send.
  rewrite !(get_prop_not_nullish _ _ Hn). run.
  generalize (get_opt (get_opt request "params") "name"); intros toolName.
  pose proof (to_string_falsy toolName) as Hf.
  destruct (truthy toolName), (to_string toolName) as [key|e|];
    try (by discriminate Hf); run; try done.
  destruct (toolHandlers_get key) as [ref|]; run; [|done].
  by destruct (call_handler _ _ _ _ _) as [st' [w|e|]].
Qed.

(** The body of the callback logs the request and then does exactly what
    the specification [expected] prescribes for it, on every request and in
    every state. *)
Lemma on_request_expected request now st :
  on_request eng request now st =
  (log (request_log request);; perform (expected request) now) st.
Proof.
  unfold on_request, expected. fold (request_log request).
  destruct (nullish request) eqn:Hn; [by destruct request|].
  rewrite !(get_prop_not_nullish _ _ Hn), <- strict_eq_str_decide. run.
  destruct (log _ st) as [st0 [[]|e|]]; try done.
  destruct (strict_eq_str (get_opt request "jsonrpc") "2.0"); run; [|done].
  destruct (get_opt request "method") as [| | | |m| |]; try done.
  unfold expected_call, classify_method, strict_eq_str, alookup, method_names.
  repeat (case_string_eqb; run; try done); [|by apply invoke_refines].
  by destruct (get_opt request "params").
Qed.

(** The callback with its parser and outer [catch], by the outcome of
    [JSON.parse]. *)
Lemma on_line_parsed line request now st :
  JSON_parse line = Parsed request ->
  on_line eng line now st =
  catch (log (request_log request);; perform (expected request) now) on_error st.
Proof.
  intros Hp. unfold on_line. rewrite Hp. unfold catch.
  by rewrite on_request_expected.
Qed.

Lemma on_line_syntax_error line now st :
  JSON_parse line = SyntaxError ->
  on_line eng line now st =
  on_error (engine_syntax_error eng line) st.
Proof. intros Hp. unfold on_line. by rewrite Hp. Qed.

Lemma on_line_out_of_model line now st :
  JSON_parse line = OutOfModel ->
  on_line eng line now st = (st, Unmodelled).
Proof. intros Hp. unfold on_line. by rewrite Hp. Qed.

(** C1: the callback on a line parses it and then, for a request, logs it
    and does exactly what the specification [expected] prescribes for it
    under the outer [catch]; a text that is not JSON goes to the outer
    [catch] with the parser's message. *)
Theorem on_line_refines line now st :
  on_line eng line now st =
  match JSON_parse line with
  | Parsed request =>
      catch (log (request_log request);; perform (expected request) now) on_error st
  | SyntaxError => on_error (engine_syntax_error eng line) st
  | OutOfModel => (st, Unmodelled)
  end.
Proof.
  destruct (JSON_parse line) eqn:Hp;
    eauto using on_line_parsed, on_line_syntax_error, on_line_out_of_model.
Qed.

End refinement.

(** ** Sequential service implements the transducer *)

(** The transducer on a line as it arrives. *)
Definition answer_arrival (eng : engine) (a : arrival) (region : value)
  : option (list reply * value) :=
  answer_line (engine_date_parse eng) (arrival_line a) (arrival_now a) region
    (arrival_reply a).

Section sequential.
Variable eng : engine.


(** A line that suspends finishes when its promise settles. *)
Definition settle (sdk : completion value) (s : status) : M unit :=
  match s with
  | Finished => mret tt
  | Suspended p => resume p sdk
  end.

(** The state after [replies] have been sent and the region set. *)
Definition after (logs : list string) (replies : list reply) (region : value)
    (st : state) : state :=
  emit logs (map encode replies) (with_region region st).

(** What the awaited promise settles to. *)
Definition outcome_of (w : awaited) (sdk : completion value) : completion value :=
  match w with
  | AlreadySettled c => c
  | SdkCall t region params _ => handler_finish t region params sdk
  end.

(** What the adapter logs for an outcome. *)
Definition adapter_logs (id : value) (outcome : completion value) : list string :=
  match outcome with
  | Normal result => [sent_log (Success id result)]
  | Throw e =>
      [ tool_failed_log e;
        sent_log (Failure id tool_execution_error ("Tool execution error: " +:+ e)) ]
  | Unmodelled => []
  end.

Lemma run_resume p sdk st :
  resume p sdk st =
  match adapter_reply (pending_id p) (outcome_of (pending_on p) sdk) with
  | Some r =>
      (emit (adapter_logs (pending_id p) (outcome_of (pending_on p) sdk)) [encode r] st,
       Normal tt)
  | None => (st, Unmodelled)
  end.
Proof.
  unfold resume. fold (outcome_of (pending_on p) sdk).
  destruct (outcome_of _ _); simpl; by rewrite ?run_tool_failed, ?run_send.
Qed.

(** An invocation handled to the end writes the adapter's reply for the
    outcome of the tool and leaves the region the tool set. *)
Lemma invocation_settles id ref toolParams now sdk st region' outcome r :
  tool_outcome (engine_date_parse eng) ref toolParams now (config_region st) sdk
    = (region', outcome) ->
  adapter_reply id outcome = Some r ->
  exists logs,
    (perform eng (Invocation id ref toolParams) now ≫= settle sdk) st =
    (after logs [r] region' st, Normal tt).
Proof.
  unfold tool_outcome, perform, call_handler, after. intros Ho Hr.
  destruct ref as [t|m]; simplify_eq/=; run.
  - destruct (handler_started _) as [c|call] eqn:Hs; run;
      rewrite run_resume; simpl; rewrite Hr; eauto.
  - destruct (call_inherited m toolParams) as [v|e|]; simplify_eq/=; run.
    + rewrite run_resume, with_region_same. simpl. eauto.
    + rewrite with_region_same. eexists [_; _]. unfold emit; cbn.
      by rewrite <- app_assoc.
Qed.

Lemma invocation_unmodelled id ref toolParams now sdk st region' outcome :
  tool_outcome (engine_date_parse eng) ref toolParams now (config_region st) sdk
    = (region', outcome) ->
  adapter_reply id outcome = None ->
  ((perform eng (Invocation id ref toolParams) now ≫= settle sdk) st).2 = Unmodelled.
Proof.
  unfold tool_outcome, perform, call_handler. intros Ho Hr.
  destruct ref as [t|m]; simplify_eq/=; run.
  - destruct (handler_started _) as [c|call] eqn:Hs; run;
      rewrite run_resume; simpl; by rewrite Hr.
  - by destruct (call_inherited m toolParams) as [v|e|].
Qed.

Lemma after_emit logs replies region l st :
  after logs replies region (emit [l] [] st) = after (l :: logs) replies region st.
Proof. unfold after. by rewrite with_region_emit, emit_emit. Qed.

Lemma after_same logs replies st :
  emit logs (map encode replies) st = after logs replies (config_region st) st.
Proof. unfold after. by rewrite with_region_same. Qed.

Lemma after_after logs1 replies1 region1 logs2 replies2 region2 st :
  after logs2 replies2 region2 (after logs1 replies1 region1 st) =
  after (logs1 ++ logs2)%list (replies1 ++ replies2)%list region2 st.
Proof. unfold after. by rewrite with_region_emit, emit_emit, map_app. Qed.

Lemma config_region_after logs replies region st :
  config_region (after logs replies region st) = region.
Proof. reflexivity. Qed.

(** The outer [catch] does nothing to a computation that is carried to a
    normal end. *)
Lemma catch_settles {A B} (m : M A) (h : string -> M A) (f : A -> M B) st st' b :
  (m ≫= f) st = (st', Normal b) -> (catch m h ≫= f) st = (st', Normal b).
Proof. unfold catch. run. by destruct (m st) as [st1 [a|e|]]. Qed.

Lemma catch_unmodelled {A B} (m : M A) (h : string -> M A) (f : A -> M B) st :
  ((m ≫= f) st).2 = Unmodelled -> ((catch m h ≫= f) st).2 = Unmodelled.
Proof. unfold catch. run. destruct (m st) as [st1 [a|e|]]; try done. Qed.

(** What is expected of a request, carried out and settled, is the answer of
    the transducer. *)
Lemma perform_answers e now sdk st replies region' :
  answer_expected (engine_date_parse eng) e now (config_region st) sdk
    = Some (replies, region') ->
  exists logs,
    (catch (perform eng e now) on_error ≫= settle sdk) st =
    (after logs replies region' st, Normal tt).
Proof.
  destruct e as [r| |message|id ref toolParams|]; simpl; intros He; simplify_eq.
  - run. rewrite run_send. eexists. apply (f_equal (fun s => (s, _))), (after_same _ [r]).
  - run. exists []. by rewrite <- (after_same [] []), emit_nil.
  - run. rewrite run_on_error. eexists.
    apply (f_equal (fun s => (s, _))), (after_same _ [parse_error_reply]).
  - destruct (tool_outcome _ _ _ _ _ _) as [region1 outcome] eqn:Ho.
    destruct (adapter_reply id outcome) as [r|] eqn:Hr; simplify_eq/=.
    destruct (invocation_settles _ _ _ _ _ _ _ _ _ Ho Hr) as [logs Hs].
    exists logs. by apply catch_settles.
Qed.

Lemma perform_unmodelled e now sdk st :
  answer_expected (engine_date_parse eng) e now (config_region st) sdk = None ->
  ((catch (perform eng e now) on_error ≫= settle sdk) st).2 = Unmodelled.
Proof.
  destruct e as [r| |message|id ref toolParams|]; simpl; intros He; simplify_eq; [|done].
  destruct (tool_outcome _ _ _ _ _ _) as [region1 outcome] eqn:Ho.
  destruct (adapter_reply id outcome) as [r|] eqn:Hr; simplify_eq/=.
  apply catch_unmodelled. eapply invocation_unmodelled; eauto.
Qed.

(** The log entry of the request comes first and changes nothing else. *)
Lemma catch_log_settle {A B} l (m : M A) (h : string -> M A) (f : A -> M B) st :
  (catch (log l;; m) h ≫= f) st = (catch m h ≫= f) (emit [l] [] st).
Proof. unfold catch. run. by rewrite run_log. Qed.

Lemma serve_line_parsed a request st :
  JSON_parse (arrival_line a) = Parsed request ->
  serve_line eng a st =
  (catch (perform eng (expected request) (arrival_now a)) on_error
     ≫= settle (arrival_reply a)) (emit [request_log request] [] st).
Proof.
  intros Hp. rewrite <- catch_log_settle. unfold serve_line. run.
  by rewrite (on_line_parsed _ _ _ _ _ Hp).
Qed.

(** A line the transducer has an answer for writes exactly that answer. *)
Lemma serve_line_answers a st replies region' :
  answer_arrival eng a (config_region st)
    = Some (replies, region') ->
  exists logs, serve_line eng a st = (after logs replies region' st, Normal tt).
Proof.
  unfold answer_arrival, answer_line, answer.
  destruct (JSON_parse (arrival_line a)) as [request| |] eqn:Hp; intros Ha; simplify_eq.
  - rewrite (serve_line_parsed _ _ _ Hp).
    destruct (perform_answers _ _ _ (emit [request_log request] [] st) _ _ Ha)
      as [logs ->].
    eexists. by rewrite after_emit.
  - unfold serve_line. run. rewrite (on_line_syntax_error _ _ _ _ Hp), run_on_error.
    eexists. apply (f_equal (fun s => (s, _))), (after_same _ [parse_error_reply]).
Qed.

(** A line the transducer has no answer for is outside the model. *)
Lemma serve_line_unmodelled a st :
  answer_arrival eng a (config_region st) = None ->
  (serve_line eng a st).2 = Unmodelled.
Proof.
  unfold answer_arrival, answer_line, answer.
  destruct (JSON_parse (arrival_line a)) as [request| |] eqn:Hp; intros Ha; simplify_eq.
  - rewrite (serve_line_parsed _ _ _ Hp). by apply perform_unmodelled.
  - unfold serve_line. run. by rewrite (on_line_out_of_model _ _ _ _ Hp).
Qed.

(** The transducer on a sequence of lines: the replies in order, the region
    threaded from one line to the next. *)
Fixpoint answer_all (arrivals : list arrival) (region : value)
  : option (list reply * value) :=
  match arrivals with
  | [] => Some ([], region)
  | a :: rest =>
      '(replies, region1) ←
        answer_arrival eng a region;
      '(replies', region2) ← answer_all rest region1;
      Some ((replies ++ replies')%list, region2)
  end.

Lemma serve_answers arrivals st replies region' :
  answer_all arrivals (config_region st) = Some (replies, region') ->
  exists logs, serve eng arrivals st = (after logs replies region' st, Normal tt).
Proof.
  revert st replies region'.
  induction arrivals as [|a rest IH]; intros st replies region' Ha; simplify_eq/=.
  { exists []. unfold after. by rewrite with_region_same, emit_nil. }
  destruct (answer_arrival eng _ _) as [[replies1 region1]|] eqn:H1; simplify_eq/=.
  destruct (answer_all rest region1) as [[replies2 region2]|] eqn:H2; simplify_eq/=.
  destruct (serve_line_answers _ _ _ _ H1) as [logs1 Hs1].
  destruct (IH (after logs1 replies1 region1 st) _ _ H2) as [logs2 Hs2].
  exists (logs1 ++ logs2)%list. run. rewrite Hs1, Hs2. by rewrite after_after.
Qed.

Lemma serve_unmodelled arrivals st :
  answer_all arrivals (config_region st) = None -> (serve eng arrivals st).2 = Unmodelled.
Proof.
  revert st. induction arrivals as [|a rest IH]; intros st Ha; simplify_eq/=.
  destruct (answer_arrival eng _ _) as [[replies1 region1]|] eqn:H1; simplify_eq/=.
  - destruct (serve_line_answers _ _ _ _ H1) as [logs1 Hs1]. run. rewrite Hs1.
    apply IH. rewrite config_region_after. by destruct (answer_all rest region1) as [[]|].
  - by apply run_bind_unmodelled, serve_line_unmodelled.
Qed.

(** C2: a line handled to the end writes exactly the replies the transducer
    [answer_line] gives for it, in that order and encoded by [encode], leaves
    the region the transducer gives, appends to the log only, and ends
    normally; where the transducer has no answer the line is outside the
    model. *)
Theorem serve_line_refines a st :
  match answer_arrival eng a (config_region st) with
  | Some (replies, region') =>
      exists logs, serve_line eng a st = (after logs replies region' st, Normal tt)
  | None => (serve_line eng a st).2 = Unmodelled
  end.
Proof.
  destruct (answer_arrival eng _ _) as [[replies region']|] eqn:Ha;
    eauto using serve_line_answers, serve_line_unmodelled.
Qed.

(** C4: lines served one after the other write the concatenation of their
    answers, each line starting from the region the one before left. *)
Theorem serve_refines arrivals st :
  match answer_all arrivals (config_region st) with
  | Some (replies, region') =>
      exists logs, serve eng arrivals st = (after logs replies region' st, Normal tt)
  | None => (serve eng arrivals st).2 = Unmodelled
  end.
Proof.
  destruct (answer_all _ _) as [[replies region']|] eqn:Ha;
    eauto using serve_answers, serve_unmodelled.
Qed.

End sequential.

(** ** What a client observes, branch by branch *)

(** The result of serving a line: [replies] written after what was there,
    in this order, the region left at [region'], the log extended, a normal
    end. *)
Definition writes_replies (st : state) (replies : list reply) (region' : value)
    (res : state * completion unit) : Prop :=
  output res.1 = (output st ++ map encode replies)%list /\
  config_region res.1 = region' /\
  extends st res.1 /\
  res.2 = Normal tt.

Lemma extends_after logs replies region st : extends st (after logs replies region st).
Proof. split; eexists; reflexivity. Qed.

Lemma writes_replies_after logs replies region st :
  writes_replies st replies region (after logs replies region st, Normal tt).
Proof. repeat split; eauto using extends_after; eexists; reflexivity. Qed.

Section behaviour.
Variable eng : engine.


Lemma serve_line_writes a st replies region' :
  answer_arrival eng a (config_region st) = Some (replies, region') ->
  writes_replies st replies region' (serve_line eng a st).
Proof.
  intros Ha.
  destruct (serve_line_answers eng _ _ _ _ Ha) as [logs ->].
  apply writes_replies_after.
Qed.

(** A parsed request is answered as [expected] says. *)
Lemma serve_request_writes a request st replies region' :
  JSON_parse (arrival_line a) = Parsed request ->
  answer_expected (engine_date_parse eng) (expected request) (arrival_now a) (config_region st)
    (arrival_reply a) = Some (replies, region') ->
  writes_replies st replies region' (serve_line eng a st).
Proof.
  intros Hp He. apply serve_line_writes.
  unfold answer_arrival, answer_line, answer. by rewrite Hp.
Qed.

Lemma serve_reply_writes a request st r :
  JSON_parse (arrival_line a) = Parsed request ->
  expected request = Reply r ->
  writes_replies st [r] (config_region st) (serve_line eng a st).
Proof. intros Hp He. eapply serve_request_writes; [done|]. by rewrite He. Qed.

(** The parameters a [tools/invoke] request passes to the handler. *)
Definition tool_params (request : value) : value :=
  js_or (get_opt (get_opt request "params") "parameters") {{ }}.

Lemma expected_tool request ref key :
  calls request "tools/invoke" ->
  get_opt (get_opt request "params") "name" = $key ->
  toolHandlers_get key = Some ref ->
  expected request = Invocation (get_opt request "id") ref (tool_params request).
Proof.
  intros Hc Hk Hr. rewrite (expected_calls _ _ Hc). simpl. unfold expected_invoke.
  rewrite Hk. simpl. rewrite Hr. destruct key; [done|]. done.
Qed.

(** Serving a request that names a handler: the adapter's reply for the
    outcome of the handler, and the region the handler leaves. *)
Lemma serve_tool_writes a request st ref key region' outcome r :
  JSON_parse (arrival_line a) = Parsed request ->
  calls request "tools/invoke" ->
  get_opt (get_opt request "params") "name" = $key ->
  toolHandlers_get key = Some ref ->
  tool_outcome (engine_date_parse eng) ref (tool_params request) (arrival_now a)
    (config_region st) (arrival_reply a) = (region', outcome) ->
  adapter_reply (get_opt request "id") outcome = Some r ->
  writes_replies st [r] region' (serve_line eng a st).
Proof.
  intros Hp Hc Hk Hg Ho Hr. eapply serve_request_writes; [done|].
  rewrite (expected_tool _ _ _ Hc Hk Hg). simpl. by rewrite Ho, Hr.
Qed.

(** C5: a request whose [jsonrpc] member is not the string 2.0 is answered
    with error -32600 and the request's [id], whatever its method is, and
    nothing else is written. *)
Theorem invalid_version_rejected a request st :
  JSON_parse (arrival_line a) = Parsed request ->
  nullish request = false ->
  get_opt request "jsonrpc" <> $"2.0" ->
  writes_replies st
    [Failure (get_opt request "id") invalid_request "Invalid Request: Not JSON-RPC 2.0"]
    (config_region st) (serve_line eng a st).
Proof. intros Hp Hn Hj. eapply serve_reply_writes; eauto using expected_invalid_version. Qed.

(** C6: a line that is not JSON is answered with error -32700, [id] null,
    and the server goes on: the line ends normally and the region is
    unchanged. *)
Theorem parse_error_answered a st :
  JSON_parse (arrival_line a) = SyntaxError ->
  writes_replies st [Failure VNull (-32700) "Parse error"] (config_region st)
    (serve_line eng a st).
Proof.
  intros Hp. apply serve_line_writes. unfold answer_arrival, answer_line. by rewrite Hp.
Qed.

(** C40: a method that is none of the four the server knows is answered
    with error -32601, Method not found. *)
Theorem unknown_method_rejected a request method st :
  JSON_parse (arrival_line a) = Parsed request ->
  calls request method ->
  alookup method method_names = None ->
  writes_replies st [Failure (get_opt request "id") method_not_found "Method not found"]
    (config_region st) (serve_line eng a st).
Proof.
  intros Hp Hc Hm. eapply serve_reply_writes; [done|].
  by rewrite (expected_calls _ _ Hc), Hm.
Qed.

(** C7: [tools/invoke] with a name for which [toolHandlers] has no
    property, own or inherited, is answered with error -32601 that quotes
    the name, and no handler runs: the region is unchanged. *)
Theorem unknown_tool_rejected a request name st :
  JSON_parse (arrival_line a) = Parsed request ->
  calls request "tools/invoke" ->
  get_opt (get_opt request "params") "name" = $name ->
  toolHandlers_get name = None ->
  writes_replies st
    [Failure (get_opt request "id") method_not_found ("Tool '" +:+ name +:+ "' not found")]
    (config_region st) (serve_line eng a st).
Proof.
  intros Hp Hc Hk Hg. eapply serve_reply_writes; [done|].
  rewrite (expected_calls _ _ Hc). simpl. unfold expected_invoke.
  rewrite Hk. simpl. rewrite Hg. by destruct name.
Qed.

(** C8: [tools/invoke] with the name of a member of [Object.prototype] is
    not rejected as an unknown tool: the member is called with the tool
    parameters, and its result is sent as the result of a tool. *)
Theorem inherited_member_invoked a request m st r :
  JSON_parse (arrival_line a) = Parsed request ->
  calls request "tools/invoke" ->
  get_opt (get_opt request "params") "name" = $(proto_member_key m) ->
  adapter_reply (get_opt request "id") (call_inherited m (tool_params request)) = Some r ->
  writes_replies st [r] (config_region st) (serve_line eng a st).
Proof.
  intros Hp Hc Hk Hr.
  eapply (serve_tool_writes _ _ _ (Inherited m)); eauto. by destruct m.
Qed.

(** C26: [tools/invoke] with the name of a registered tool runs its
    handler: the reply is the handler's result under the request's [id], or
    error -32000 with the handler's message, and the region is the one the
    handler leaves. *)
Theorem registered_tool_invoked a request t st region' outcome r :
  JSON_parse (arrival_line a) = Parsed request ->
  calls request "tools/invoke" ->
  get_opt (get_opt request "params") "name" = $(tool_key t) ->
  tool_outcome (engine_date_parse eng) (Own t) (tool_params request) (arrival_now a)
    (config_region st) (arrival_reply a) = (region', outcome) ->
  adapter_reply (get_opt request "id") outcome = Some r ->
  writes_replies st [r] region' (serve_line eng a st).
Proof.
  intros Hp Hc Hk Ho Hr.
  eapply (serve_tool_writes _ _ _ (Own t)); eauto. by destruct t.
Qed.

(** C27: [initialize] with parameters is answered with the protocol
    version the client sent, the empty tools capability and the server's
    name and version. *)
Theorem initialize_answered a request st :
  JSON_parse (arrival_line a) = Parsed request ->
  calls request "initialize" ->
  nullish (get_opt request "params") = false ->
  writes_replies st
    [Success (get_opt request "id")
       {{ "protocolVersion" ↦ get_opt (get_opt request "params") "protocolVersion";
          "capabilities" ↦ {{ "tools" ↦ {{ }} }};
          "serverInfo" ↦ {{ "name" ↦ $"aws-mcp-server"; "version" ↦ $"1.0.0" }} }}]
    (config_region st) (serve_line eng a st).
Proof.
  intros Hp Hc Hn. eapply serve_reply_writes; [done|].
  rewrite (expected_calls _ _ Hc). simpl. by rewrite Hn.
Qed.

(** C10: [initialize] without parameters makes the callback throw after the
    line has parsed; the outer [catch] answers it as a parse error with [id]
    null, so the request's own [id] is lost. *)
Theorem initialize_without_params_is_parse_error a request st :
  JSON_parse (arrival_line a) = Parsed request ->
  calls request "initialize" ->
  nullish (get_opt request "params") = true ->
  writes_replies st [Failure VNull (-32700) "Parse error"] (config_region st)
    (serve_line eng a st).
Proof.
  intros Hp Hc Hn. eapply serve_request_writes; [done|].
  rewrite (expected_calls _ _ Hc). simpl. by rewrite Hn.
Qed.

(** C28: [tools/list] is answered with one entry per descriptor of the
    catalog, in the catalog's order, each re-shaped by [listed_tool]. *)
Theorem tools_list_answered a request st :
  JSON_parse (arrival_line a) = Parsed request ->
  calls request "tools/list" ->
  writes_replies st
    [Success (get_opt request "id") {{ "tools" ↦ VArr (map listed_tool tools) }}]
    (config_region st) (serve_line eng a st).
Proof.
  intros Hp Hc. eapply serve_reply_writes; [done|]. by rewrite (expected_calls _ _ Hc).
Qed.

(** C29: [notifications/initialized] is answered with nothing: no line is
    written, the region is unchanged and the callback ends normally, with or
    without an [id]. *)
Theorem initialized_notification_silent a request st :
  JSON_parse (arrival_line a) = Parsed request ->
  calls request "notifications/initialized" ->
  writes_replies st [] (config_region st) (serve_line eng a st).
Proof.
  intros Hp Hc. eapply serve_request_writes; [done|]. by rewrite (expected_calls _ _ Hc).
Qed.

(** [ping] answers pong under the request's [id], whatever its
    parameters are and whatever the region is, and leaves the region as it
    was. *)
Theorem ping_answered a request st :
  JSON_parse (arrival_line a) = Parsed request ->
  calls request "tools/invoke" ->
  get_opt (get_opt request "params") "name" = $"ping" ->
  writes_replies st [Success (get_opt request "id") {{ "result" ↦ $"pong" }}]
    (config_region st) (serve_line eng a st).
Proof. intros Hp Hc Hk. by eapply (serve_tool_writes _ _ _ (Own T_ping)). Qed.

(** C9: a request without [id] is not treated as a notification: the
    handler runs and its result is written, in an envelope that has no [id]
    member. *)
Theorem request_without_id_answered a request st :
  JSON_parse (arrival_line a) = Parsed request ->
  calls request "tools/invoke" ->
  get_opt (get_opt request "params") "name" = $"ping" ->
  get_opt request "id" = VUndefined ->
  output (serve_line eng a st).1 =
  (output st ++ [sq "{'jsonrpc':'2.0','result':{'result':'pong'}}"])%list.
Proof.
  intros Hp Hc Hk Hid.
  destruct (serve_tool_writes a request st (Own T_ping) "ping" (config_region st)
              (Normal pong) (Success VUndefined pong)) as [-> _]; try done.
  simpl. by rewrite Hid.
Qed.

Lemma tool_params_not_nullish request : nullish (tool_params request) = false.
Proof. by apply js_or_not_nullish. Qed.

(** C23: [aws.s3.listObjects] without a bucket is answered with error -32000
    and the handler's message, and the SDK is not called; the region the
    request names is set all the same. *)
Theorem missing_bucket_rejected a request st :
  JSON_parse (arrival_line a) = Parsed request ->
  calls request "tools/invoke" ->
  get_opt (get_opt request "params") "name" = $"aws.s3.listObjects" ->
  truthy (get_opt (tool_params request) "bucket") = false ->
  writes_replies st
    [Failure (get_opt request "id") (-32000)
       "Tool execution error: Bucket name is required"]
    (handleRegion (tool_params request) (config_region st)).2
    (serve_line eng a st).
Proof.
  intros Hp Hc Hk Hb.
  apply (serve_tool_writes a request st (Own T_s3_listObjects) "aws.s3.listObjects"
           _ (Throw "Bucket name is required")); try done.
  unfold tool_outcome, handler_start, in_region.
  rewrite !(get_prop_not_nullish _ _ (tool_params_not_nullish request)).
  destruct (handleRegion _ _) as [region config']. simpl. by rewrite Hb.
Qed.

Lemma answer_expected_length e now region sdk replies region' :
  answer_expected (engine_date_parse eng) e now region sdk = Some (replies, region') ->
  (length replies <= 1)%nat.
Proof.
  destruct e; simpl; intros He; simplify_eq/=; try lia.
  destruct (tool_outcome _ _ _ _ _ _) as [? outcome].
  destruct (adapter_reply _ outcome); simplify_eq/=. lia.
Qed.

(** A line handled to the end adds at most one line to the output. *)
Theorem at_most_one_reply a st :
  (serve_line eng a st).2 = Normal tt ->
  exists lines,
    output (serve_line eng a st).1 = (output st ++ lines)%list /\ (length lines <= 1)%nat.
Proof.
  intros Hn.
  destruct (answer_arrival eng a (config_region st)) as [[replies region']|] eqn:Ha.
  - destruct (serve_line_writes _ _ _ _ Ha) as (Ho & _). eexists. split; [done|].
    rewrite length_map. revert Ha. unfold answer_arrival, answer_line, answer.
    destruct (JSON_parse _); intros; simplify_eq/=; eauto using answer_expected_length.
  - apply (serve_line_unmodelled eng) in Ha. congruence.
Qed.

End behaviour.

(** ** Start-up and what never happens *)

Section safety.
Variable eng : engine.

Lemma monotone_sendResponse id result : monotone (sendResponse id result).
Proof. unfold sendResponse. monotone. Qed.

Lemma monotone_sendErrorResponse id code message :
  monotone (sendErrorResponse id code message).
Proof. unfold sendErrorResponse. monotone. Qed.

Lemma monotone_tool_failed id message : monotone (tool_failed id message).
Proof. unfold tool_failed. monotone. apply monotone_sendErrorResponse. Qed.

Lemma monotone_call_handler ref toolParams now :
  monotone (call_handler eng ref toolParams now).
Proof. unfold call_handler. monotone. Qed.

Lemma monotone_lookup_handler toolName : monotone (lookup_handler toolName).
Proof. unfold lookup_handler. monotone. Qed.

#[local] Hint Resolve monotone_sendResponse monotone_sendErrorResponse
  monotone_tool_failed monotone_call_handler monotone_lookup_handler : js.

Lemma monotone_invoke request now : monotone (invoke eng request now).
Proof. unfold invoke. monotone; auto with js. Qed.

Lemma monotone_on_request request now : monotone (on_request eng request now).
Proof. unfold on_request. monotone; auto using monotone_invoke with js. Qed.

Lemma monotone_on_line line now :
  monotone (on_line eng line now).
Proof. unfold on_line, on_error. monotone; auto using monotone_on_request with js. Qed.

Lemma monotone_resume p sdk : monotone (resume p sdk).
Proof. unfold resume. monotone; auto with js. Qed.

Lemma monotone_serve_line a : monotone (serve_line eng a).
Proof. unfold serve_line. monotone; auto using monotone_on_line, monotone_resume. Qed.

Lemma monotone_serve arrivals : monotone (serve eng arrivals).
Proof. induction arrivals; simpl; monotone. apply monotone_serve_line. Qed.

Lemma monotone_startup credentials : monotone (startup credentials).
Proof. unfold startup. monotone. Qed.

Lemma tidy_send_lines id result code message :
  preserves tidy (sendResponse id result) /\
  preserves tidy (sendErrorResponse id code message) /\
  preserves tidy (tool_failed id message).
Proof.
  unfold tool_failed, sendResponse, sendErrorResponse.
  split_and!; preserves; auto using tidy_log, tidy_console_log, stringify_one_line.
Qed.

Lemma tidy_sendResponse id result : preserves tidy (sendResponse id result).
Proof. apply (tidy_send_lines id result 0 ""). Qed.

Lemma tidy_sendErrorResponse id code message :
  preserves tidy (sendErrorResponse id code message).
Proof. apply (tidy_send_lines id VNull code message). Qed.

Lemma tidy_tool_failed id message : preserves tidy (tool_failed id message).
Proof. apply (tidy_send_lines id VNull 0 message). Qed.

Lemma tidy_call_handler ref toolParams now :
  preserves tidy (call_handler eng ref toolParams now).
Proof. unfold call_handler. preserves; auto using tidy_set_region. Qed.

#[local] Hint Resolve tidy_log tidy_sendResponse tidy_sendErrorResponse tidy_tool_failed
  tidy_call_handler : js.

Lemma tidy_on_line line now : preserves tidy (on_line eng line now).
Proof.
  unfold on_line, on_error, on_request, invoke, lookup_handler.
  preserves; auto with js.
Qed.

Lemma tidy_serve_line a : preserves tidy (serve_line eng a).
Proof. unfold serve_line, resume. preserves; auto using tidy_on_line with js. Qed.

Lemma tidy_serve arrivals : preserves tidy (serve eng arrivals).
Proof. induction arrivals; simpl; preserves. apply tidy_serve_line. Qed.

Lemma tidy_startup credentials : preserves tidy (startup credentials).
Proof.
  unfold startup. preserves;
    auto using tidy_log, tidy_set_region, tidy_console_log, stringify_one_line.
Qed.

(** The callback reads the region and nothing else of the state. *)
Lemma local_sendResponse id result : local (sendResponse id result).
Proof. unfold sendResponse. local. Qed.

Lemma local_sendErrorResponse id code message :
  local (sendErrorResponse id code message).
Proof. unfold sendErrorResponse. local. Qed.

Lemma local_tool_failed id message : local (tool_failed id message).
Proof. unfold tool_failed. local. apply local_sendErrorResponse. Qed.

Lemma local_call_handler ref toolParams now : local (call_handler eng ref toolParams now).
Proof. unfold call_handler. local. Qed.

#[local] Hint Resolve local_sendResponse local_sendErrorResponse local_tool_failed
  local_call_handler : js.

Lemma local_on_line line now : local (on_line eng line now).
Proof.
  unfold on_line, on_error, on_request, invoke, lookup_handler.
  local; auto with js.
Qed.

(** C20: every message is one line: no line the program writes, at start-up
    or in answer to any sequence of lines, holds a line feed. *)
Theorem main_writes_lines credentials arrivals sdk_region :
  Forall (fun line => one_line line = true)
    (output (main eng credentials arrivals (boot_state sdk_region)).1).
Proof.
  change (tidy (main eng credentials arrivals (boot_state sdk_region)).1).
  assert (preserves tidy (main eng credentials arrivals)) as H.
  { unfold main. preserves; auto using tidy_startup, tidy_serve. }
  apply H. constructor.
Qed.

(** C31: start-up writes the ready notification as the first line, once,
    whether or not the credentials load; the region becomes us-west-2 when
    they do and stays what the SDK had when they do not. *)
Theorem startup_announces credentials sdk_region :
  startup credentials (boot_state sdk_region) =
  (State (if credentials is None then $"us-west-2" else sdk_region)
     [sq "{'jsonrpc':'2.0','method':'notifications/ready','params':{}}"]
     (["[aws] [info] Initializing server..."] ++
      (if credentials is Some message
       then ["[aws] [error] Error initializing AWS credentials: " +:+ message] else []) ++
      ["[aws] [info] Server started and connected successfully"])%list,
   Normal tt).
Proof. by destruct credentials. Qed.

End safety.

(** ** Examples

    The theorems above at concrete lines.  The engine's [Date.parse] and the
    text of the parser's errors do not matter to them. *)

Definition example_engine : engine :=
  Engine (fun _ => InvalidDate) (fun _ => "Unexpected token").
Definition example_state : state := boot_state $"us-west-2".

(** A line written with apostrophes for double quotes, at time 0, with the
    SDK answering [sdk] if it is called. *)
Definition example_arrival (line : string) (sdk : completion value) : arrival :=
  Arrival (sq line) 0 sdk.

Definition example_request (line : string) : value :=
  match JSON_parse (sq line) with Parsed v => v | _ => VUndefined end.

Definition example_serve (line : string) (sdk : completion value)
  : state * completion unit :=
  serve_line example_engine (example_arrival line sdk)
    example_state.

(** Applies a theorem about a served line to the line of the goal. *)
Ltac at_arrival thm :=
  lazymatch goal with
  | |- context [example_serve ?l ?sdk] =>
      apply (thm example_engine (example_arrival l sdk))
  end.

Ltac at_request thm :=
  lazymatch goal with
  | |- context [example_serve ?l ?sdk] =>
      apply (thm example_engine (example_arrival l sdk)
               (example_request l))
  end.

Lemma invalid_version_rejected_witness :
  writes_replies example_state
    [Failure #7 (-32600) "Invalid Request: Not JSON-RPC 2.0"] $"us-west-2"
    (example_serve "{'jsonrpc':'1.0','id':7,'method':'tools/list'}" Unmodelled).
Proof.
  at_request invalid_version_rejected; by vm_compute.
Defined.

Lemma parse_error_answered_witness :
  writes_replies example_state [Failure VNull (-32700) "Parse error"] $"us-west-2"
    (example_serve "{not json" Unmodelled).
Proof.
  at_arrival parse_error_answered; by vm_compute.
Defined.

Lemma unknown_method_rejected_witness :
  writes_replies example_state [Failure #3 (-32601) "Method not found"] $"us-west-2"
    (example_serve "{'jsonrpc':'2.0','id':3,'method':'resources/list'}" Unmodelled).
Proof.
  at_request (fun eng a r => unknown_method_rejected eng a r "resources/list");
    by vm_compute.
Defined.

Lemma unknown_tool_rejected_witness :
  writes_replies example_state [Failure #3 (-32601) "Tool 'nope' not found"] $"us-west-2"
    (example_serve
       "{'jsonrpc':'2.0','id':3,'method':'tools/invoke','params':{'name':'nope'}}"
       Unmodelled).
Proof.
  at_request (fun eng a r => unknown_tool_rejected eng a r "nope"); by vm_compute.
Defined.

Lemma inherited_member_invoked_witness :
  writes_replies example_state [Success #5 $"[object Object]"] $"us-west-2"
    (example_serve
       "{'jsonrpc':'2.0','id':5,'method':'tools/invoke','params':{'name':'toString'}}"
       Unmodelled).
Proof.
  at_request (fun eng a r => inherited_member_invoked eng a r P_toString);
    by vm_compute.
Defined.

Lemma registered_tool_invoked_witness :
  writes_replies example_state
    [Success #6 {{ "result" ↦ {{ "region" ↦ $"eu-west-1"; "buckets" ↦ VArr [] }} }}]
    $"eu-west-1"
    (example_serve
       ("{'jsonrpc':'2.0','id':6,'method':'tools/invoke','params':" +:+
        "{'name':'aws.s3.listBuckets','parameters':{'region':'eu-west-1'}}}")
       (Normal {{ "Buckets" ↦ VArr [] }})).
Proof.
  at_request (fun eng a r =>
    registered_tool_invoked eng a r T_s3_listBuckets example_state $"eu-west-1"
      (Normal {{ "result" ↦ {{ "region" ↦ $"eu-west-1"; "buckets" ↦ VArr [] }} }}));
    by vm_compute.
Defined.

Lemma initialize_answered_witness :
  writes_replies example_state
    [Success #1
       {{ "protocolVersion" ↦ $"2024-11-05";
          "capabilities" ↦ {{ "tools" ↦ {{ }} }};
          "serverInfo" ↦ {{ "name" ↦ $"aws-mcp-server"; "version" ↦ $"1.0.0" }} }}]
    $"us-west-2"
    (example_serve
       ("{'jsonrpc':'2.0','id':1,'method':'initialize'," +:+
        "'params':{'protocolVersion':'2024-11-05'}}")
       Unmodelled).
Proof.
  at_request initialize_answered; by vm_compute.
Defined.

Lemma initialize_without_params_is_parse_error_witness :
  writes_replies example_state [Failure VNull (-32700) "Parse error"] $"us-west-2"
    (example_serve "{'jsonrpc':'2.0','id':1,'method':'initialize'}" Unmodelled).
Proof.
  at_request initialize_without_params_is_parse_error; by vm_compute.
Defined.

Lemma tools_list_answered_witness :
  writes_replies example_state
    [Success #2 {{ "tools" ↦ VArr (map listed_tool tools) }}] $"us-west-2"
    (example_serve "{'jsonrpc':'2.0','id':2,'method':'tools/list'}" Unmodelled).
Proof.
  at_request tools_list_answered; by vm_compute.
Defined.

Lemma initialized_notification_silent_witness :
  writes_replies example_state [] $"us-west-2"
    (example_serve "{'jsonrpc':'2.0','method':'notifications/initialized'}" Unmodelled).
Proof.
  at_request initialized_notification_silent; by vm_compute.
Defined.

Lemma ping_answered_witness :
  writes_replies example_state [Success #2 {{ "result" ↦ $"pong" }}] $"us-west-2"
    (example_serve
       "{'jsonrpc':'2.0','id':2,'method':'tools/invoke','params':{'name':'ping'}}"
       Unmodelled).
Proof.
  at_request ping_answered; by vm_compute.
Defined.

Lemma at_most_one_reply_witness :
  exists lines,
    output (example_serve "{'jsonrpc':'2.0','id':2,'method':'tools/list'}" Unmodelled).1
      = (output example_state ++ lines)%list /\ (length lines <= 1)%nat.
Proof.
  at_arrival at_most_one_reply; by vm_compute.
Defined.

Lemma request_without_id_answered_witness :
  output (example_serve
            "{'jsonrpc':'2.0','method':'tools/invoke','params':{'name':'ping'}}"
            Unmodelled).1
  = [sq "{'jsonrpc':'2.0','result':{'result':'pong'}}"].
Proof. at_request request_without_id_answered; by vm_compute. Defined.

Lemma missing_bucket_rejected_witness :
  writes_replies example_state
    [Failure #4 (-32000) "Tool execution error: Bucket name is required"] $"eu-west-1"
    (example_serve
       ("{'jsonrpc':'2.0','id':4,'method':'tools/invoke','params':" +:+
        "{'name':'aws.s3.listObjects','parameters':{'region':'eu-west-1'}}}")
       Unmodelled).
Proof. at_request missing_bucket_rejected; by vm_compute. Defined.
