(* ===== verification/JsonRpc.v ===== *)
(** * The earlier JSON-RPC server

    src/unnamed/part_001 holds, after a README, the server the program grew
    from (lines 43-165): the same loop over lines and the same two writers,
    a catalog with [ping] alone, no table of handlers and nothing
    asynchronous.  Its [tools/invoke] answers the one name [ping] and its
    callback has no branch for [notifications/initialized].

    The definitions carry the prefix [rpc_] where the main server has a
    definition of the same name.  The specification [rpc_expected] is the
    counterpart of [Protocol.expected]; the last section compares the two
    servers line by line on the requests they have in common. *)

From S2P Require Import Prelude JsValue JsonText Catalog Handlers Effects Protocol Server.

(** ** The writers (lines 135-157) *)

Definition rpc_sendResponse (id result : value) : M unit :=
  let response := success_response id result in
  log ("Sending response: " +:+ JSON_stringify response);;
  console_log (JSON_stringify response).

Definition rpc_sendErrorResponse (id : value) (code : Z) (message : string) : M unit :=
  let response := error_response id code message in
  log ("Sending error: " +:+ JSON_stringify response);;
  console_log (JSON_stringify response).

Definition rpc_send (r : reply) : M unit :=
  match r with
  | Success id result => rpc_sendResponse id result
  | Failure id code message => rpc_sendErrorResponse id code message
  end.

(** ** Start-up (lines 61 and 160-165) *)

Definition rpc_startup : M unit :=
  log "Server starting...";;
  log "Server ready";;
  console_log (JSON_stringify ready_notification).

(** ** The callback (lines 77-132) *)

(** The body of [try], after [JSON.parse].  The test [request.method ===
    'tools/invoke' && request.params?.name === 'ping'] reads [params] only
    when the method matches; both ways of failing it fall through to the
    same statement, here [not_found]. *)
Definition rpc_on_request (request : value) : M unit :=
  log ("Received request: " +:+ JSON_stringify request);;
  jsonrpc ← lift (get_prop request "jsonrpc");
  if negb (strict_eq_str jsonrpc "2.0") then
    id ← lift (get_prop request "id");
    rpc_sendErrorResponse id (-32600) "Invalid Request: Not JSON-RPC 2.0"
  else
    method ← lift (get_prop request "method");
    if strict_eq_str method "initialize" then
      id ← lift (get_prop request "id");
      params ← lift (get_prop request "params");
      protocolVersion ← lift (get_prop params "protocolVersion");
      rpc_sendResponse id (initialize_result protocolVersion)
    else if strict_eq_str method "tools/list" then
      id ← lift (get_prop request "id");
      entries ← lift (mapM_completion tool_entry tools_jsonrpc);
      rpc_sendResponse id {{ "tools" ↦ VArr entries }}
    else
      let not_found : M unit :=
        id ← lift (get_prop request "id");
        rpc_sendErrorResponse id (-32601) "Method not found" in
      if strict_eq_str method "tools/invoke" then
        params ← lift (get_prop request "params");
        if strict_eq_str (get_opt params "name") "ping" then
          id ← lift (get_prop request "id");
          rpc_sendResponse id {{ "result" ↦ $"pong" }}
        else not_found
      else not_found.

(** The [catch] (lines 128-131). *)
Definition rpc_on_error (message : string) : M unit :=
  log ("Error processing request: " +:+ message);;
  rpc_sendErrorResponse VNull (-32700) "Parse error".

(** The callback on one line. *)
Definition rpc_on_line (eng : engine) (line : string) : M unit :=
  catch
    (match JSON_parse line with
     | Parsed request => rpc_on_request request
     | SyntaxError => lift (Throw (engine_syntax_error eng line))
     | OutOfModel => lift Unmodelled
     end)
    rpc_on_error.

Fixpoint rpc_serve (eng : engine) (lines : list string) : M unit :=
  match lines with
  | [] => mret tt
  | line :: rest => rpc_on_line eng line;; rpc_serve eng rest
  end.

(** ** Specification *)

(** What the earlier server owes the client for a parsed request: always
    one reply, or a fault. *)
Definition rpc_expected (request : value) : expectation :=
  if nullish request then
    Fault (read_error (if request is VNull then "null" else "undefined") "jsonrpc")
  else
    let id := get_opt request "id" in
    if negb (bool_decide (get_opt request "jsonrpc" = $"2.0")) then
      Reply (Failure id invalid_request "Invalid Request: Not JSON-RPC 2.0")
    else
      match classify_method (get_opt request "method") with
      | M_initialize => expected_call request M_initialize
      | M_tools_list =>
          Reply (Success id {{ "tools" ↦ VArr (map listed_tool tools_jsonrpc) }})
      | M_tools_invoke =>
          if bool_decide (get_opt (get_opt request "params") "name" = $"ping")
          then Reply (Success id pong)
          else Reply (Failure id method_not_found "Method not found")
      | M_notifications_initialized | M_unknown =>
          Reply (Failure id method_not_found "Method not found")
      end.

(** The replies written for a line. *)
Definition rpc_answer (request : value) : option (list reply) :=
  match rpc_expected request with
  | Reply r => Some [r]
  | Fault _ => Some [parse_error_reply]
  | _ => None
  end.

Definition rpc_answer_line (line : string) : option (list reply) :=
  match JSON_parse line with
  | Parsed request => rpc_answer request
  | SyntaxError => Some [parse_error_reply]
  | OutOfModel => None
  end.

(** * Properties *)

#[local] Arguments String.append : simpl never.
#[local] Arguments rpc_sendResponse : simpl never.
#[local] Arguments rpc_sendErrorResponse : simpl never.
#[local] Arguments JSON_stringify : simpl never.
#[local] Arguments get_opt : simpl never.
#[local] Arguments mapM_completion : simpl never.

Definition rpc_sent_log (r : reply) : string :=
  match r with
  | Success _ _ => "Sending response: " +:+ encode r
  | Failure _ _ _ => "Sending error: " +:+ encode r
  end.

Lemma run_rpc_send r st : rpc_send r st = (emit [rpc_sent_log r] [encode r] st, Normal tt).
Proof.
  destruct r; unfold rpc_send, rpc_sendResponse, rpc_sendErrorResponse; run;
    by rewrite !run_log, run_console_log, emit_emit.
Qed.

Lemma run_rpc_sendResponse id result st :
  rpc_sendResponse id result st = rpc_send (Success id result) st.
Proof. reflexivity. Qed.

Lemma run_rpc_sendErrorResponse id code message st :
  rpc_sendErrorResponse id code message st = rpc_send (Failure id code message) st.
Proof. reflexivity. Qed.

(** How the callback carries out what is expected. *)
Definition rpc_perform (e : expectation) : M unit :=
  match e with
  | Reply r => rpc_send r
  | Fault message => lift (Throw message)
  | _ => lift Unmodelled
  end.

Lemma rpc_tools_listed :
  mapM_completion tool_entry tools_jsonrpc = Normal (map listed_tool tools_jsonrpc).
Proof. by_compute. Qed.

(** The body of the callback logs the request and then does what
    [rpc_expected] prescribes. *)
Lemma rpc_on_request_expected request st :
  rpc_on_request request st =
  (log ("Received request: " +:+ JSON_stringify request);;
   rpc_perform (rpc_expected request)) st.
Proof.
  unfold rpc_on_request, rpc_expected.
  destruct (nullish request) eqn:Hn; [by destruct request|].
  rewrite !(get_prop_not_nullish _ _ Hn), <- !strict_eq_str_decide. run.
  destruct (log _ st) as [st0 [[]|e|]]; try done.
  destruct (strict_eq_str (get_opt request "jsonrpc") "2.0"); run; [|done].
  destruct (get_opt request "method") as [| | | |m| |]; try done.
  unfold expected_call, classify_method, strict_eq_str at 1 2 3 4, alookup, method_names.
  repeat (case_string_eqb; run; try done).
  - by destruct (get_opt request "params").
  - unfold strict_eq_str.
    destruct (get_opt (get_opt request "params") "name") as [| | | |s| |]; try done.
    by destruct (String.eqb s "ping").
Qed.

Lemma run_rpc_on_error message st :
  rpc_on_error message st =
  (emit ["Error processing request: " +:+ message; rpc_sent_log parse_error_reply]
     [encode parse_error_reply] st, Normal tt).
Proof.
  unfold rpc_on_error. run.
  by rewrite run_log, run_rpc_sendErrorResponse, run_rpc_send, emit_emit.
Qed.

(** What was expected of a request, carried out under the [catch]. *)
Lemma rpc_perform_answers request st replies :
  rpc_answer request = Some replies ->
  exists logs,
    catch (log ("Received request: " +:+ JSON_stringify request);;
           rpc_perform (rpc_expected request)) rpc_on_error st =
    (emit logs (map encode replies) st, Normal tt).
Proof.
  unfold rpc_answer, catch. run. rewrite run_log.
  destruct (rpc_expected request) as [r| |message| |]; simpl; intros; simplify_eq.
  - rewrite run_rpc_send, emit_emit. eauto.
  - rewrite run_rpc_on_error, emit_emit. eauto.
Qed.

(** The earlier server on a line it has an answer for. *)
Lemma rpc_on_line_answers eng line st replies :
  rpc_answer_line line = Some replies ->
  exists logs, rpc_on_line eng line st = (emit logs (map encode replies) st, Normal tt).
Proof.
  unfold rpc_answer_line, rpc_on_line.
  destruct (JSON_parse line) as [request| |] eqn:Hp; intros Ha; simplify_eq.
  - destruct (rpc_perform_answers request st replies Ha) as [logs Hl].
    exists logs. rewrite <- Hl. unfold catch. by rewrite rpc_on_request_expected.
  - unfold catch. run. rewrite run_rpc_on_error. eauto.
Qed.

(** C22: the earlier server writes, for every line, exactly the replies its
    specification [rpc_answer_line] gives, and always ends normally: every
    line in the model gets exactly one reply. *)
Theorem rpc_on_line_refines eng line st :
  match rpc_answer_line line with
  | Some replies =>
      length replies = 1%nat /\
      exists logs, rpc_on_line eng line st = (emit logs (map encode replies) st, Normal tt)
  | None => JSON_parse line = OutOfModel
  end.
Proof.
  destruct (rpc_answer_line line) as [replies|] eqn:Ha.
  - split; [|by apply rpc_on_line_answers].
    unfold rpc_answer_line, rpc_answer in Ha. repeat case_match; by simplify_eq.
  - unfold rpc_answer_line, rpc_answer, rpc_expected, expected_call in Ha.
    repeat case_match; by simplify_eq.
Qed.

(** ** The two servers, line by line *)

(** The requests both servers answer alike: a request that is null or
    whose version is not 2.0, [initialize], [tools/invoke] of [ping] and a
    method neither knows.  Left out are [tools/list] (the catalogs differ),
    [tools/invoke] of anything but [ping], and
    [notifications/initialized]. *)
Definition shared (request : value) : bool :=
  nullish request
  || negb (bool_decide (get_opt request "jsonrpc" = $"2.0"))
  || match classify_method (get_opt request "method") with
     | M_initialize | M_unknown => true
     | M_tools_invoke => bool_decide (get_opt (get_opt request "params") "name" = $"ping")
     | M_tools_list | M_notifications_initialized => false
     end.

Lemma shared_answer date_parse request now region sdk replies :
  shared request = true ->
  rpc_answer request = Some replies ->
  answer date_parse request now region sdk = Some (replies, region).
Proof.
  unfold shared, rpc_answer, answer, rpc_expected, expected.
  destruct (nullish request); [by intros; simplify_eq/=|].
  destruct (bool_decide (get_opt request "jsonrpc" = $"2.0")); [|by intros; simplify_eq/=].
  simpl. destruct (classify_method _); try done.
  - unfold expected_call. destruct (nullish _); by intros; simplify_eq/=.
  - unfold expected_call, expected_invoke.
    intros ->%bool_decide_eq_true. rewrite bool_decide_eq_true_2 by done.
    by intros; simplify_eq/=.
  - by intros; simplify_eq/=.
Qed.

Lemma shared_answer_line date_parse line now region sdk request replies :
  JSON_parse line = Parsed request ->
  shared request = true ->
  rpc_answer_line line = Some replies ->
  answer_line date_parse line now region sdk = Some (replies, region).
Proof.
  unfold rpc_answer_line, answer_line. intros ->. apply shared_answer.
Qed.

(** C21: on the requests of [shared] the main server writes the line the
    earlier server writes and leaves the region as it was.  These are: a
    request whose version is not 2.0, [initialize], [tools/invoke] of
    [ping], and a method neither server knows.  [tools/list] is not among
    them (the catalogs differ), nor is [notifications/initialized] or the
    invocation of any other tool. *)
Theorem servers_agree eng a request st :
  JSON_parse (arrival_line a) = Parsed request ->
  shared request = true ->
  is_Some (rpc_answer request) ->
  output (serve_line eng a st).1 = output (rpc_on_line eng (arrival_line a) st).1 /\
  config_region (serve_line eng a st).1 = config_region st.
Proof.
  intros Hp Hs [replies Hr].
  assert (rpc_answer_line (arrival_line a) = Some replies) as Hl
    by (unfold rpc_answer_line; by rewrite Hp).
  destruct (rpc_on_line_answers eng _ st _ Hl) as [logs ->].
  destruct (serve_line_answers eng a st replies (config_region st)) as [logs' ->]; [|done].
  by apply (shared_answer_line _ _ _ _ _ request).
Qed.

(** C39: the earlier server has no branch for [notifications/initialized]:
    it answers the notification with error -32601, where the main server
    writes nothing. *)
Theorem rpc_answers_initialized_notification eng line request st :
  JSON_parse line = Parsed request ->
  calls request "notifications/initialized" ->
  output (rpc_on_line eng line st).1 =
  (output st ++
   [encode (Failure (get_opt request "id") method_not_found "Method not found")])%list.
Proof.
  intros Hp Hc.
  destruct (rpc_on_line_answers eng line st
              [Failure (get_opt request "id") method_not_found "Method not found"])
    as [logs ->]; [|done].
  unfold rpc_answer_line, rpc_answer, rpc_expected. rewrite Hp.
  rewrite (calls_not_nullish _ _ Hc). destruct Hc as [-> ->]. by rewrite bool_decide_eq_true_2.
Qed.

Lemma servers_agree_witness :
  output (example_serve
            "{'jsonrpc':'2.0','id':2,'method':'tools/invoke','params':{'name':'ping'}}"
            Unmodelled).1
  = output (rpc_on_line example_engine
              (sq "{'jsonrpc':'2.0','id':2,'method':'tools/invoke','params':{'name':'ping'}}")
              example_state).1 /\
  config_region (example_serve
            "{'jsonrpc':'2.0','id':2,'method':'tools/invoke','params':{'name':'ping'}}"
            Unmodelled).1 = $"us-west-2".
Proof.
  apply (servers_agree example_engine
           (example_arrival
              "{'jsonrpc':'2.0','id':2,'method':'tools/invoke','params':{'name':'ping'}}"
              Unmodelled)
           (example_request
              "{'jsonrpc':'2.0','id':2,'method':'tools/invoke','params':{'name':'ping'}}"));
    first [by vm_compute | by eexists].
Defined.

Lemma rpc_answers_initialized_notification_witness :
  output (rpc_on_line example_engine
            (sq "{'jsonrpc':'2.0','method':'notifications/initialized'}") example_state).1
  = [sq "{'jsonrpc':'2.0','error':{'code':-32601,'message':'Method not found'}}"].
Proof.
  apply (rpc_answers_initialized_notification example_engine _
           (example_request "{'jsonrpc':'2.0','method':'notifications/initialized'}"));
    by vm_compute.
Defined.
