(* ===== verification/EventLoop.v ===== *)
(** * The event loop: several requests in flight

    The callback of [rl.on('line', ...)] is an asynchronous function
    (src/mcp-server-aws.js line 687).  It runs without interruption up to its
    [await] (line 743) and again from there to its end; between the two
    halves the loop runs other callbacks.  Two kinds of events drive the
    program:

    - a chunk of input: [readline] emits one [line] event per line of the
      chunk, one after the other, so each callback runs up to its [await]
      before the next starts.  A callback that awaits something already
      settled (the promise of [ping] or of a handler that rejected its
      parameters, the plain value of an inherited member) continues in a
      microtask, which runs once the chunk has been emitted, first come
      first served;
    - the settlement of an SDK call: the callback that awaits it continues
      to its end.

    [deliver] and [loop_step] are these steps; [in_flight] holds the
    callbacks that wait for the SDK, each with the reply that will come.
    The theorems relate every schedule to [Server.serve], the schedule in
    which a line is handled to the end before the next is read. *)

From S2P Require Import Prelude JsValue JsonText Catalog Handlers Effects Protocol Server.

(** ** State and events *)

(** A callback suspended at [await], with what its promise settles to when
    it does. *)
Record flight : Type := Flight {
  flight_pending : pending;
  flight_reply : completion value
}.

Record loop : Type := Loop {
  loop_state : state;
  in_flight : list flight
}.

Inductive event : Type :=
| Chunk (arrivals : list arrival)
| Settled_call (k : nat).

(** A suspended callback waits for the SDK or for a microtask. *)
Definition awaits_sdk (f : flight) : bool :=
  match pending_on (flight_pending f) with
  | SdkCall _ _ _ _ => true
  | AlreadySettled _ => false
  end.

(** The callback from its [await] to its end (lines 743-750). *)
Definition continue (f : flight) : M unit :=
  resume (flight_pending f) (flight_reply f).

(** The microtasks: the callbacks that wait for nothing, in order. *)
Fixpoint run_microtasks (fs : list flight) : M unit :=
  match fs with
  | [] => mret tt
  | f :: rest => continue f;; run_microtasks rest
  end.

Section loop.
Variable eng : engine.

(** The [line] events of one chunk: each callback up to its [await]; the
    result is the callbacks left suspended, in the order of their lines. *)
Fixpoint emit_lines (arrivals : list arrival) : M (list flight) :=
  match arrivals with
  | [] => mret []
  | a :: rest =>
      s ← on_line eng (arrival_line a) (arrival_now a);
      fs ← emit_lines rest;
      mret (match s with
            | Finished => fs
            | Suspended p => Flight p (arrival_reply a) :: fs
            end)
  end.

(** A chunk of input: the line events, then the microtasks; the callbacks
    that wait for the SDK are returned. *)
Definition deliver (arrivals : list arrival) : M (list flight) :=
  fs ← emit_lines arrivals;
  run_microtasks (List.filter (fun f => negb (awaits_sdk f)) fs);;
  mret (List.filter awaits_sdk fs).

(** One event.  [None]: the event names no callback in flight, or the step
    leaves the model. *)
Definition loop_step (e : event) (l : loop) : option loop :=
  match e with
  | Chunk arrivals =>
      match deliver arrivals (loop_state l) with
      | (st, Normal fs) => Some (Loop st (in_flight l ++ fs))
      | _ => None
      end
  | Settled_call k =>
      f ← in_flight l !! k;
      match continue f (loop_state l) with
      | (st, Normal _) => Some (Loop st (delete k (in_flight l)))
      | _ => None
      end
  end.

Fixpoint loop_run (events : list event) (l : loop) : option loop :=
  match events with
  | [] => Some l
  | e :: rest => l' ← loop_step e l; loop_run rest l'
  end.

(** The loops the program can be in: after start-up nothing is in flight,
    and events do the rest. *)
Inductive reachable : loop -> Prop :=
| reachable_boot credentials sdk_region :
    reachable (Loop (startup credentials (boot_state sdk_region)).1 [])
| reachable_step e l l' : reachable l -> loop_step e l = Some l' -> reachable l'.

(** ** Schedules *)

(** The lines of a schedule, in the order they arrive. *)
Definition event_arrivals (e : event) : list arrival :=
  match e with
  | Chunk arrivals => arrivals
  | Settled_call _ => []
  end.

Definition arrived (events : list event) : list arrival :=
  concat (map event_arrivals events).

(** Whether the callback of a line waits for the SDK. *)
Definition line_waits (a : arrival) (st : state) : bool :=
  match on_line eng (arrival_line a) (arrival_now a) st with
  | (_, Normal (Suspended p)) => awaits_sdk (Flight p (arrival_reply a))
  | _ => false
  end.

(** The sequential schedule: every line is a chunk of its own, and the call
    it makes, if any, settles before the next line. *)
Fixpoint sequential_schedule (arrivals : list arrival) (st : state) : list event :=
  match arrivals with
  | [] => []
  | a :: rest =>
      (Chunk [a] :: (if line_waits a st then [Settled_call 0] else [])) ++
      sequential_schedule rest (serve_line eng a st).1
  end.

End loop.

(** * Properties *)

#[local] Arguments resume : simpl never.
#[local] Arguments on_line : simpl never.

(** ** What a callback in flight owes *)

(** What the rest of a callback writes: its log entries and its reply. *)
Definition flight_effect (f : flight) : option (list string * reply) :=
  let id := pending_id (flight_pending f) in
  let outcome := outcome_of (pending_on (flight_pending f)) (flight_reply f) in
  r ← adapter_reply id outcome; Some (adapter_logs id outcome, r).

(** What the callbacks [fs] write when they continue in this order. *)
Fixpoint owed (fs : list flight) : option (list string * list reply) :=
  match fs with
  | [] => Some ([], [])
  | f :: rest =>
      '(logs, r) ← flight_effect f;
      '(logs', rs) ← owed rest;
      Some ((logs ++ logs')%list, r :: rs)
  end.

(** The state once everything in flight has settled, in the order of
    [in_flight]. *)
Definition settled (l : loop) : option state :=
  '(logs, rs) ← owed (in_flight l); Some (emit logs (map encode rs) (loop_state l)).

Lemma run_continue f st :
  continue f st =
  match flight_effect f with
  | Some (logs, r) => (emit logs [encode r] st, Normal tt)
  | None => (st, Unmodelled)
  end.
Proof.
  unfold continue, flight_effect. rewrite run_resume.
  by destruct (adapter_reply _ _).
Qed.

Lemma flight_effect_id f logs r :
  flight_effect f = Some (logs, r) -> reply_id r = pending_id (flight_pending f).
Proof.
  unfold flight_effect. destruct (outcome_of _ _); intros; by simplify_eq/=.
Qed.

Lemma run_microtasks_owed fs st :
  match owed fs with
  | Some (logs, rs) => run_microtasks fs st = (emit logs (map encode rs) st, Normal tt)
  | None => (run_microtasks fs st).2 = Unmodelled
  end.
Proof.
  revert st. induction fs as [|f fs IH]; intros st; simpl.
  { by rewrite emit_nil. }
  rewrite run_bind, run_continue.
  destruct (flight_effect f) as [[logs r]|]; simpl; [|done].
  specialize (IH (emit logs [encode r] st)).
  destruct (owed fs) as [[logs' rs]|]; simpl; [|done].
  by rewrite IH, emit_emit.
Qed.

Lemma run_microtasks_normal fs st st' :
  run_microtasks fs st = (st', Normal tt) ->
  exists logs rs, owed fs = Some (logs, rs) /\ st' = emit logs (map encode rs) st.
Proof.
  intros Hr. pose proof (run_microtasks_owed fs st) as Ho.
  destruct (owed fs) as [[logs rs]|]; [|by rewrite Hr in Ho].
  rewrite Hr in Ho. simplify_eq. eauto.
Qed.

Lemma owed_app fs gs :
  owed (fs ++ gs) =
  '(logs, rs) ← owed fs; '(logs', rs') ← owed gs;
  Some ((logs ++ logs')%list, (rs ++ rs')%list).
Proof.
  induction fs as [|f fs IH]; simpl.
  { by destruct (owed gs) as [[]|]. }
  destruct (flight_effect f) as [[logs r]|]; simpl; [|done]. rewrite IH.
  destruct (owed fs) as [[logs1 rs1]|]; simpl; [|done].
  destruct (owed gs) as [[logs2 rs2]|]; simpl; [|done].
  by rewrite app_assoc.
Qed.

(** The callbacks of a chunk, split into microtasks and calls in flight, owe
    what they owe together. *)
Lemma owed_partition (test : flight -> bool) fs logs1 rs1 logs2 rs2 :
  owed (List.filter test fs) = Some (logs1, rs1) ->
  owed (List.filter (fun f => negb (test f)) fs) = Some (logs2, rs2) ->
  exists logs rs,
    owed fs = Some (logs, rs) /\ logs ≡ₚ logs1 ++ logs2 /\ rs ≡ₚ rs1 ++ rs2.
Proof.
  revert logs1 rs1 logs2 rs2.
  induction fs as [|f fs IH]; intros logs1 rs1 logs2 rs2 H1 H2; simpl in *.
  { simplify_eq. by exists [], []. }
  destruct (test f); simpl in *;
    destruct (flight_effect f) as [[logs r]|]; simplify_eq/=;
    [destruct (owed (List.filter test fs)) as [[logs1' rs1']|] eqn:E
    |destruct (owed (List.filter _ fs)) as [[logs2' rs2']|] eqn:E in H2];
    simplify_eq/=;
    (edestruct IH as (logs' & rs' & -> & Hl & Hr); [done..|]);
    eexists _, _; (split; [done|]); rewrite Hl, Hr.
  - by rewrite <- !app_assoc.
  - split; [|by rewrite Permutation_middle].
    apply Permutation_app_swap_app.
Qed.

(** A callback taken out of turn owes what it owed in turn. *)
Lemma owed_delete fs k f logs r logs' rs :
  fs !! k = Some f ->
  flight_effect f = Some (logs, r) ->
  owed (delete k fs) = Some (logs', rs) ->
  exists logs0 rs0,
    owed fs = Some (logs0, rs0) /\ logs0 ≡ₚ logs ++ logs' /\ rs0 ≡ₚ r :: rs.
Proof.
  revert k logs' rs. induction fs as [|g fs IH]; intros [|k] logs' rs Hk Hf Ho;
    simplify_eq/=.
  { rewrite Hf, Ho. simpl. by eexists _, _. }
  destruct (flight_effect g) as [[logs1 r1]|]; simplify_eq/=.
  destruct (owed (delete k fs)) as [[logs2 rs2]|] eqn:E; simplify_eq/=.
  destruct (IH _ _ _ Hk Hf E) as (logs0 & rs0 & -> & Hl & Hr).
  eexists _, _. split; [done|]. rewrite Hl, Hr. split; [|by apply Permutation_swap].
  apply Permutation_app_swap_app.
Qed.

(** ** Every schedule is a serial one, up to the order of what is written *)

Lemma similar_emit logs logs' lines lines' st st' :
  logs ≡ₚ logs' -> lines ≡ₚ lines' -> similar st st' ->
  similar (emit logs lines st) (emit logs' lines' st').
Proof. intros. by apply emit_similar. Qed.

Section serial.
Variable eng : engine.

Lemma serve_app xs ys st st1 :
  serve eng xs st = (st1, Normal tt) -> serve eng (xs ++ ys) st = serve eng ys st1.
Proof.
  revert st. induction xs as [|a xs IH]; intros st Hs; cbn [serve app] in *.
  { rewrite run_ret in Hs. by simplify_eq. }
  rewrite run_bind in *. destruct (serve_line eng a st) as [st2 [[]|e|]]; by auto.
Qed.

Lemma loop_run_app es es' l :
  loop_run eng (es ++ es') l = l1 ← loop_run eng es l; loop_run eng es' l1.
Proof.
  revert l. induction es as [|e es IH]; intros l; simpl; [done|].
  destruct (loop_step eng e l); simpl; auto.
Qed.

(** A line event behind output that the sequential server does not have
    yet does what it does without it. *)
Lemma on_line_after a logs lines st st_s st1 s :
  similar st_s (emit logs lines st) ->
  on_line eng (arrival_line a) (arrival_now a) st = (st1, s) ->
  exists st_s1,
    on_line eng (arrival_line a) (arrival_now a) st_s = (st_s1, s) /\
    similar st_s1 (emit logs lines st1).
Proof.
  intros Hs Ho.
  destruct (local_after _ logs lines st st_s
              (local_on_line eng (arrival_line a) (arrival_now a)) Hs) as [H1 H2].
  rewrite Ho in H1, H2. destruct (on_line _ _ _ st_s) as [st_s1 s']. simpl in *.
  subst. eauto.
Qed.

(** The line events of a chunk, with what the suspended callbacks owe, come
    to the lines served one after the other. *)
Lemma emit_lines_serve arrivals st st2 fs logs rs logs0 lines0 st_s :
  emit_lines eng arrivals st = (st2, Normal fs) ->
  owed fs = Some (logs, rs) ->
  similar st_s (emit logs0 lines0 st) ->
  exists st_s',
    serve eng arrivals st_s = (st_s', Normal tt) /\
    similar st_s' (emit (logs0 ++ logs) (lines0 ++ map encode rs) st2).
Proof.
  revert st fs logs rs logs0 lines0 st_s.
  induction arrivals as [|a rest IH]; intros st fs logs rs logs0 lines0 st_s He Ho Hs;
    cbn [emit_lines serve] in *.
  { rewrite run_ret in He. simplify_eq/=. exists st_s. by rewrite !app_nil_r. }
  rewrite run_bind in He.
  destruct (on_line _ _ _ st) as [st1 [s|e|]] eqn:Hl; [|done..].
  rewrite run_bind in He.
  destruct (emit_lines eng rest st1) as [st2' [fs'|e|]] eqn:He'; [|done..].
  rewrite run_ret in He. simplify_eq/=.
  destruct (on_line_after _ _ _ _ _ _ _ Hs Hl) as (st_s1 & Hl' & Hs1).
  unfold serve_line. rewrite !run_bind, Hl'. destruct s as [|p]; simpl.
  { eauto. }
  change (resume p (arrival_reply a)) with (continue (Flight p (arrival_reply a))).
  rewrite run_continue. cbn [owed] in Ho.
  destruct (flight_effect _) as [[logs1 r]|]; [|done]. cbn in Ho.
  destruct (owed fs') as [[logs' rs']|] eqn:Ho'; simplify_eq/=.
  destruct (IH st1 fs' logs' rs' (logs0 ++ logs1)%list (lines0 ++ [encode r])%list
              (emit logs1 [encode r] st_s1)) as (st_s' & Hserve & Hs'); [done..| |].
  { rewrite <- emit_emit. by apply similar_emit. }
  exists st_s'. split; [done|]. by rewrite <- !app_assoc in Hs'.
Qed.

(** What [deliver] comes to when it ends normally. *)
Lemma deliver_normal arrivals st st1 gs :
  deliver eng arrivals st = (st1, Normal gs) ->
  exists st2 fs logs rs,
    emit_lines eng arrivals st = (st2, Normal fs) /\
    owed (List.filter (fun f => negb (awaits_sdk f)) fs) = Some (logs, rs) /\
    st1 = emit logs (map encode rs) st2 /\
    gs = List.filter awaits_sdk fs.
Proof.
  unfold deliver. rewrite run_bind.
  destruct (emit_lines eng arrivals st) as [st2 [fs|e|]]; [|done..].
  rewrite run_bind.
  destruct (run_microtasks _ st2) as [st3 [[]|e|]] eqn:Hm; [|done..].
  rewrite run_ret. intros ?; simplify_eq/=.
  destruct (run_microtasks_normal _ _ _ Hm) as (logs & rs & ? & ?).
  by eexists _, _, _, _.
Qed.

(** One event of the loop is the lines it brings served in order, seen from
    the states in which everything in flight has settled. *)
Lemma loop_step_serial e l l1 st1' :
  loop_step eng e l = Some l1 -> settled l1 = Some st1' ->
  exists st',
    settled l = Some st' /\
    forall st_s, similar st_s st' ->
      exists st_s1,
        serve eng (event_arrivals e) st_s = (st_s1, Normal tt) /\ similar st_s1 st1'.
Proof.
  destruct l as [st fs0]. unfold settled. destruct e as [arrivals|k]; simpl.
  - destruct (deliver eng arrivals st) as [st1 [gs|e|]] eqn:Hd; intros; simplify_eq/=.
    destruct (deliver_normal _ _ _ _ Hd) as (st2 & fs & logs & rs & He & Hm & -> & ->).
    rewrite owed_app in *.
    destruct (owed fs0) as [[logs0 rs0]|]; simplify_eq/=.
    destruct (owed (List.filter awaits_sdk fs)) as [[logs1 rs1]|] eqn:Hg; simplify_eq/=.
    destruct (owed_partition _ _ _ _ _ _ Hg Hm) as (logs2 & rs2 & Ho & Hl2 & Hr2).
    eexists. split; [done|]. intros st_s Hs.
    destruct (emit_lines_serve _ _ _ _ _ _ _ _ _ He Ho Hs) as (st_s' & -> & Hs').
    exists st_s'. split; [done|]. rewrite Hs', emit_emit.
    apply similar_emit; [| |done].
    + rewrite Hl2, app_assoc. apply Permutation_app_comm.
    + rewrite Hr2, !map_app, app_assoc. apply Permutation_app_comm.
  - destruct (fs0 !! k) as [f|] eqn:Hk; simpl; [|done]. rewrite run_continue.
    destruct (flight_effect f) as [[logs r]|] eqn:Hf; intros; simplify_eq/=.
    destruct (owed (delete k fs0)) as [[logs' rs]|] eqn:Ho; simplify_eq/=.
    destruct (owed_delete _ _ _ _ _ _ _ Hk Hf Ho) as (logs0 & rs0 & -> & Hl & Hr).
    eexists. split; [done|]. intros st_s Hs. exists st_s. split; [done|].
    rewrite Hs, emit_emit. apply similar_emit; [done| |done]. by rewrite Hr.
Qed.

Lemma loop_run_serial events l l' st' :
  loop_run eng events l = Some l' -> settled l' = Some st' ->
  exists st0,
    settled l = Some st0 /\
    forall st_s, similar st_s st0 ->
      exists st_s',
        serve eng (arrived events) st_s = (st_s', Normal tt) /\ similar st_s' st'.
Proof.
  revert l. induction events as [|e events IH]; intros l Hr Hs; simpl in *.
  { simplify_eq. eauto. }
  destruct (loop_step eng e l) as [l1|] eqn:He; simplify_eq/=.
  destruct (IH _ Hr Hs) as (st1 & Hs1 & H1).
  destruct (loop_step_serial _ _ _ _ He Hs1) as (st0 & Hs0 & H0).
  exists st0. split; [done|]. intros st_s Hsim.
  destruct (H0 _ Hsim) as (st_s1 & Hserve & Hsim1).
  destruct (H1 _ Hsim1) as (st_s' & Hserve' & Hsim').
  exists st_s'. split; [|done]. unfold arrived. simpl.
  by rewrite (serve_app _ _ _ _ Hserve).
Qed.

(** C3: every schedule of the event loop is serializable.  However the
    lines are cut into chunks and whenever the SDK calls settle, once
    everything in flight has settled the program has written what it writes
    when the same lines are handled one at a time in the order they arrived:
    the same replies and log entries, in a different order at most, and it
    leaves the same region. *)
Theorem loop_serializable events st l' st' :
  loop_run eng events (Loop st []) = Some l' ->
  settled l' = Some st' ->
  exists st_s,
    serve eng (arrived events) st = (st_s, Normal tt) /\ similar st_s st'.
Proof.
  intros Hr Hs. destruct (loop_run_serial _ _ _ _ Hr Hs) as (st0 & H0 & H).
  unfold settled in H0. simpl in H0. rewrite emit_nil in H0. simplify_eq. by apply H.
Qed.

End serial.

(** ** The loop, step by step *)

Section steps.
Variable eng : engine.

Lemma monotone_continue f : monotone (continue f).
Proof. apply monotone_resume. Qed.

Lemma monotone_run_microtasks fs : monotone (run_microtasks fs).
Proof. induction fs; simpl; monotone. apply monotone_continue. Qed.

Lemma monotone_emit_lines arrivals : monotone (emit_lines eng arrivals).
Proof. induction arrivals; simpl; monotone. apply monotone_on_line. Qed.

Lemma monotone_deliver arrivals : monotone (deliver eng arrivals).
Proof.
  unfold deliver. monotone; auto using monotone_emit_lines, monotone_run_microtasks.
Qed.

Lemma tidy_continue f : preserves tidy (continue f).
Proof.
  unfold continue, resume. preserves; auto using tidy_sendResponse, tidy_tool_failed.
Qed.

Lemma tidy_run_microtasks fs : preserves tidy (run_microtasks fs).
Proof. induction fs; simpl; preserves. apply tidy_continue. Qed.

Lemma tidy_emit_lines arrivals : preserves tidy (emit_lines eng arrivals).
Proof. induction arrivals; simpl; preserves. apply tidy_on_line. Qed.

Lemma tidy_deliver arrivals : preserves tidy (deliver eng arrivals).
Proof.
  unfold deliver. preserves; auto using tidy_emit_lines, tidy_run_microtasks.
Qed.

(** The state after a step is the state after a computation of the
    callback, and what is in flight afterwards waits for the SDK if what was
    in flight did. *)
Lemma loop_step_inv e l l' :
  loop_step eng e l = Some l' ->
  (exists m : M (list flight),
     monotone m /\ preserves tidy m /\ loop_state l' = (m (loop_state l)).1) /\
  (Forall (fun f => awaits_sdk f = true) (in_flight l) ->
   Forall (fun f => awaits_sdk f = true) (in_flight l')).
Proof.
  destruct e as [arrivals|k]; simpl.
  - destruct (deliver eng arrivals (loop_state l)) as [st [fs|e|]] eqn:Hd; intros;
      simplify_eq/=.
    split.
    + exists (deliver eng arrivals). rewrite Hd.
      eauto using monotone_deliver, tidy_deliver.
    + intros Hl. apply Forall_app. split; [done|].
      apply deliver_normal in Hd as (? & fs' & ? & ? & _ & _ & _ & ->).
      apply Forall_filter_true.
  - destruct (in_flight l !! k) as [f|]; simpl; [|done].
    destruct (continue f (loop_state l)) as [st [[]|e|]] eqn:Hc; intros; simplify_eq/=.
    split; [|apply Forall_delete].
    exists (continue f ≫= fun _ => mret []). rewrite run_bind, Hc.
    split_and!; [monotone|preserves|done]; auto using monotone_continue, tidy_continue.
Qed.

(** C15: in every state the program reaches the first line of the output is
    the ready notification, every line written is one line, and what is in
    flight waits for the SDK: a callback that waits for nothing has
    continued before the step ends. *)
Theorem reachable_invariant l :
  reachable eng l ->
  head (output (loop_state l)) = Some (JSON_stringify ready_notification) /\
  tidy (loop_state l) /\
  Forall (fun f => awaits_sdk f = true) (in_flight l).
Proof.
  induction 1 as [credentials sdk_region|e l l' _ (Hh & Ht & Hf) Hs].
  - split_and!; [by destruct credentials| |done].
    apply tidy_startup. constructor.
  - destruct (loop_step_inv _ _ _ Hs) as [(m & Hm & Hp & ->) Hf'].
    split_and!; [|by apply Hp|by apply Hf'].
    destruct (Hm (loop_state l)) as [[lines ->] _].
    by destruct (output (loop_state l)).
Qed.

(** C12: a call that settles is answered once, under the id of its request:
    the callback that awaited it writes the adapter's reply for the outcome
    of the handler and is in flight no longer; the region and the other
    callbacks in flight are left alone. *)
Theorem settled_call_answered l k l' :
  loop_step eng (Settled_call k) l = Some l' ->
  exists f r,
    in_flight l !! k = Some f /\
    adapter_reply (pending_id (flight_pending f))
      (outcome_of (pending_on (flight_pending f)) (flight_reply f)) = Some r /\
    reply_id r = pending_id (flight_pending f) /\
    output (loop_state l') = (output (loop_state l) ++ [encode r])%list /\
    config_region (loop_state l') = config_region (loop_state l) /\
    in_flight l' = delete k (in_flight l).
Proof.
  simpl. destruct (in_flight l !! k) as [f|]; simpl; [|done]. rewrite run_continue.
  destruct (flight_effect f) as [[logs r]|] eqn:Hf; intros; simplify_eq/=.
  exists f, r. split_and!; try done; [|by eapply flight_effect_id].
  unfold flight_effect in Hf. by destruct (adapter_reply _ _); simplify_eq/=.
Qed.

(** C16: nothing stays in flight for ever: when the calls in flight settle,
    one after the other, every one of them is answered and nothing is left
    in flight. *)
Theorem loop_drains l logs rs :
  owed (in_flight l) = Some (logs, rs) ->
  loop_run eng (replicate (length (in_flight l)) (Settled_call 0)) l =
  Some (Loop (emit logs (map encode rs) (loop_state l)) []).
Proof.
  destruct l as [st fs]. simpl. revert st logs rs.
  induction fs as [|f fs IH]; intros st logs rs Ho; simplify_eq/=.
  { by rewrite emit_nil. }
  rewrite run_continue.
  destruct (flight_effect f) as [[logs1 r]|]; simplify_eq/=.
  destruct (owed fs) as [[logs2 rs2]|] eqn:Ho'; simplify_eq/=.
  by rewrite (IH _ _ _ eq_refl), emit_emit.
Qed.

(** One line of the sequential schedule. *)
Lemma sequential_line a st :
  loop_run eng (Chunk [a] :: (if line_waits eng a st then [Settled_call 0] else []))
    (Loop st []) =
  match serve_line eng a st with
  | (st', Normal _) => Some (Loop st' [])
  | _ => None
  end.
Proof.
  unfold line_waits, serve_line. cbn [loop_run loop_step loop_state in_flight].
  unfold deliver. cbn [emit_lines]. rewrite !run_bind.
  destruct (on_line _ _ _ st) as [st1 [[|[id w]]|e|]]; [done| |done..].
  unfold awaits_sdk. cbn [flight_pending pending_on].
  destruct w as [c|t region params call]; run; unfold continue; cbn;
    rewrite ?run_bind; by destruct (resume _ _ st1) as [st2 [[]|e|]].
Qed.

(** C14: handling each line to the end before the next is read is one of
    the schedules of the loop: on the sequential schedule the loop ends in
    the state [serve] ends in, with nothing in flight, and leaves the model
    exactly when [serve] does. *)
Theorem sequential_schedule_serves arrivals st :
  loop_run eng (sequential_schedule eng arrivals st) (Loop st []) =
  match serve eng arrivals st with
  | (st', Normal _) => Some (Loop st' [])
  | _ => None
  end.
Proof.
  revert st. induction arrivals as [|a rest IH]; intros st; [done|].
  cbn [sequential_schedule serve]. rewrite loop_run_app, sequential_line, run_bind.
  destruct (serve_line eng a st) as [st1 [[]|e|]]; simpl; [apply IH|done..].
Qed.

(** C13: replies do not come in the order of the requests, even when no
    call to the SDK is made.  Of two lines that arrive in one chunk, the
    first invoking a tool that settles at once and the second answered
    without a tool, the second is answered first: the first callback has
    suspended at its [await] and continues when the chunk has been
    emitted. *)
Theorem chunk_answers_out_of_order a1 a2 st st1 st2 p logs r :
  on_line eng (arrival_line a1) (arrival_now a1) st = (st1, Normal (Suspended p)) ->
  awaits_sdk (Flight p (arrival_reply a1)) = false ->
  flight_effect (Flight p (arrival_reply a1)) = Some (logs, r) ->
  on_line eng (arrival_line a2) (arrival_now a2) st1 = (st2, Normal Finished) ->
  loop_step eng (Chunk [a1; a2]) (Loop st []) = Some (Loop (emit logs [encode r] st2) []).
Proof.
  intros H1 Hw Hf H2. unfold loop_step, deliver. cbn [emit_lines loop_state in_flight].
  rewrite !run_bind, H1. cbn beta iota. rewrite !run_bind, H2. run. rewrite Hw. cbn.
  by rewrite run_bind, run_continue, Hf.
Qed.

End steps.

(** ** Examples

    A chunk with two requests, [aws.s3.listBuckets] under id 2 and [ping]
    under id 1: the first waits for the SDK, the second is answered when the
    chunk has been emitted, the first when its call settles. *)

Definition example_buckets : arrival :=
  example_arrival
    ("{'jsonrpc':'2.0','id':2,'method':'tools/invoke','params':" +:+
     "{'name':'aws.s3.listBuckets','parameters':{'region':'eu-west-1'}}}")
    (Normal {{ "Buckets" ↦ VArr [] }}).

Definition example_ping : arrival :=
  example_arrival
    "{'jsonrpc':'2.0','id':1,'method':'tools/invoke','params':{'name':'ping'}}"
    Unmodelled.

Definition example_garbage : arrival := example_arrival "{not json" Unmodelled.

Definition example_pong : string := sq "{'jsonrpc':'2.0','id':1,'result':{'result':'pong'}}".

Definition example_listing : string :=
  sq "{'jsonrpc':'2.0','id':2,'result':{'result':{'region':'eu-west-1','buckets':[]}}}".

Definition example_parse_error : string :=
  sq "{'jsonrpc':'2.0','id':null,'error':{'code':-32700,'message':'Parse error'}}".

Definition example_events : list event :=
  [Chunk [example_buckets; example_ping]; Settled_call 0].

Definition example_ready : string :=
  sq "{'jsonrpc':'2.0','method':'notifications/ready','params':{}}".

(** The state after start-up. *)
Definition example_started : state := (startup None (boot_state $"us-east-1")).1.

(** The loop after start-up and the chunk, with the call in flight. *)
Definition example_loop : loop :=
  default (Loop example_started [])
    (loop_step example_engine (Chunk [example_buckets; example_ping])
       (Loop example_started [])).

(** The same once the call has settled. *)
Definition example_settled : loop :=
  default example_loop (loop_step example_engine (Settled_call 0) example_loop).

Lemma example_loop_reachable : reachable example_engine example_loop.
Proof.
  apply (reachable_step _ (Chunk [example_buckets; example_ping]) _ _
           (reachable_boot _ None $"us-east-1")).
  vm_compute. reflexivity.
Qed.

Lemma loop_serializable_witness :
  exists st_s,
    serve example_engine [example_buckets; example_ping] example_started
      = (st_s, Normal tt) /\
    output st_s ≡ₚ [example_ready; example_pong; example_listing] /\
    config_region st_s = $"eu-west-1".
Proof.
  assert (loop_run example_engine example_events (Loop example_started [])
          = Some example_settled) as Hr by (vm_compute; reflexivity).
  eassert (settled example_settled = Some _) as Hs by (vm_compute; reflexivity).
  destruct (loop_serializable _ _ _ example_settled _ Hr Hs) as (st_s & Hserve & Hregion & Hout & _).
  exists st_s. split_and!; [exact Hserve|exact Hout|exact Hregion].
Defined.

Lemma reachable_invariant_witness :
  head (output (loop_state example_loop)) = Some (JSON_stringify ready_notification) /\
  tidy (loop_state example_loop) /\
  Forall (fun f => awaits_sdk f = true) (in_flight example_loop).
Proof. exact (reachable_invariant example_engine example_loop example_loop_reachable). Defined.

Lemma settled_call_answered_witness :
  exists f r,
    in_flight example_loop !! 0%nat = Some f /\
    adapter_reply (pending_id (flight_pending f))
      (outcome_of (pending_on (flight_pending f)) (flight_reply f)) = Some r /\
    reply_id r = pending_id (flight_pending f) /\
    output (loop_state example_settled) =
      (output (loop_state example_loop) ++ [encode r])%list /\
    config_region (loop_state example_settled) = config_region (loop_state example_loop) /\
    in_flight example_settled = delete 0%nat (in_flight example_loop).
Proof. apply (settled_call_answered example_engine). vm_compute. reflexivity. Defined.

Lemma loop_drains_witness :
  loop_run example_engine [Settled_call 0] example_loop = Some example_settled.
Proof.
  eassert (owed (in_flight example_loop) = Some (_, _)) as Ho by (vm_compute; reflexivity).
  pose proof (loop_drains example_engine example_loop _ _ Ho) as H.
  vm_compute in H |- *. exact H.
Defined.

Lemma chunk_answers_out_of_order_witness :
  output <$>
    (loop_state <$>
       loop_step example_engine (Chunk [example_ping; example_garbage])
         (Loop example_state [])) =
  Some [example_parse_error; example_pong].
Proof.
  pose (p := Pending #1 (AlreadySettled (Normal pong))).
  pose (st1 := (on_line example_engine (arrival_line example_ping) 0 example_state).1).
  assert (on_line example_engine (arrival_line example_ping) (arrival_now example_ping)
            example_state = (st1, Normal (Suspended p))) as H1
    by (vm_compute; reflexivity).
  eassert (flight_effect (Flight p (arrival_reply example_ping)) = Some (_, _)) as Hf
    by (vm_compute; reflexivity).
  eassert (on_line example_engine (arrival_line example_garbage)
             (arrival_now example_garbage) st1 = (_, Normal Finished)) as H2
    by (vm_compute; reflexivity).
  rewrite (chunk_answers_out_of_order _ example_ping example_garbage _ _ _ _ _ _
             H1 eq_refl Hf H2).
  vm_compute. reflexivity.
Defined.
